(* ===== verification/_CoqProject ===== *)
-Q . S2P
Prelude.v
ByteBuffer.v
TableView.v
BuilderCore.v
Samples.v
OpInfo.v
Layout.v
LayoutDec.v
BuilderLemmas.v
Registry.v
BuilderSpec.v
Writers.v
RoundTrip.v
Lifecycle.v
