(* ===== verification/Prelude.v ===== *)
(** * Verification of the OpInfo flatbuffer accessors (onnxruntime)

    The program.  [src/onnxruntime/core/flatbuffers/ort_flatbuffers_py/fbs/OpInfo.py]
    is the accessor module the FlatBuffers compiler generates for the table
    [OpInfo] of the ORT model format.  It has a read side, the class [OpInfo]
    (root accessor, identifier check, and the three accessors of the one field
    [op_kernel_type_str_args], a vector of tables), and a write side, four
    functions that drive a [flatbuffers.Builder].  Every line of it is a call
    into the flatbuffers runtime, which is not part of the sources: that
    runtime is modelled from the specification ([spec.md], sections 3 to 7),
    and the accessors are translated line by line on top of that model.

    Files, in dependency order.
    - [Prelude] (this file): the error type of the specification and the
      [result] and state-and-error monads with their notations (scope
      [fb_scope]); integers at their width (range test, two's complement
      encoding to little-endian bytes through coqutil's [le_split] and
      [le_combine], sign extension); slices of byte lists at [Z] positions;
      alignment padding; the tactics and the hint databases the other files
      use.
    - [ByteBuffer]: the number kinds [packer.t] and the bounds-checked
      little-endian accessors [encode.Get] and [encode.Write] (spec 4.1),
      with their error behaviour, read-after-write and framing lemmas.
    - [TableView]: [Table.t] (a buffer and a position) with [Table.Offset],
      [Table.Indirect], [Table.Vector], [Table.VectorLen] (spec 4.3) and
      [util.BufferHasIdentifier] (spec 4.4).
    - [BuilderCore]: the builder state [Builder.t] and its operations
      [StartObject], [PrependUOffsetTRelativeSlot], [EndObject],
      [StartVector], [EndVector], [Finish], [Output] (spec 4.2), in the
      state-and-error monad; definitions only.
    - [Samples]: four finished buffers, byte by byte (a vector of three
      entries, an empty vector, no vector, a vtable without room for the
      field), on which the theorems are instantiated.
    - [OpInfo]: the read side of [OpInfo.py], lines 9 to 50: the record
      [OpInfo], [GetRootAsOpInfo], [OpInfoBufferHasIdentifier], [Init],
      [OpKernelTypeStrArgs], [OpKernelTypeStrArgsLength],
      [OpKernelTypeStrArgsIsNone], and the behaviour of each on every
      branch, errors included.
    - [Layout]: the abstract specification of a serialized [OpInfo]: the
      predicates that say where the root offset, the table, its vtable and
      the vector of entry offsets lie in a buffer ([holds], [table_at],
      [opinfo_at], [vector_at], [root_at], [serialized]), the reader
      [read_entries] that collects the abstract value (no vector, or the
      list of entry positions) through the accessors, and the refinement
      theorems: on a buffer that satisfies the layout the accessors return
      exactly the abstract value.
    - [LayoutDec]: a boolean function for each layout predicate, proved to
      decide it, and the [Decidable] instances: a layout statement about a
      concrete buffer is proved by evaluation ([by_decide]).
    - [BuilderLemmas]: the result and the next state of every builder
      operation in closed form.
    - [Registry]: the vtable registry (spec 2): [WriteVtable] in closed
      form in its two cases (a vtable of its own, a shared one), the table
      it leaves in the buffer, the bytes [images] of the remembered vtables
      and the invariant [distinct] (no two of them are the same), which
      [WriteVtable] keeps.
    - [BuilderSpec]: the strong postcondition [post] of a builder
      computation with its sequence and consequence rules, the invariant
      [wf] of the builder, the relations [grows] and [wrote] between a state
      and a later one, and the postcondition of every builder operation in
      the vocabulary of [Layout].
    - [Writers]: the write side of [OpInfo.py], lines 52 to 55: the four
      functions [OpInfoStart], [OpInfoAddOpKernelTypeStrArgs],
      [OpInfoStartOpKernelTypeStrArgsVector], [OpInfoEnd], and the two
      sequences in which a client calls them
      ([CreateOpKernelTypeStrArgsVector], [CreateOpInfo]), with what they
      leave in the buffer.
    - [RoundTrip]: the writer's whole program [serialize] and the reader's
      [deserialize]; that [serialize] establishes [serialized], that
      [deserialize] reads it back, the round trip, the identifier, the
      preservation of what was written before, and the three scenarios that
      produce the sample buffers.  The class [Codec] is the contract between
      a writer and a reader (a layout the writer establishes and the reader
      reads back); its round trip [codec_roundtrip] is proved once, for
      every instance.  The instances are [serialize] with [deserialize], and
      [serialize_v0], the writer of an older schema whose table has no
      field, with the same reader.  [deserialize_at] is the reader at an
      [offset] other than 0, the second argument of [GetRootAsOpInfo];
      [Pack] is the writer of a table that is not the root.
    - [Lifecycle]: the lifecycle of a buffer (spec 4.4): the calls of a
      writer as an inductive type [call] with their computation [run], one
      successful call as the relation [step], the states [reachable] from a
      new builder, the phase [phase_of] of a state ([Empty], [Building],
      [Finished]); what every operation guarantees when it succeeds (the
      class [Follows], with an instance per operation and one for
      sequencing, so that the guarantee of a sequence of calls is found by
      instance search), and the invariants of the reachable states.

    How the model corresponds to the code.
    - Python integers are unbounded: positions, offsets and lengths are [Z]
      and nothing wraps around.  Width only matters where a number is stored
      in the buffer: [encode.Write] and the builder's [Place] refuse a value
      that does not fit its kind, [encode.Get] decodes the unsigned or the
      two's complement value.
    - A buffer is a [list byte]; position [p] is the [p]-th element.  Reads
      and writes outside the list are the error [OutOfRange]; they never
      clamp.
    - Exceptions are values: every operation that can raise returns
      [result A]; builder operations have type [state Builder.t A], a
      function from the state to an error or a value and the next state.
    - The builder's bytearray and head cursor are represented by the written
      region [Bytes[head:]] alone, so [Builder.Offset] is its length.
      Capacity and the growth policy do not change the written bytes and are
      not modelled.
    - [UOffsetTFlags.py_type] is Python's [int], the identity on integers:
      it is the function [py_type].
    - The runtime is modelled from the specification, which leaves choices
      open; the model takes these.  Vtable entries are unsigned 16-bit
      numbers (spec 6).  A vtable is written with every slot of the table,
      absent ones as 0, and is shared with an earlier vtable of the same
      bytes.  [Finish] pads to the largest alignment used, writes the
      identifier and then the root offset.  A value that does not fit its
      kind, and a broken nesting discipline, are [PreconditionViolation].
      The steps the operations are made of ([Place], [Pad], [Prep], [Slot],
      [PrependSOffsetTRelative], [patch_soffset], [vtable_fields],
      [vtable_at]) and the number kinds [packer.t] are auxiliary definitions
      of the model.
    - A client of the write side is not part of [OpInfo.py].  The sequences
      [CreateOpKernelTypeStrArgsVector], [CreateOpInfo], [serialize],
      [deserialize] and the scenarios are the calls the specification's
      round trip and concrete scenario (section 8) make; the entries of the
      vector are tables of another generated class, written before and
      named here by their offsets ([CreateEmptyEntry] writes one with no
      field).

    What is proved.
    - Read side ([OpInfo]): that the three accessors agree on presence
      ([IsNone_true_absent], [IsNone_false_present]); where the root
      accessor fails and where the table it returns lies; forward
      compatibility with a short vtable; that [OpInfoBufferHasIdentifier]
      is false on a buffer too short for an identifier.
    - Refinement ([Layout], [RoundTrip]): on a buffer that satisfies the
      layout the accessors return presence, length and every entry
      ([absent_refines], [present_refines], [deserialize_refines]); the
      writer produces a buffer that satisfies the layout
      ([serialize_refines]).  The layout is also necessary: the reader
      returns a value exactly on the buffers whose root offset refers to a
      table of that value ([deserialize_at_iff_layout]).
      [OpKernelTypeStrArgs_unchecked_index] is what
      the accessor does at the other indexes: it answers every index whose
      four bytes lie in the buffer, since it never looks at the length.
    - Write side ([Writers]): per function, the guard (nesting discipline),
      the bytes written and their alignment; per sequence, the table or the
      vector left in the buffer and what the accessors read from it.
      [OpInfoEnd_shares_vtable] is the deduplication of vtables: a table
      whose vtable's bytes are already in the buffer refers to them.
      The example [padding_defeats_sharing] shows where it stops: the table size a
      vtable records counts the padding in front of the table, so two
      tables with the same fields need not have the same vtable.
    - Round trip ([RoundTrip]): [deserialize] of what [serialize] returns is
      the value written, and two values written to the same bytes are equal
      ([serialize_injective]); the buffer carries the identifier, the bytes
      ["ORTM"] after the root offset; its length and
      the positions of the root table and of the vector's first element
      are multiples of four ([serialize_aligned]); what was written before
      is kept; the scenarios, as examples, give the sample buffers byte by
      byte.
    - Tables side by side ([RoundTrip]): [Pack] writes the vector and the
      table of a value and finishes nothing; after two of them the
      accessors read each value from its own table ([Pack_twice]), whether
      the second table shares the vtable of the first or not.
    - Embedding ([RoundTrip]): a serialized buffer placed after any prefix
      reads at the offset of the prefix's length as the same value, every
      position shifted by that length, and the identifier test answers as
      on the buffer alone, also behind a four-byte size prefix
      ([deserialize_embedded]); a read that returns n entries was given at
      least 4 n + 4 bytes ([deserialize_length_bound]).
    - Registry ([Registry], [Lifecycle]): in every reachable state two
      remembered vtables at different offsets have different bytes
      ([remembered_vtables_differ]).
    - Nesting ([Lifecycle]): a call that begins a table or vector succeeds
      only outside any, a call that ends one only inside
      ([nesting_discipline]).
    - Compatibility and errors ([RoundTrip]): a buffer of the older schema
      is read as an [OpInfo] without vector ([forward_compatible]); the
      reader fails on no buffer with anything but [OutOfRange]
      ([deserialize_fails_OutOfRange]), so the [MalformedVTable] branch of
      [read_from] is dead; the writer refuses, with
      [PreconditionViolation], to start inside a table or vector and to
      refer to an entry that is not written when its offset is
      ([serialize_refuses]).
    - Growth as a preorder ([Layout], [BuilderSpec], [Lifecycle]):
      [suffix_of], [grows], [wrote] and [follows] are declared as
      [PreOrder]s and the layout predicates as [Proper] for [suffix_of], so
      that a fact about an earlier state is carried to a later one by
      [rewrite], and chains of operations are composed by [transitivity].
    - Lifecycle ([Lifecycle]): by induction on [reachable], the invariant
      [wf] holds in every reachable state; a successful call only adds
      bytes in front ([step_appends]) and never moves the phase back
      ([step_phase_monotone]); a writer outside any table can always finish
      ([can_finish]).  The example [finished_not_sealed] shows what the model inherits
      from the specification: no operation refuses a call after [Finish].

    Bounds.  No fuel is used anywhere: every definition is structurally
    recursive or not recursive, so every operation of the model returns,
    and the theorems on the writers state the result itself ([post]), not
    what holds if there is one.  There is no loop in [OpInfo.py], and no
    separate termination theorem.  Sizes are bounded only where the format
    bounds them: a stored offset must fit 32 bits, the offset from a table
    to its vtable 32 bits signed, a vtable entry 16 bits; the theorems on
    the write side therefore assume that the buffer stays below 2^31 bytes.
    The invariant [wf] bounds the alignment by four bytes, the largest
    [OpInfo] and its vector of offsets need.

    Not modelled: numpy access ([import_numpy], unused by this table), the
    builder's capacity management, size-prefixed buffers on the write side,
    strings and the nested table [OpIdKernelTypeStrArgsEntry] beyond its
    constructor and [Init] (its accessors are in another generated file). *)

From Stdlib Require Import ZArith List Lia Bool.
From coqutil Require Import Byte Word.LittleEndianList Decidable.
Import ListNotations.
#[local] Open Scope Z_scope.

Declare Scope fb_scope.
Delimit Scope fb_scope with fb.

(** ** Errors and results (spec 7) *)

Inductive error : Type :=
| OutOfRange
| MalformedVTable
| PreconditionViolation.

Inductive result (A : Type) : Type :=
| Ok (a : A)
| Err (e : error).

Arguments Ok {A} a.
Arguments Err {A} e.

Definition bind {A B : Type} (r : result A) (k : A -> result B) : result B :=
  match r with
  | Ok a => k a
  | Err e => Err e
  end.

Definition is_Ok {A : Type} (r : result A) : bool :=
  match r with
  | Ok _ => true
  | Err _ => false
  end.

(** Stateful code that can fail: a function from the state to an error or a
    value and the next state. *)
Definition state (S A : Type) : Type := S -> result (A * S).

Definition sret {S A : Type} (a : A) : state S A := fun s => Ok (a, s).

Definition sbind {S A B : Type} (m : state S A) (k : A -> state S B) : state S B :=
  fun s => match m s with
           | Ok (a, s') => k a s'
           | Err e => Err e
           end.

Definition sget {S : Type} : state S S := fun s => Ok (s, s).

Definition sput {S : Type} (s' : S) : state S unit := fun _ => Ok (tt, s').

Definition sfail {S A : Type} (e : error) : state S A := fun _ => Err e.

(** [assert c] is Python's [if not c: raise]. *)
Definition assert {S : Type} (c : bool) : state S unit :=
  if c then sret tt else sfail PreconditionViolation.

Notation "x <- e ;; k" := (bind e (fun x => k))
  (at level 61, e at next level, right associativity) : fb_scope.
Notation "x <~ e ;; k" := (sbind e (fun x => k))
  (at level 61, e at next level, right associativity) : fb_scope.
Notation "e ;;; k" := (sbind e (fun _ => k))
  (at level 61, right associativity) : fb_scope.

#[local] Open Scope fb_scope.

(** ** Bytes and integers at their width *)

Abbreviation bytes := (list byte).
Abbreviation len l := (Z.of_nat (length l)).

(** The least value of a [w]-byte integer, and the least value above it. *)
Definition int_lo (w : nat) (sgn : bool) : Z :=
  if sgn then - 2 ^ (8 * Z.of_nat w - 1) else 0.

Definition int_hi (w : nat) (sgn : bool) : Z :=
  if sgn then 2 ^ (8 * Z.of_nat w - 1) else 2 ^ (8 * Z.of_nat w).

Definition int_fits (w : nat) (sgn : bool) (z : Z) : bool :=
  (int_lo w sgn <=? z) && (z <? int_hi w sgn).

(** Two's complement reading of an unsigned [w]-byte value. *)
Definition sext (w : nat) (u : Z) : Z :=
  if u <? 2 ^ (8 * Z.of_nat w - 1) then u else u - 2 ^ (8 * Z.of_nat w).

Definition int_encode (w : nat) (z : Z) : bytes := le_split w z.

Definition int_decode (w : nat) (sgn : bool) (bs : bytes) : Z :=
  let u := le_combine bs in if sgn then sext w u else u.

(** ** Slices at integer positions *)

(** [n] bytes at position [pos] lie inside [buf]. *)
Definition in_bounds (buf : bytes) (pos : Z) (n : nat) : bool :=
  (0 <=? pos) && (pos + Z.of_nat n <=? len buf).

Definition slice (buf : bytes) (pos : Z) (n : nat) : bytes :=
  firstn n (skipn (Z.to_nat pos) buf).

Definition zeros (n : Z) : bytes := repeat Byte.x00 (Z.to_nat n).

Definition bytes_eqb (a b : bytes) : bool := List.list_eqb Byte.eqb a b.

(** The padding that makes [offset + additional + padding] a multiple of
    [size]. *)
Definition align_pad (offset size additional : Z) : Z :=
  (- (offset + additional)) mod size.

(** ** Tactics and hint databases *)

Create Rewrite HintDb fb_len.

(** [fb]: the lemmas [eauto with fb] closes side conditions with. *)
Create HintDb fb.

#[export] Hint Rewrite @length_app @length_firstn @length_skipn @repeat_length
  @length_map @length_rev length_le_split @List.upds_length : fb_len.

(** Lengths pushed through list operations, then linear arithmetic. *)
Ltac len_simpl :=
  autorewrite with fb_len in *; cbn [length] in *.

Ltac len_solve := len_simpl; lia.

(** Boolean comparisons on [Z] and [nat] as propositions, in the goal and
    the hypotheses. *)
Ltac zbool :=
  repeat match goal with
         | H : andb _ _ = true |- _ => apply andb_true_iff in H; destruct H
         | H : andb _ _ = false |- _ => apply andb_false_iff in H
         | H : negb _ = true |- _ => apply negb_true_iff in H
         | H : negb _ = false |- _ => apply negb_false_iff in H
         | H : (_ <=? _) = true |- _ => apply Z.leb_le in H
         | H : (_ <=? _) = false |- _ => apply Z.leb_gt in H
         | H : (_ <? _) = true |- _ => apply Z.ltb_lt in H
         | H : (_ <? _) = false |- _ => apply Z.ltb_ge in H
         | H : (_ =? _) = true |- _ => apply Z.eqb_eq in H
         | H : (_ =? _) = false |- _ => apply Z.eqb_neq in H
         end.

(** Case analysis on the scrutinee of the first [match] or [if] of the goal. *)
Ltac case_scrut :=
  match goal with
  | |- context [match ?x with _ => _ end] =>
      lazymatch x with
      | context [match _ with _ => _ end] => fail
      | _ => destruct x eqn:?
      end
  end.

(** Inversion of a successful [bind] in a hypothesis. *)
Ltac bind_inv H :=
  match type of H with
  | bind ?r _ = Ok _ =>
      let a := fresh "a" in
      let E := fresh "E" in
      destruct r as [a | ?] eqn:E; cbn [bind] in H; [ | discriminate H ]
  end.

(** A closed side condition (a comparison of numbers, an equation between
    values), by evaluation. *)
Ltac by_compute :=
  vm_compute; repeat split; first [ reflexivity | discriminate ].

(** ** Lemmas *)

Section Results.
Context {A B : Type}.
Implicit Types (r : result A) (k : A -> result B).

Lemma bind_Ok_iff r k b :
  bind r k = Ok b <-> exists a, r = Ok a /\ k a = Ok b.
Proof.
  destruct r as [a | e]; cbn.
  - split; [ eauto | intros (a' & [= <-] & H); exact H ].
  - split; [ discriminate | intros (a' & [=] & _) ].
Qed.

Lemma bind_Err_iff r k e :
  bind r k = Err e <-> r = Err e \/ exists a, r = Ok a /\ k a = Err e.
Proof.
  destruct r as [a | e']; cbn.
  - split; [ eauto | intros [[=] | (a' & [= <-] & H)]; exact H ].
  - split; [ intros [= ->]; auto | intros [[= ->] | (a' & [=] & _)]; reflexivity ].
Qed.

Lemma is_Ok_true r : is_Ok r = true <-> exists a, r = Ok a.
Proof.
  destruct r; cbn; split; eauto; try discriminate.
  intros (a & [=]).
Qed.

End Results.

Section States.
Context {S A B : Type}.
Implicit Types (m : state S A) (k : A -> state S B) (s : S).

(** Running a sequence: the first computation, then the rest on its value
    and its final state. *)
Lemma sbind_Ok m k s a (s' : S) : m s = Ok (a, s') -> sbind m k s = k a s'.
Proof. unfold sbind. intros ->. reflexivity. Qed.

Lemma sbind_Err m k s e : m s = Err e -> sbind m k s = Err e.
Proof. unfold sbind. intros ->. reflexivity. Qed.

Lemma sbind_Ok_iff m k s r :
  sbind m k s = Ok r <-> exists a s', m s = Ok (a, s') /\ k a s' = Ok r.
Proof.
  unfold sbind. destruct (m s) as [[a s'] | e]; split.
  - eauto.
  - intros (a' & s'' & [= <- <-] & H). exact H.
  - discriminate.
  - intros (a' & s'' & [=] & _).
Qed.

Lemma assert_true s : @assert S true s = Ok (tt, s).
Proof. reflexivity. Qed.

Lemma assert_false s : @assert S false s = Err PreconditionViolation.
Proof. reflexivity. Qed.

End States.

Section Integers.
Variable w : nat.
Hypothesis w_pos : (0 < w)%nat.

Lemma pow_width_split : 2 ^ (8 * Z.of_nat w) = 2 * 2 ^ (8 * Z.of_nat w - 1).
Proof. rewrite <- Z.pow_succ_r by lia. f_equal. lia. Qed.

Lemma pow_width_pos : 0 < 2 ^ (8 * Z.of_nat w - 1).
Proof. apply Z.pow_pos_nonneg; lia. Qed.

Lemma int_fits_spec sgn z :
  int_fits w sgn z = true <-> int_lo w sgn <= z < int_hi w sgn.
Proof.
  unfold int_fits. rewrite andb_true_iff, Z.leb_le, Z.ltb_lt. reflexivity.
Qed.

Lemma length_int_encode z : length (int_encode w z) = w.
Proof. apply length_le_split. Qed.

(** Decoding what was encoded gives the number back, when it fits. *)
Lemma int_decode_encode sgn z :
  int_fits w sgn z = true -> int_decode w sgn (int_encode w z) = z.
Proof.
  rewrite int_fits_spec. unfold int_decode, int_encode, int_lo, int_hi, sext.
  rewrite le_combine_split, (Z.mul_comm (Z.of_nat w) 8).
  pose proof pow_width_split. pose proof pow_width_pos.
  destruct sgn; intros Hz; [ | apply Z.mod_small; lia ].
  destruct (Z.lt_ge_cases z 0) as [Hneg | Hpos].
  - rewrite <- (Z_mod_plus_full z 1), Z.mod_small by lia.
    destruct (Z.ltb_spec (z + 1 * 2 ^ (8 * Z.of_nat w)) (2 ^ (8 * Z.of_nat w - 1))); lia.
  - rewrite Z.mod_small by lia.
    destruct (Z.ltb_spec z (2 ^ (8 * Z.of_nat w - 1))); lia.
Qed.

(** Every [w]-byte sequence decodes to a number that fits. *)
Lemma int_decode_fits sgn bs :
  length bs = w -> int_fits w sgn (int_decode w sgn bs) = true.
Proof.
  intros Hl. rewrite int_fits_spec. unfold int_decode, int_lo, int_hi, sext.
  pose proof (le_combine_bound bs) as Hb. rewrite Hl in Hb.
  pose proof pow_width_split. pose proof pow_width_pos.
  destruct sgn; [ | lia ].
  destruct (Z.ltb_spec (le_combine bs) (2 ^ (8 * Z.of_nat w - 1))); lia.
Qed.

(** Encoding what was decoded gives the bytes back. *)
Lemma int_encode_decode sgn bs :
  length bs = w -> int_encode w (int_decode w sgn bs) = bs.
Proof.
  intros Hl. unfold int_encode, int_decode, sext.
  destruct sgn; [ | subst w; apply split_le_combine ].
  destruct (Z.ltb_spec (le_combine bs) (2 ^ (8 * Z.of_nat w - 1)));
    [ subst w; apply split_le_combine | ].
  rewrite le_split_mod, (Z.mul_comm (Z.of_nat w) 8).
  replace ((le_combine bs - 2 ^ (8 * Z.of_nat w)) mod 2 ^ (8 * Z.of_nat w))
    with (le_combine bs mod 2 ^ (8 * Z.of_nat w)).
  - rewrite (Z.mul_comm 8), <- le_split_mod. subst w. apply split_le_combine.
  - rewrite Zminus_mod, Z_mod_same_full, Z.sub_0_r, Z.mod_mod; [ reflexivity | ].
    apply Z.pow_nonzero; lia.
Qed.

End Integers.

Section Slices.
Implicit Types (buf pre post bs : bytes) (pos : Z) (n : nat).

Lemma in_bounds_spec buf pos n :
  in_bounds buf pos n = true <-> 0 <= pos /\ pos + Z.of_nat n <= len buf.
Proof.
  unfold in_bounds. rewrite andb_true_iff, Z.leb_le, Z.leb_le. reflexivity.
Qed.

Lemma length_slice buf pos n :
  in_bounds buf pos n = true -> length (slice buf pos n) = n.
Proof. rewrite in_bounds_spec. unfold slice. intros. len_solve. Qed.

(** Bytes added in front shift every position by their number. *)
Lemma in_bounds_app_r pre buf pos n :
  0 <= pos -> in_bounds (pre ++ buf) (len pre + pos) n = in_bounds buf pos n.
Proof.
  intros. unfold in_bounds. rewrite length_app.
  destruct (Z.leb_spec 0 pos), (Z.leb_spec 0 (len pre + pos)); try lia.
  cbn. destruct (Z.leb_spec (pos + Z.of_nat n) (len buf)),
    (Z.leb_spec (len pre + pos + Z.of_nat n) (Z.of_nat (length pre + length buf)));
    try reflexivity; lia.
Qed.

Lemma slice_app_r pre buf pos n :
  0 <= pos -> slice (pre ++ buf) (len pre + pos) n = slice buf pos n.
Proof.
  intros. unfold slice. f_equal.
  replace (Z.to_nat (len pre + pos)) with (length pre + Z.to_nat pos)%nat by lia.
  rewrite skipn_app, skipn_all2 by lia.
  cbn. f_equal. lia.
Qed.

(** Bytes added behind change no slice that lies inside. *)
Lemma in_bounds_app_l buf post pos n :
  in_bounds buf pos n = true -> in_bounds (buf ++ post) pos n = true.
Proof. rewrite !in_bounds_spec, length_app. lia. Qed.

Lemma slice_app_l buf post pos n :
  in_bounds buf pos n = true -> slice (buf ++ post) pos n = slice buf pos n.
Proof.
  rewrite in_bounds_spec. intros. unfold slice.
  rewrite skipn_app, firstn_app, length_skipn.
  replace (n - (length buf - Z.to_nat pos))%nat with 0%nat by lia.
  cbn. apply app_nil_r.
Qed.

Lemma slice_exact pre bs post :
  slice (pre ++ bs ++ post) (len pre) (length bs) = bs.
Proof.
  unfold slice. rewrite Nat2Z.id, skipn_app, skipn_all, Nat.sub_diag.
  cbn. rewrite firstn_app, firstn_all, Nat.sub_diag. cbn. apply app_nil_r.
Qed.

Lemma skipn_nth_error {A : Type} (l : list A) : forall j e,
  nth_error l j = Some e -> skipn j l = e :: skipn (S j) l.
Proof.
  induction l as [ | a l IH]; intros [ | j] e H; try discriminate; cbn in *.
  - congruence.
  - apply IH, H.
Qed.

(** A function whose values on a list are pairwise different is injective
    on the list. *)
Lemma NoDup_map_inj {A B : Type} (f : A -> B) (l : list A) :
  NoDup (map f l) -> forall x y, In x l -> In y l -> f x = f y -> x = y.
Proof.
  induction l as [ | a l IH]; cbn [map]; intros Hnd x y Hx Hy Hf; [ destruct Hx | ].
  apply NoDup_cons_iff in Hnd. destruct Hnd as [Hn Hnd].
  destruct Hx as [<- | Hx], Hy as [<- | Hy]; [ reflexivity | | | exact (IH Hnd x y Hx Hy Hf) ];
    exfalso; apply Hn; [ rewrite Hf | rewrite <- Hf ]; apply in_map; assumption.
Qed.

(** Mapping an injective function over lists is injective. *)
Lemma map_inj {A B : Type} (f : A -> B) :
  (forall x y, f x = f y -> x = y) ->
  forall l l', map f l = map f l' -> l = l'.
Proof.
  intros Hf l. induction l as [ | a l IH]; intros [ | a' l']; cbn [map];
    try discriminate; [ reflexivity | ].
  intros [= Ha Hl]. f_equal; [ apply Hf, Ha | apply IH, Hl ].
Qed.

Lemma bytes_eqb_eq (a b : bytes) : bytes_eqb a b = true <-> a = b.
Proof.
  unfold bytes_eqb.
  destruct (List.list_eqb_spec (aeqb_dec := Byte.eqb_spec) a b) as [-> | Hne];
    split; intros; congruence.
Qed.

Lemma length_zeros (n : Z) : len (zeros n) = Z.max 0 n.
Proof. unfold zeros. rewrite repeat_length. lia. Qed.

Lemma length_zeros_nat (n : Z) : length (zeros n) = Z.to_nat n.
Proof. apply repeat_length. Qed.

End Slices.

#[export] Hint Rewrite length_zeros_nat : fb_len.

Section Alignment.
Variables offset size additional : Z.
Hypothesis size_pos : 0 < size.

Lemma align_pad_range : 0 <= align_pad offset size additional < size.
Proof. unfold align_pad. apply Z.mod_pos_bound. exact size_pos. Qed.

Lemma align_pad_aligned :
  (offset + additional + align_pad offset size additional) mod size = 0.
Proof.
  unfold align_pad.
  rewrite Zplus_mod, Z.mod_mod, <- Zplus_mod by lia.
  replace (offset + additional + - (offset + additional)) with 0 by lia.
  apply Z.mod_0_l. lia.
Qed.

Lemma align_pad_0 :
  (offset + additional) mod size = 0 -> align_pad offset size additional = 0.
Proof.
  unfold align_pad. intros H.
  apply Z.mod_divide in H; [ | lia ]. apply Z.mod_divide; [ lia | ].
  apply Z.divide_opp_r. exact H.
Qed.

End Alignment.

#[export] Hint Rewrite length_int_encode : fb_len.
