(* ===== verification/ByteBuffer.v ===== *)
(** * ByteBuffer: little-endian numbers in a byte list (spec 4.1)

    [packer.t] names the number kinds the accessors store: [uint8], the
    16-bit vtable entry [voffset], the 32-bit unsigned offset [uoffset] and
    the 32-bit signed offset [soffset].  [encode.Get] and [encode.Write] are
    the bounds-checked read and write of one number at a position
    ([readU32], [readI16], [writeU32], [writeI16] of the specification;
    [flatbuffers.encode.Get] and [flatbuffers.encode.Write] in the calls of
    [OpInfo.py]).  A position outside the buffer is [OutOfRange]; a value
    that does not fit its kind is refused by [Write].

    The lemmas give the two operations their contract (success exactly in
    bounds, the value decoded, the range of a value read), the law that a
    read after a write returns what was written and that other positions
    keep their content, and framing: bytes added in front shift positions,
    bytes added behind change nothing. *)

From Stdlib Require Import ZArith List Lia Bool.
From coqutil Require Import Byte Word.LittleEndianList.
From S2P Require Import Prelude.
Import ListNotations.
#[local] Open Scope Z_scope.
#[local] Open Scope fb_scope.

Module packer.

Inductive t : Type :=
| uint8
| voffset
| uoffset
| soffset.

Definition bytewidth (p : t) : nat :=
  match p with
  | uint8 => 1
  | voffset => 2
  | uoffset => 4
  | soffset => 4
  end.

Definition signed (p : t) : bool :=
  match p with
  | soffset => true
  | _ => false
  end.

Definition fits (p : t) (z : Z) : bool := int_fits (bytewidth p) (signed p) z.

Definition pack (p : t) (z : Z) : bytes := int_encode (bytewidth p) z.

Definition unpack (p : t) (bs : bytes) : Z :=
  int_decode (bytewidth p) (signed p) bs.

End packer.

Module encode.

(** [Get p buf head]: the number of kind [p] stored at position [head]. *)
Definition Get (p : packer.t) (buf : bytes) (head : Z) : result Z :=
  if in_bounds buf head (packer.bytewidth p)
  then Ok (packer.unpack p (slice buf head (packer.bytewidth p)))
  else Err OutOfRange.

(** [Write p buf head n]: [buf] with the number [n] of kind [p] stored at
    position [head]. *)
Definition Write (p : packer.t) (buf : bytes) (head : Z) (n : Z) : result bytes :=
  if negb (packer.fits p n) then Err PreconditionViolation
  else if in_bounds buf head (packer.bytewidth p)
  then Ok (List.upds buf (Z.to_nat head) (packer.pack p n))
  else Err OutOfRange.

End encode.

(** ** Number kinds *)

Lemma bytewidth_pos (p : packer.t) : (0 < packer.bytewidth p)%nat.
Proof. destruct p; cbn; lia. Qed.

Lemma length_pack p z : length (packer.pack p z) = packer.bytewidth p.
Proof. apply length_int_encode. Qed.

(** The widths, as rewrite rules for [len_simpl]. *)
Lemma bytewidth_widths :
  packer.bytewidth packer.uint8 = 1%nat /\ packer.bytewidth packer.voffset = 2%nat /\
  packer.bytewidth packer.uoffset = 4%nat /\ packer.bytewidth packer.soffset = 4%nat.
Proof. repeat split. Qed.

#[export] Hint Rewrite length_pack (proj1 bytewidth_widths)
  (proj1 (proj2 bytewidth_widths)) (proj1 (proj2 (proj2 bytewidth_widths)))
  (proj2 (proj2 (proj2 bytewidth_widths))) : fb_len.

Lemma unpack_pack p z : packer.fits p z = true -> packer.unpack p (packer.pack p z) = z.
Proof. apply int_decode_encode, bytewidth_pos. Qed.

Lemma pack_unpack p bs :
  length bs = packer.bytewidth p -> packer.pack p (packer.unpack p bs) = bs.
Proof. apply int_encode_decode, bytewidth_pos. Qed.

Lemma unpack_fits p bs :
  length bs = packer.bytewidth p -> packer.fits p (packer.unpack p bs) = true.
Proof. apply int_decode_fits, bytewidth_pos. Qed.

(** The ranges, spelled out. *)
Lemma fits_uoffset z : packer.fits packer.uoffset z = true <-> 0 <= z < 2 ^ 32.
Proof. unfold packer.fits. rewrite int_fits_spec. reflexivity. Qed.

Lemma fits_soffset z : packer.fits packer.soffset z = true <-> - 2 ^ 31 <= z < 2 ^ 31.
Proof. unfold packer.fits. rewrite int_fits_spec. reflexivity. Qed.

Lemma fits_voffset z : packer.fits packer.voffset z = true <-> 0 <= z < 2 ^ 16.
Proof. unfold packer.fits. rewrite int_fits_spec. reflexivity. Qed.

Lemma fits_uint8 z : packer.fits packer.uint8 z = true <-> 0 <= z < 2 ^ 8.
Proof. unfold packer.fits. rewrite int_fits_spec. reflexivity. Qed.

(** ** Reading *)

Section Reading.
Variable p : packer.t.
Implicit Types (buf pre post : bytes) (pos v : Z).

Lemma Get_Ok_iff buf pos v :
  encode.Get p buf pos = Ok v <->
  in_bounds buf pos (packer.bytewidth p) = true /\
  v = packer.unpack p (slice buf pos (packer.bytewidth p)).
Proof.
  unfold encode.Get. destruct (in_bounds buf pos _); split.
  - intros [= <-]. auto.
  - intros [_ ->]. reflexivity.
  - discriminate.
  - intros [[=] _].
Qed.

(** A read fails only with [OutOfRange], and exactly outside the buffer. *)
Lemma Get_Err_iff buf pos e :
  encode.Get p buf pos = Err e <->
  e = OutOfRange /\ in_bounds buf pos (packer.bytewidth p) = false.
Proof.
  unfold encode.Get. destruct (in_bounds buf pos _); split.
  - discriminate.
  - intros [_ [=]].
  - intros [= <-]. auto.
  - intros [-> _]. reflexivity.
Qed.

Lemma Get_in_bounds buf pos v :
  encode.Get p buf pos = Ok v -> 0 <= pos /\ pos + Z.of_nat (packer.bytewidth p) <= len buf.
Proof. rewrite Get_Ok_iff, in_bounds_spec. tauto. Qed.

Lemma Get_fits buf pos v : encode.Get p buf pos = Ok v -> packer.fits p v = true.
Proof.
  rewrite Get_Ok_iff. intros [Hb ->]. apply unpack_fits, length_slice, Hb.
Qed.

Lemma Get_app_r pre buf pos :
  0 <= pos -> encode.Get p (pre ++ buf) (len pre + pos) = encode.Get p buf pos.
Proof.
  intros. unfold encode.Get. rewrite in_bounds_app_r, slice_app_r by assumption.
  reflexivity.
Qed.

Lemma Get_app_l buf post pos v :
  encode.Get p buf pos = Ok v -> encode.Get p (buf ++ post) pos = Ok v.
Proof.
  rewrite !Get_Ok_iff. intros [Hb ->].
  rewrite in_bounds_app_l, slice_app_l by assumption. auto.
Qed.

(** The number packed between [pre] and [post] is read back at [len pre]. *)
Lemma Get_pack pre post v :
  packer.fits p v = true ->
  encode.Get p (pre ++ packer.pack p v ++ post) (len pre) = Ok v.
Proof.
  intros Hf. apply Get_Ok_iff. split.
  - apply in_bounds_spec. len_solve.
  - rewrite <- (length_pack p v) at 1. rewrite slice_exact.
    symmetry. apply unpack_pack, Hf.
Qed.

End Reading.

(** ** Writing *)

Section Writing.
Variable p : packer.t.
Implicit Types (buf out : bytes) (pos n : Z).

Lemma Write_Ok_iff buf pos n (buf' : bytes) :
  encode.Write p buf pos n = Ok buf' <->
  packer.fits p n = true /\ in_bounds buf pos (packer.bytewidth p) = true /\
  buf' = List.upds buf (Z.to_nat pos) (packer.pack p n).
Proof.
  unfold encode.Write.
  destruct (packer.fits p n), (in_bounds buf pos _); cbn; split;
    try discriminate; try (intros [= <-]; auto); intuition congruence.
Qed.

Lemma Write_length buf pos n (buf' : bytes) :
  encode.Write p buf pos n = Ok buf' -> length buf' = length buf.
Proof. rewrite Write_Ok_iff. intros (_ & _ & ->). apply List.upds_length. Qed.

(** The image of a write: the bytes before the position, the packed number,
    the bytes after it. *)
Lemma Write_image buf pos n (buf' : bytes) :
  encode.Write p buf pos n = Ok buf' ->
  buf' = firstn (Z.to_nat pos) buf ++ packer.pack p n
           ++ skipn (Z.to_nat pos + packer.bytewidth p) buf.
Proof.
  rewrite Write_Ok_iff, in_bounds_spec. intros (_ & Hb & ->).
  unfold List.upds.
  rewrite length_pack, (firstn_all2 (packer.pack p n)) by len_solve.
  do 2 f_equal. f_equal. lia.
Qed.

(** A read after a write at the same position returns the number written. *)
Lemma Get_Write_same buf pos n (buf' : bytes) :
  encode.Write p buf pos n = Ok buf' -> encode.Get p buf' pos = Ok n.
Proof.
  intros Hw. pose proof (Write_image _ _ _ _ Hw) as ->.
  apply Write_Ok_iff in Hw. destruct Hw as (Hf & Hb & _).
  apply in_bounds_spec in Hb.
  set (pre := firstn (Z.to_nat pos) buf).
  replace pos with (len pre) at 2 by (subst pre; len_solve).
  apply Get_pack, Hf.
Qed.

(** Overwriting a packed number in place. *)
Lemma Write_pack (pre post : bytes) (x v : Z) :
  packer.fits p v = true ->
  encode.Write p (pre ++ packer.pack p x ++ post) (len pre) v
  = Ok (pre ++ packer.pack p v ++ post).
Proof.
  intros Hf. apply Write_Ok_iff. split; [ exact Hf | ]. split.
  - apply in_bounds_spec. len_solve.
  - rewrite Nat2Z.id, List.upds_app2, Nat.sub_diag by lia.
    rewrite List.upds_app1 by len_solve.
    rewrite List.upds_replace by len_solve. reflexivity.
Qed.

End Writing.

(** ** Sequences of numbers *)

Section Sequences.
Variable p : packer.t.

(** The [k]-th number of a packed sequence is read back at [k] widths after
    its start. *)
Lemma Get_flat_map (pre post : bytes) (l : list Z) (k : nat) (v : Z) :
  nth_error l k = Some v -> packer.fits p v = true ->
  encode.Get p (pre ++ flat_map (packer.pack p) l ++ post)
    (len pre + Z.of_nat (packer.bytewidth p) * Z.of_nat k) = Ok v.
Proof.
  intros Hk Hf. apply nth_error_split in Hk. destruct Hk as (l1 & l2 & -> & <-).
  rewrite flat_map_app. cbn [flat_map]. rewrite <- !app_assoc, app_assoc.
  replace (len pre + Z.of_nat (packer.bytewidth p) * Z.of_nat (length l1))
    with (len (pre ++ flat_map (packer.pack p) l1)).
  - apply Get_pack, Hf.
  - rewrite length_app, Nat2Z.inj_add. f_equal.
    induction l1 as [ | a l1 IH]; cbn [flat_map length]; [ lia | len_solve ].
Qed.

Lemma length_flat_map_pack (l : list Z) :
  length (flat_map (packer.pack p) l) = (packer.bytewidth p * length l)%nat.
Proof. induction l as [ | a l IH]; cbn [flat_map length]; len_solve. Qed.

End Sequences.

(** ** Framing *)

(** A successful read is unchanged when the buffer is embedded in a larger
    one: the position shifts by the number of bytes in front. *)
Lemma Get_frame p (pre buf post : bytes) (pos v : Z) :
  encode.Get p buf pos = Ok v ->
  encode.Get p (pre ++ buf ++ post) (len pre + pos) = Ok v.
Proof.
  intros H. pose proof (Get_in_bounds _ _ _ _ H).
  rewrite Get_app_r by lia. apply Get_app_l, H.
Qed.

(** A read at an offset counted from the end of the buffer does not see
    bytes added in front. *)
Lemma Get_from_end p (pre buf : bytes) (o : Z) :
  o <= len buf ->
  encode.Get p (pre ++ buf) (len (pre ++ buf) - o) = encode.Get p buf (len buf - o).
Proof.
  intros. rewrite length_app.
  replace (Z.of_nat (length pre + length buf) - o) with (len pre + (len buf - o)) by lia.
  apply Get_app_r. lia.
Qed.
