(* ===== verification/TableView.v ===== *)
(** * Table View: a read-only cursor over a finished buffer (spec 4.3, 4.4)

    [Table.t] is a buffer and the position of a table in it.  A table starts
    with a signed 32-bit offset back to its vtable; the vtable starts with
    its own size in bytes and the size of the table, followed by one 16-bit
    entry per field: the distance of the field from the start of the table,
    or 0 for a field that is absent.  [Table.Offset] looks a field up by its
    byte offset in the vtable, [Table.Indirect] follows a stored relative
    offset, [Table.Vector] and [Table.VectorLen] give the position of the
    first element and the element count of the vector stored in a field.
    [util.BufferHasIdentifier] compares the four bytes after the root offset
    with an identifier.  [UOffsetTFlags.py_type] is the conversion the
    generated code applies to offsets.

    The lemmas characterise each reader by the reads it performs, show that
    readers fail with [OutOfRange] only, and that a reader's result is
    unchanged, up to the shift of positions, when bytes are added in front of
    the buffer. *)

From Stdlib Require Import ZArith List Lia Bool.
From coqutil Require Import Byte Word.LittleEndianList.
From S2P Require Import Prelude ByteBuffer.
Import ListNotations.
#[local] Open Scope Z_scope.
#[local] Open Scope fb_scope.

Module UOffsetTFlags.

(** Python's [int]: the identity on the integers it is applied to. *)
Definition py_type (x : Z) : Z := x.

Definition bytewidth : Z := 4.

End UOffsetTFlags.

Module Table.

Record t : Type := mk { Bytes : bytes; Pos : Z }.

(** [Offset self vtableOffset]: the entry of the vtable at byte offset
    [vtableOffset], or 0 when the vtable is too short to hold it. *)
Definition Offset (self : t) (vtableOffset : Z) : result Z :=
  soffset <- encode.Get packer.soffset (Bytes self) (Pos self) ;;
  let vtable := Pos self - soffset in
  vtableEnd <- encode.Get packer.voffset (Bytes self) vtable ;;
  if vtableOffset <? vtableEnd
  then encode.Get packer.voffset (Bytes self) (vtable + vtableOffset)
  else Ok 0.

(** [Indirect self off]: the position the relative offset stored at [off]
    points to. *)
Definition Indirect (self : t) (off : Z) : result Z :=
  x <- encode.Get packer.uoffset (Bytes self) off ;;
  Ok (off + x).

(** [Vector self off]: the position of the first element of the vector
    whose offset is stored in the field at [off] of the table. *)
Definition Vector (self : t) (off : Z) : result Z :=
  let off := off + Pos self in
  x <- encode.Get packer.uoffset (Bytes self) off ;;
  Ok (off + x + UOffsetTFlags.bytewidth).

(** [VectorLen self off]: the element count of that vector. *)
Definition VectorLen (self : t) (off : Z) : result Z :=
  let off := off + Pos self in
  x <- encode.Get packer.uoffset (Bytes self) off ;;
  encode.Get packer.uoffset (Bytes self) (off + x).

End Table.

Module util.

(** The four bytes after the root offset (and after the size prefix, when
    there is one) are [file_identifier]. *)
Definition BufferHasIdentifier (buf : bytes) (offset : Z) (file_identifier : bytes)
    (size_prefixed : bool) : bool :=
  let start := offset + 4 + (if size_prefixed then 4 else 0) in
  (0 <=? start) && bytes_eqb (slice buf start 4) file_identifier.

End util.

(** The view of the same table once its buffer is embedded between [pre]
    and [post]. *)
Definition shift (pre post : bytes) (self : Table.t) : Table.t :=
  Table.mk (pre ++ Table.Bytes self ++ post) (len pre + Table.Pos self).

(** ** The reads behind each reader *)

Section Readers.
Implicit Types (self : Table.t) (buf pre : bytes) (pos off v : Z).

Lemma Offset_Ok_iff self vtableOffset v :
  Table.Offset self vtableOffset = Ok v <->
  exists soffset vtableEnd,
    encode.Get packer.soffset (Table.Bytes self) (Table.Pos self) = Ok soffset /\
    encode.Get packer.voffset (Table.Bytes self) (Table.Pos self - soffset) = Ok vtableEnd /\
    (if vtableOffset <? vtableEnd
     then encode.Get packer.voffset (Table.Bytes self)
            (Table.Pos self - soffset + vtableOffset) = Ok v
     else v = 0).
Proof.
  unfold Table.Offset. rewrite bind_Ok_iff. setoid_rewrite bind_Ok_iff.
  split.
  - intros (so & Hso & ve & Hve & H). exists so, ve.
    destruct (vtableOffset <? ve); [ auto | injection H as <-; auto ].
  - intros (so & ve & Hso & Hve & H). exists so. split; [ exact Hso | ].
    exists ve. split; [ exact Hve | ].
    destruct (vtableOffset <? ve); [ exact H | subst v; reflexivity ].
Qed.

Lemma Indirect_Ok_iff self off v :
  Table.Indirect self off = Ok v <->
  exists x, encode.Get packer.uoffset (Table.Bytes self) off = Ok x /\ v = off + x.
Proof.
  unfold Table.Indirect. rewrite bind_Ok_iff.
  split; intros (x & Hx & H); exists x; split; congruence.
Qed.

Lemma Vector_Ok_iff self off v :
  Table.Vector self off = Ok v <->
  exists x, encode.Get packer.uoffset (Table.Bytes self) (off + Table.Pos self) = Ok x /\
            v = off + Table.Pos self + x + 4.
Proof.
  unfold Table.Vector, UOffsetTFlags.bytewidth. rewrite bind_Ok_iff.
  split; intros (x & Hx & H); exists x; split; congruence.
Qed.

Lemma VectorLen_Ok_iff self off v :
  Table.VectorLen self off = Ok v <->
  exists x, encode.Get packer.uoffset (Table.Bytes self) (off + Table.Pos self) = Ok x /\
            encode.Get packer.uoffset (Table.Bytes self) (off + Table.Pos self + x) = Ok v.
Proof. unfold Table.VectorLen. apply bind_Ok_iff. Qed.

(** ** Readers fail with [OutOfRange] only *)

Lemma Offset_Err self vtableOffset e :
  Table.Offset self vtableOffset = Err e -> e = OutOfRange.
Proof.
  unfold Table.Offset. intros H.
  repeat (apply bind_Err_iff in H; destruct H as [H | (? & _ & H)];
          [ apply Get_Err_iff in H; tauto | ]).
  destruct (_ <? _); [ apply Get_Err_iff in H; tauto | discriminate ].
Qed.

Lemma Indirect_Err self off e : Table.Indirect self off = Err e -> e = OutOfRange.
Proof.
  unfold Table.Indirect. intros H.
  apply bind_Err_iff in H. destruct H as [H | (? & _ & H)];
    [ apply Get_Err_iff in H; tauto | discriminate ].
Qed.

Lemma Vector_Err self off e : Table.Vector self off = Err e -> e = OutOfRange.
Proof.
  unfold Table.Vector. intros H.
  apply bind_Err_iff in H. destruct H as [H | (? & _ & H)];
    [ apply Get_Err_iff in H; tauto | discriminate ].
Qed.

Lemma VectorLen_Err self off e : Table.VectorLen self off = Err e -> e = OutOfRange.
Proof.
  unfold Table.VectorLen. intros H.
  apply bind_Err_iff in H. destruct H as [H | (? & _ & H)];
    apply Get_Err_iff in H; tauto.
Qed.

(** ** The identifier test *)

Lemma BufferHasIdentifier_true_iff buf (offset : Z) (ident : bytes) size_prefixed :
  util.BufferHasIdentifier buf offset ident size_prefixed = true <->
  0 <= offset + 4 + (if size_prefixed then 4 else 0) /\
  slice buf (offset + 4 + (if size_prefixed then 4 else 0)) 4 = ident.
Proof.
  unfold util.BufferHasIdentifier. cbv zeta.
  rewrite andb_true_iff, Z.leb_le, bytes_eqb_eq. reflexivity.
Qed.

(** A buffer too short to hold the identifier does not have it. *)
Lemma BufferHasIdentifier_short buf (offset : Z) (ident : bytes) (size_prefixed : bool) :
  length ident = 4%nat ->
  len buf < offset + 8 + (if size_prefixed then 4 else 0) ->
  util.BufferHasIdentifier buf offset ident size_prefixed = false.
Proof.
  intros Hl Hs. apply not_true_is_false. rewrite BufferHasIdentifier_true_iff.
  intros [H0 Heq]. apply (f_equal (@length _)) in Heq.
  unfold slice in Heq. len_simpl. lia.
Qed.

End Readers.

(** ** Framing: a view of an embedded buffer *)

Section Framing.
Variables pre post : bytes.
#[local] Abbreviation shift := (shift pre post).

Lemma Offset_frame self vtableOffset v :
  Table.Offset self vtableOffset = Ok v ->
  Table.Offset (shift self) vtableOffset = Ok v.
Proof.
  rewrite !Offset_Ok_iff. intros (so & ve & Hso & Hve & H).
  exists so, ve. cbn.
  replace (len pre + Table.Pos self - so) with (len pre + (Table.Pos self - so)) by lia.
  repeat split; try (apply Get_frame; assumption).
  destruct (vtableOffset <? ve); [ | exact H ].
  rewrite <- Z.add_assoc. apply Get_frame, H.
Qed.

Lemma Indirect_frame self off v :
  Table.Indirect self off = Ok v ->
  Table.Indirect (shift self) (len pre + off) = Ok (len pre + v).
Proof.
  rewrite !Indirect_Ok_iff. intros (x & Hx & ->).
  exists x. split; [ apply Get_frame, Hx | lia ].
Qed.

Lemma Vector_frame self off v :
  Table.Vector self off = Ok v ->
  Table.Vector (shift self) off = Ok (len pre + v).
Proof.
  rewrite !Vector_Ok_iff. intros (x & Hx & ->).
  exists x. cbn. split; [ | lia ].
  replace (off + (len pre + Table.Pos self)) with (len pre + (off + Table.Pos self)) by lia.
  apply Get_frame, Hx.
Qed.

Lemma VectorLen_frame self off v :
  Table.VectorLen self off = Ok v ->
  Table.VectorLen (shift self) off = Ok v.
Proof.
  rewrite !VectorLen_Ok_iff. intros (x & Hx & Hv).
  exists x. cbn.
  replace (off + (len pre + Table.Pos self)) with (len pre + (off + Table.Pos self)) by lia.
  split; [ apply Get_frame, Hx | ].
  rewrite <- Z.add_assoc. apply Get_frame, Hv.
Qed.

End Framing.
