(* ===== verification/BuilderCore.v ===== *)
(** * Builder: writing a buffer back to front (spec 4.2)

    [Builder.t] is the state of a builder: the bytes written so far, the
    vtable of the object under construction, the offset at which that object
    ends, the offsets of the vtables already written, the nesting flag, the
    element count of the vector under construction, the largest alignment
    used, and the finished flag.  The buffer grows towards lower addresses:
    an operation puts its bytes in front of [Bytes], and an offset counts
    bytes from the end of the buffer, so that it stays valid while the
    buffer grows.

    The operations are functions of type [state Builder.t A].
    [StartObject], [PrependUOffsetTRelativeSlot], [EndObject], [StartVector],
    [EndVector] and [Finish] are the operations of the specification;
    [Place], [Pad], [Prep], [PrependUOffsetTRelative],
    [PrependSOffsetTRelative], [Slot] and [WriteVtable] are the steps they
    are made of.  The nesting discipline is checked where the specification
    says so: a start inside an unfinished object or vector, and an end with
    nothing started, are [PreconditionViolation].

    This file holds the definitions.  [BuilderLemmas] gives the bytes every
    operation writes ([Bytes] after the operation is a known prefix in front
    of [Bytes] before it) and the guards; [BuilderSpec] the postconditions
    and the invariant. *)

From Stdlib Require Import ZArith List Lia Bool.
From coqutil Require Import Byte Word.LittleEndianList.
From S2P Require Import Prelude ByteBuffer.
Import ListNotations.
#[local] Open Scope Z_scope.
#[local] Open Scope fb_scope.

Module Builder.

Record t : Type := mk {
  Bytes : bytes;
  current_vtable : option (list Z);
  objectEnd : Z;
  vtables : list Z;
  nested : bool;
  vectorNumElems : option Z;
  minalign : Z;
  finished : bool
}.

(** A new builder: nothing written, nothing started. *)
Definition init : t :=
  {| Bytes := []; current_vtable := None; objectEnd := 0; vtables := [];
     nested := false; vectorNumElems := None; minalign := 1; finished := false |}.

Definition with_Bytes (x : bytes) (b : t) : t :=
  mk x (current_vtable b) (objectEnd b) (vtables b) (nested b)
     (vectorNumElems b) (minalign b) (finished b).

Definition with_current_vtable (x : option (list Z)) (b : t) : t :=
  mk (Bytes b) x (objectEnd b) (vtables b) (nested b)
     (vectorNumElems b) (minalign b) (finished b).

Definition with_objectEnd (x : Z) (b : t) : t :=
  mk (Bytes b) (current_vtable b) x (vtables b) (nested b)
     (vectorNumElems b) (minalign b) (finished b).

Definition with_vtables (x : list Z) (b : t) : t :=
  mk (Bytes b) (current_vtable b) (objectEnd b) x (nested b)
     (vectorNumElems b) (minalign b) (finished b).

Definition with_nested (x : bool) (b : t) : t :=
  mk (Bytes b) (current_vtable b) (objectEnd b) (vtables b) x
     (vectorNumElems b) (minalign b) (finished b).

Definition with_vectorNumElems (x : option Z) (b : t) : t :=
  mk (Bytes b) (current_vtable b) (objectEnd b) (vtables b) (nested b)
     x (minalign b) (finished b).

Definition with_minalign (x : Z) (b : t) : t :=
  mk (Bytes b) (current_vtable b) (objectEnd b) (vtables b) (nested b)
     (vectorNumElems b) x (finished b).

Definition with_finished (x : bool) (b : t) : t :=
  mk (Bytes b) (current_vtable b) (objectEnd b) (vtables b) (nested b)
     (vectorNumElems b) (minalign b) x.

Definition modify (f : t -> t) : state t unit := fun b => Ok (tt, f b).

(** The number of bytes written: the offset of the first of them, counted
    from the end of the buffer. *)
Definition Offset (b : t) : Z := len (Bytes b).

(** The position of the first written byte in the buffer [Output] returns. *)
Definition Head (b : t) : Z := 0.

Definition assertNested : state t unit :=
  b <~ sget ;; assert (nested b).

Definition assertNotNested : state t unit :=
  b <~ sget ;; assert (negb (nested b)).

(** [PlaceBytes bs] puts [bs] in front of what is written. *)
Definition PlaceBytes (bs : bytes) : state t unit :=
  modify (fun b => with_Bytes (bs ++ Bytes b) b).

(** [Place x flags] writes the number [x] of kind [flags]. *)
Definition Place (x : Z) (flags : packer.t) : state t unit :=
  assert (packer.fits flags x) ;;;
  PlaceBytes (packer.pack flags x).

Definition Pad (n : Z) : state t unit := PlaceBytes (zeros n).

(** [Prep size additionalBytes] pads so that, once [additionalBytes] more
    bytes are written, the offset is a multiple of [size]. *)
Definition Prep (size additionalBytes : Z) : state t unit :=
  b <~ sget ;;
  modify (with_minalign (Z.max (minalign b) size)) ;;;
  Pad (align_pad (Offset b) size additionalBytes).

(** [PrependUOffsetTRelative off] writes, aligned, the distance from the
    place it is written at to the object at offset [off]. *)
Definition PrependUOffsetTRelative (off : Z) : state t unit :=
  Prep 4 0 ;;;
  b <~ sget ;;
  assert (off <=? Offset b) ;;;
  Place (Offset b - off + 4) packer.uoffset.

Definition PrependSOffsetTRelative (off : Z) : state t unit :=
  Prep 4 0 ;;;
  b <~ sget ;;
  assert (off <=? Offset b) ;;;
  Place (Offset b - off + 4) packer.soffset.

(** [StartObject numfields] begins a table with [numfields] fields, all
    absent. *)
Definition StartObject (numfields : Z) : state t unit :=
  assertNotNested ;;;
  b <~ sget ;;
  sput (with_nested true
         (with_objectEnd (Offset b)
           (with_current_vtable (Some (repeat 0 (Z.to_nat numfields))) b))).

(** [Slot slotnum] records that field [slotnum] was just written. *)
Definition Slot (slotnum : Z) : state t unit :=
  assertNested ;;;
  b <~ sget ;;
  match current_vtable b with
  | Some vt =>
      assert ((0 <=? slotnum) && (slotnum <? len vt)) ;;;
      sput (with_current_vtable
              (Some (List.upd vt (Z.to_nat slotnum) (Offset b))) b)
  | None => sfail PreconditionViolation
  end.

(** [PrependUOffsetTRelativeSlot o x d] writes the offset [x] as field [o],
    unless it is the default [d]. *)
Definition PrependUOffsetTRelativeSlot (o x d : Z) : state t unit :=
  if negb (x =? d)
  then PrependUOffsetTRelative x ;;; Slot o
  else sret tt.

(** The numbers of a vtable: its size in bytes, the size of the table, and
    for each field its distance from the start of the table (0: absent). *)
Definition vtable_fields (vt : list Z) (objectOffset objEnd : Z) : list Z :=
  2 * (len vt + 2) :: (objectOffset - objEnd)
    :: map (fun elem => if elem =? 0 then 0 else objectOffset - elem) vt.

Definition vtable_image (fields : list Z) : bytes :=
  flat_map (packer.pack packer.voffset) fields.

(** The bytes of the vtable written at offset [o]. *)
Definition vtable_at (buf : bytes) (o : Z) : bytes :=
  let start := len buf - o in
  match encode.Get packer.voffset buf start with
  | Ok n => slice buf start (Z.to_nat n)
  | Err _ => []
  end.

(** The most recent vtable already written whose bytes are [image]. *)
Definition find_vtable (buf : bytes) (image : bytes) (vts : list Z) : option Z :=
  find (fun o => bytes_eqb (vtable_at buf o) image) vts.

(** [patch_soffset objectOffset v] stores [v] in the first four bytes of the
    table at offset [objectOffset]. *)
Definition patch_soffset (objectOffset v : Z) : state t unit :=
  fun b =>
    buf <- encode.Write packer.soffset (Bytes b) (len (Bytes b) - objectOffset) v ;;
    Ok (tt, with_Bytes buf b).

(** [WriteVtable] closes the table: it reserves the table's offset to its
    vtable, reuses a written vtable with the same bytes or writes a new one,
    and stores the distance to it. *)
Definition WriteVtable : state t Z :=
  PrependSOffsetTRelative 0 ;;;
  b <~ sget ;;
  let objectOffset := Offset b in
  match current_vtable b with
  | None => sfail PreconditionViolation
  | Some vt =>
      let fields := vtable_fields vt objectOffset (objectEnd b) in
      assert (forallb (packer.fits packer.voffset) fields) ;;;
      match find_vtable (Bytes b) (vtable_image fields) (vtables b) with
      | Some vt2Offset => patch_soffset objectOffset (vt2Offset - objectOffset)
      | None =>
          PlaceBytes (vtable_image fields) ;;;
          b' <~ sget ;;
          patch_soffset objectOffset (Offset b' - objectOffset) ;;;
          modify (with_vtables (Offset b' :: vtables b'))
      end ;;;
      modify (with_current_vtable None) ;;;
      sret objectOffset
  end.

(** [EndObject] finishes the table started by [StartObject] and returns its
    offset. *)
Definition EndObject : state t Z :=
  assertNested ;;;
  modify (with_nested false) ;;;
  WriteVtable.

(** [StartVector elemSize numElems alignment] reserves, aligned, the room of
    a vector; the elements are then written last to first. *)
Definition StartVector (elemSize numElems alignment : Z) : state t Z :=
  assertNotNested ;;;
  modify (with_nested true) ;;;
  modify (with_vectorNumElems (Some numElems)) ;;;
  Prep 4 (elemSize * numElems) ;;;
  Prep alignment (elemSize * numElems) ;;;
  b <~ sget ;;
  sret (Offset b).

(** [EndVector] writes the element count in front of the elements and
    returns the offset of the vector. *)
Definition EndVector : state t Z :=
  assertNested ;;;
  modify (with_nested false) ;;;
  b <~ sget ;;
  match vectorNumElems b with
  | Some n => Place n packer.uoffset
  | None => sfail PreconditionViolation
  end ;;;
  modify (with_vectorNumElems None) ;;;
  b <~ sget ;;
  sret (Offset b).

(** [Finish rootTable file_identifier] writes the identifier, when there is
    one, and in front of it the offset of the root table, so that the whole
    buffer is aligned; it returns the position reads start at. *)
Definition Finish (rootTable : Z) (file_identifier : option bytes) : state t Z :=
  b <~ sget ;;
  Prep (minalign b) (4 + match file_identifier with Some _ => 4 | None => 0 end) ;;;
  match file_identifier with
  | Some ident =>
      assert (length ident =? 4)%nat ;;;
      Prep 4 4 ;;;
      PlaceBytes ident
  | None => sret tt
  end ;;;
  PrependUOffsetTRelative rootTable ;;;
  modify (with_finished true) ;;;
  b <~ sget ;;
  sret (Head b).

(** [Output] is the finished buffer. *)
Definition Output : state t bytes :=
  b <~ sget ;;
  assert (finished b) ;;;
  sret (Bytes b).

End Builder.
