(* ===== verification/Samples.v ===== *)
(** * Samples: concrete finished buffers

    Four buffers, byte for byte, used to instantiate the theorems of the
    development at concrete inputs.  [RoundTrip] shows that the first three
    are what the builder functions of [OpInfo.py] write.

    - [sample_three]: an [OpInfo] whose vector holds three entries (three
      tables without fields, two of which share the vtable of the first).
    - [sample_empty]: an [OpInfo] whose vector is present and empty.
    - [sample_absent]: an [OpInfo] whose vector field was never written.
    - [sample_short]: a table whose vtable has no room for any field, as an
      older schema version would write it. *)

From Stdlib Require Import ZArith List.
From coqutil Require Import Byte.
From S2P Require Import Prelude.
Import ListNotations.
#[local] Open Scope Z_scope.

Definition of_ints (l : list Z) : bytes := map byte.of_Z l.

Definition sample_three : bytes :=
  of_ints [16; 0; 0; 0;  79; 82; 84; 77;  0; 0;  6; 0; 8; 0; 4; 0;
           6; 0; 0; 0;  4; 0; 0; 0;  3; 0; 0; 0;  24; 0; 0; 0;  12; 0; 0; 0;
           4; 0; 0; 0;  248; 255; 255; 255;  252; 255; 255; 255;
           4; 0; 4; 0;  4; 0; 0; 0].

Definition sample_empty : bytes :=
  of_ints [16; 0; 0; 0;  79; 82; 84; 77;  0; 0;  6; 0; 8; 0; 4; 0;
           6; 0; 0; 0;  4; 0; 0; 0;  0; 0; 0; 0].

Definition sample_absent : bytes :=
  of_ints [16; 0; 0; 0;  79; 82; 84; 77;  0; 0;  6; 0; 4; 0; 0; 0;
           6; 0; 0; 0].

Definition sample_short : bytes :=
  of_ints [8; 0; 0; 0;  4; 0; 4; 0;  4; 0; 0; 0].
