(* ===== verification/OpInfo.v ===== *)
(** * OpInfo: the class [OpInfo] of the generated module, and its behaviour

    The definitions of this file are the class [OpInfo] of
    [src/onnxruntime/core/flatbuffers/ort_flatbuffers_py/fbs/OpInfo.py] and
    its methods, in the order of the source and under its names.  (The
    module-level functions of the write side are in [Writers].)

    - [OpInfo] is the class: its one slot [_tab] is unset in a new object
      ([OpInfo_new], Python's [OpInfo()]) and holds the table view once
      [Init] has run.  An accessor called on an object that was never
      initialised raises in Python; here it returns
      [PreconditionViolation].
    - [GetRootAsOpInfo], [OpInfoBufferHasIdentifier], [Init],
      [OpKernelTypeStrArgs], [OpKernelTypeStrArgsLength] and
      [OpKernelTypeStrArgsIsNone] are the methods.  The argument
      [size_prefixed] of [OpInfoBufferHasIdentifier] has the default [False]
      in the source and is explicit here.
    - [OpIdKernelTypeStrArgsEntry] is the class of the vector's elements.  It
      is generated into a file of its own; this file constructs an object of
      it and initialises it at a position, which is what the record and
      [Entry_Init] model.

    The theorems give each accessor its value on every branch (field
    present, field absent, vtable too short for the field, object never
    initialised, read outside the buffer), the agreement of the three field
    accessors on presence, and where the root accessor fails and where the
    table it returns lies. *)

From Stdlib Require Import ZArith List Lia Bool.
From coqutil Require Import Byte Word.LittleEndianList.
From S2P Require Import Prelude ByteBuffer TableView Samples.
Import ListNotations.
#[local] Open Scope Z_scope.
#[local] Open Scope fb_scope.

(** ** The read side: class [OpInfo] *)

Record OpInfo : Type := mkOpInfo { _tab : option Table.t }.

(** [OpInfo()]: an object whose slot is not set yet. *)
Definition OpInfo_new : OpInfo := {| _tab := None |}.

(** The element class, as this file uses it. *)
Record OpIdKernelTypeStrArgsEntry : Type := mkEntry { entry_tab : option Table.t }.

Definition Entry_new : OpIdKernelTypeStrArgsEntry := {| entry_tab := None |}.

Definition Entry_Init (self : OpIdKernelTypeStrArgsEntry) (buf : bytes) (pos : Z)
    : OpIdKernelTypeStrArgsEntry :=
  {| entry_tab := Some (Table.mk buf pos) |}.

(** The file identifier ["ORTM"]. *)
Definition OpInfo_identifier : bytes := [Byte.x4f; Byte.x52; Byte.x54; Byte.x4d].

(** The byte offset, in the vtable, of the entry of field 0. *)
Definition VT_OP_KERNEL_TYPE_STR_ARGS : Z := 4.

Definition Init (self : OpInfo) (buf : bytes) (pos : Z) : OpInfo :=
  {| _tab := Some (Table.mk buf pos) |}.

Definition GetRootAsOpInfo (buf : bytes) (offset : Z) : result OpInfo :=
  n <- encode.Get packer.uoffset buf offset ;;
  let x := OpInfo_new in
  let x := Init x buf (n + offset) in
  Ok x.

Definition OpInfoBufferHasIdentifier (buf : bytes) (offset : Z) (size_prefixed : bool)
    : bool :=
  util.BufferHasIdentifier buf offset OpInfo_identifier size_prefixed.

(** [self._tab]: the table view of an initialised object. *)
Definition tab_of (self : OpInfo) : result Table.t :=
  match _tab self with
  | Some tab => Ok tab
  | None => Err PreconditionViolation
  end.

(** The first statement of the three accessors: the field's entry in the
    vtable. *)
Definition field_offset (self : OpInfo) : result Z :=
  tab <- tab_of self ;;
  o <- Table.Offset tab VT_OP_KERNEL_TYPE_STR_ARGS ;;
  Ok (UOffsetTFlags.py_type o).

Definition OpKernelTypeStrArgs (self : OpInfo) (j : Z)
    : result (option OpIdKernelTypeStrArgsEntry) :=
  o <- field_offset self ;;
  if negb (o =? 0) then
    tab <- tab_of self ;;
    x <- Table.Vector tab o ;;
    let x := x + UOffsetTFlags.py_type j * 4 in
    x <- Table.Indirect tab x ;;
    let obj := Entry_new in
    let obj := Entry_Init obj (Table.Bytes tab) x in
    Ok (Some obj)
  else Ok None.

Definition OpKernelTypeStrArgsLength (self : OpInfo) : result Z :=
  o <- field_offset self ;;
  if negb (o =? 0) then
    tab <- tab_of self ;;
    Table.VectorLen tab o
  else Ok 0.

Definition OpKernelTypeStrArgsIsNone (self : OpInfo) : result bool :=
  o <- field_offset self ;;
  Ok (o =? 0).

(** ** The root accessor *)

(** Inversion of a successful call. *)
Lemma GetRootAsOpInfo_Ok_iff (buf : bytes) (offset : Z) (x : OpInfo) :
  GetRootAsOpInfo buf offset = Ok x <->
  exists n, encode.Get packer.uoffset buf offset = Ok n /\
            x = mkOpInfo (Some (Table.mk buf (n + offset))).
Proof.
  unfold GetRootAsOpInfo, Init. rewrite bind_Ok_iff.
  split; intros (n & Hn & H); exists n; split; congruence.
Qed.

(** C30: [GetRootAsOpInfo] fails exactly when [offset] is negative or fewer than
    four bytes follow it, and the error is [OutOfRange]. *)
Theorem GetRootAsOpInfo_Err_iff (buf : bytes) (offset : Z) (e : error) :
  GetRootAsOpInfo buf offset = Err e <->
  e = OutOfRange /\ (offset < 0 \/ len buf < offset + 4).
Proof.
  unfold GetRootAsOpInfo. rewrite bind_Err_iff, Get_Err_iff.
  rewrite <- not_true_iff_false, in_bounds_spec. cbn.
  split.
  - intros [[-> H] | (n & _ & [=])]. split; [ reflexivity | lia ].
  - intros [-> H]. left. split; [ reflexivity | lia ].
Qed.

(** C34: The root table lies at or after [offset] and less than 2^32 bytes after
    it, and the object shares the buffer it was given. *)
Theorem GetRootAsOpInfo_root_range (buf : bytes) (offset : Z) (x : OpInfo) :
  GetRootAsOpInfo buf offset = Ok x ->
  exists tab, _tab x = Some tab /\ Table.Bytes tab = buf /\
              offset <= Table.Pos tab < offset + 2 ^ 32.
Proof.
  intros H. apply GetRootAsOpInfo_Ok_iff in H. destruct H as (n & Hn & ->).
  apply Get_fits, fits_uoffset in Hn.
  eexists. repeat split; cbn [Table.Pos]; lia.
Qed.

(** ** The field accessors *)

Lemma tab_of_Ok_iff self tab : tab_of self = Ok tab <-> _tab self = Some tab.
Proof. unfold tab_of. destruct (_tab self); split; congruence. Qed.

Lemma field_offset_Ok_iff self o :
  field_offset self = Ok o <->
  exists tab, _tab self = Some tab /\ Table.Offset tab 4 = Ok o.
Proof.
  unfold field_offset, tab_of, UOffsetTFlags.py_type, VT_OP_KERNEL_TYPE_STR_ARGS.
  destruct (_tab self) as [tab | ]; cbn [bind].
  - destruct (Table.Offset tab 4) as [o' | e] eqn:E; cbn [bind]; split.
    + intros [= <-]. exists tab. split; [ reflexivity | exact E ].
    + intros (tab' & [= <-] & H). congruence.
    + discriminate.
    + intros (tab' & [= <-] & H). congruence.
  - split; [ discriminate | intros (tab & [=] & _) ].
Qed.

Lemma field_offset_Err self e :
  field_offset self = Err e ->
  (_tab self = None /\ e = PreconditionViolation) \/
  (_tab self <> None /\ e = OutOfRange).
Proof.
  unfold field_offset, tab_of. destruct (_tab self) as [tab | ]; cbn.
  - intros H. right. split; [ discriminate | ].
    apply bind_Err_iff in H. destruct H as [H | (? & _ & [=])].
    eapply Offset_Err, H.
  - intros [= <-]. auto.
Qed.

(** C22: When [OpKernelTypeStrArgsIsNone] says the field is absent, the length is
    0 and every index yields [None]: the three accessors agree. *)
Theorem IsNone_true_absent (self : OpInfo) :
  OpKernelTypeStrArgsIsNone self = Ok true ->
  OpKernelTypeStrArgsLength self = Ok 0 /\
  forall j, OpKernelTypeStrArgs self j = Ok None.
Proof.
  unfold OpKernelTypeStrArgsIsNone, OpKernelTypeStrArgsLength, OpKernelTypeStrArgs.
  intros H. apply bind_Ok_iff in H. destruct H as (o & -> & [= Ho]).
  cbn. rewrite Ho. auto.
Qed.

(** C21: When [OpKernelTypeStrArgsIsNone] says the field is present, the vtable
    entry [o] of the field is not 0, the length is the element count of the
    vector at [o], and index [j] yields the entry whose position is stored,
    relative to itself, in slot [j] of the vector. *)
Theorem IsNone_false_present (self : OpInfo) :
  OpKernelTypeStrArgsIsNone self = Ok false ->
  exists tab o,
    _tab self = Some tab /\ Table.Offset tab 4 = Ok o /\ o <> 0 /\
    OpKernelTypeStrArgsLength self = Table.VectorLen tab o /\
    forall j, OpKernelTypeStrArgs self j =
              (x <- Table.Vector tab o ;;
               p <- Table.Indirect tab (x + j * 4) ;;
               Ok (Some (mkEntry (Some (Table.mk (Table.Bytes tab) p))))).
Proof.
  unfold OpKernelTypeStrArgsIsNone, OpKernelTypeStrArgsLength, OpKernelTypeStrArgs.
  intros H. apply bind_Ok_iff in H. destruct H as (o & Hfo & [= Ho]).
  rewrite Hfo. cbn. rewrite Ho. cbn.
  apply field_offset_Ok_iff in Hfo. destruct Hfo as (tab & Ht & Hoff).
  exists tab, o. unfold tab_of. rewrite Ht. cbn.
  repeat split; auto. apply Z.eqb_neq, Ho.
Qed.

(** On an object that was never initialised the three accessors fail with
    [PreconditionViolation]. *)
Theorem accessors_uninitialised (j : Z) :
  OpKernelTypeStrArgs OpInfo_new j = Err PreconditionViolation /\
  OpKernelTypeStrArgsLength OpInfo_new = Err PreconditionViolation /\
  OpKernelTypeStrArgsIsNone OpInfo_new = Err PreconditionViolation.
Proof. repeat split. Qed.

Lemma accessor_Err_cases self e :
  (exists j, OpKernelTypeStrArgs self j = Err e) \/
  OpKernelTypeStrArgsLength self = Err e \/
  OpKernelTypeStrArgsIsNone self = Err e ->
  (_tab self = None /\ e = PreconditionViolation) \/
  (_tab self <> None /\ e = OutOfRange).
Proof.
  unfold OpKernelTypeStrArgs, OpKernelTypeStrArgsLength, OpKernelTypeStrArgsIsNone.
  intros H.
  destruct (field_offset self) as [o | e'] eqn:Hfo; cbn [bind] in H.
  - apply field_offset_Ok_iff in Hfo. destruct Hfo as (tab & Ht & _).
    right. split; [ congruence | ].
    unfold tab_of in H. rewrite Ht in H. cbn [bind] in H.
    destruct (negb (o =? 0)); destruct H as [[j H] | [H | H]]; try discriminate.
    + apply bind_Err_iff in H. destruct H as [H | (x & _ & H)];
        [ eapply Vector_Err, H | ].
      apply bind_Err_iff in H. destruct H as [H | (p & _ & [=])].
      eapply Indirect_Err, H.
    + eapply VectorLen_Err, H.
  - apply field_offset_Err.
    destruct H as [[j H] | [H | H]]; congruence.
Qed.

(** C31: Forward compatibility: a vtable with no room for the field reads as
    "absent", not as an error. *)
Theorem IsNone_short_vtable (buf : bytes) (pos soffset vtableEnd : Z) :
  encode.Get packer.soffset buf pos = Ok soffset ->
  encode.Get packer.voffset buf (pos - soffset) = Ok vtableEnd ->
  vtableEnd <= 4 ->
  OpKernelTypeStrArgsIsNone (Init OpInfo_new buf pos) = Ok true.
Proof.
  intros Hso Hve Hle.
  assert (Hfo : field_offset (Init OpInfo_new buf pos) = Ok 0).
  { apply field_offset_Ok_iff. eexists. split; [ reflexivity | ].
    apply Offset_Ok_iff. exists soffset, vtableEnd. cbn [Table.Bytes Table.Pos].
    repeat split; try assumption.
    destruct (Z.ltb_spec 4 vtableEnd); [ lia | reflexivity ]. }
  unfold OpKernelTypeStrArgsIsNone. rewrite Hfo. reflexivity.
Qed.

(** ** The identifier test *)

(** C33: On a buffer too short to hold an identifier the test is false; it
    never fails. *)
Theorem OpInfoBufferHasIdentifier_short (buf : bytes) (offset : Z) (size_prefixed : bool) :
  len buf < offset + 8 + (if size_prefixed then 4 else 0) ->
  OpInfoBufferHasIdentifier buf offset size_prefixed = false.
Proof. apply BufferHasIdentifier_short. reflexivity. Qed.

(** A size prefix moves the identifier by four bytes. *)
Theorem OpInfoBufferHasIdentifier_size_prefixed (buf : bytes) (offset : Z) :
  OpInfoBufferHasIdentifier buf offset true
  = OpInfoBufferHasIdentifier buf (offset + 4) false.
Proof.
  unfold OpInfoBufferHasIdentifier, util.BufferHasIdentifier. cbv zeta.
  rewrite Z.add_0_r. reflexivity.
Qed.

(** ** Instances on the sample buffers *)

Lemma GetRootAsOpInfo_root_range_witness :
  GetRootAsOpInfo sample_three 0 = Ok (Init OpInfo_new sample_three 16) /\
  exists tab, _tab (Init OpInfo_new sample_three 16) = Some tab /\
              Table.Bytes tab = sample_three /\ 0 <= Table.Pos tab < 0 + 2 ^ 32.
Proof.
  refine (let H := _ in conj H (GetRootAsOpInfo_root_range sample_three 0 _ H)).
  vm_compute. reflexivity.
Defined.

Lemma IsNone_true_absent_witness :
  OpKernelTypeStrArgsIsNone (Init OpInfo_new sample_absent 16) = Ok true /\
  OpKernelTypeStrArgsLength (Init OpInfo_new sample_absent 16) = Ok 0 /\
  forall j, OpKernelTypeStrArgs (Init OpInfo_new sample_absent 16) j = Ok None.
Proof.
  refine (let H := _ in conj H (IsNone_true_absent (Init OpInfo_new sample_absent 16) H)).
  vm_compute. reflexivity.
Defined.

Lemma IsNone_false_present_witness :
  OpKernelTypeStrArgsIsNone (Init OpInfo_new sample_three 16) = Ok false /\
  exists tab o,
    _tab (Init OpInfo_new sample_three 16) = Some tab /\
    Table.Offset tab 4 = Ok o /\ o <> 0 /\
    OpKernelTypeStrArgsLength (Init OpInfo_new sample_three 16) = Table.VectorLen tab o /\
    forall j, OpKernelTypeStrArgs (Init OpInfo_new sample_three 16) j =
              (x <- Table.Vector tab o ;;
               p <- Table.Indirect tab (x + j * 4) ;;
               Ok (Some (mkEntry (Some (Table.mk (Table.Bytes tab) p))))).
Proof.
  refine (let H := _ in conj H (IsNone_false_present (Init OpInfo_new sample_three 16) H)).
  vm_compute. reflexivity.
Defined.

Lemma IsNone_short_vtable_witness :
  encode.Get packer.voffset sample_short (8 - 4) = Ok 4 /\
  OpKernelTypeStrArgsIsNone (Init OpInfo_new sample_short 8) = Ok true.
Proof.
  assert (H : encode.Get packer.voffset sample_short (8 - 4) = Ok 4)
    by (vm_compute; reflexivity).
  split; [ exact H | ].
  apply (IsNone_short_vtable sample_short 8 4 4);
    [ vm_compute; reflexivity | exact H | lia ].
Defined.

Lemma OpInfoBufferHasIdentifier_short_witness :
  OpInfoBufferHasIdentifier (firstn 7 sample_three) 0 false = false.
Proof.
  apply OpInfoBufferHasIdentifier_short. vm_compute. reflexivity.
Defined.
