(* ===== verification/Layout.v ===== *)
(** * Layout: the abstract specification of a serialized [OpInfo]

    A builder writes towards lower addresses and names what it wrote by
    offsets counted from the end of the buffer; a reader is given positions
    counted from the start.  The predicates of this file describe a buffer
    by offsets from its end, so that they keep holding while bytes are added
    in front:

    - [holds p buf o v]: the number [v] of kind [p] is stored at offset [o];
    - [vector_at buf vo elems]: at offset [vo] there is a vector whose
      elements are relative offsets to the tables at the offsets [elems];
    - [opinfo_at buf o field]: at offset [o] there is an [OpInfo] table
      whose one field is absent ([None]) or refers to the vector at offset
      [vo] ([Some vo]);
    - [root_at buf start o]: the root offset stored at position [start]
      refers to the table at offset [o].

    [suffix_of] is the order in which a buffer under construction changes;
    the predicates are [Proper] for it, so that a hypothesis
    [suffix_of buf buf'] rewrites a goal about [buf'] into one about [buf].

    The abstract value of an [OpInfo] is [None] (no vector) or the list of
    the positions of its entries.  [read_entries] reads that value through
    the accessors of [OpInfo.py], the way a client does (is the field
    there, how long is it, each entry in turn).  The refinement theorems
    state that on a buffer that satisfies the layout predicates every
    accessor, and [read_entries], returns exactly the abstract value.
    Conversely, when [read_entries] returns a value the buffer holds the
    table, and the vector, of that value ([value_at_of_read]): the layout
    [value_at] is what the accessors need, no more.
    [OpKernelTypeStrArgs] itself answers more indexes than the vector has:
    it follows whatever four bytes it finds at the index
    ([OpKernelTypeStrArgs_unchecked_index]). *)

From Stdlib Require Import ZArith List Lia Bool Morphisms RelationClasses.
From coqutil Require Import Byte Word.LittleEndianList.
From S2P Require Import Prelude ByteBuffer TableView BuilderCore Samples OpInfo.
Import ListNotations.
#[local] Open Scope Z_scope.
#[local] Open Scope fb_scope.

(** [suffix_of buf buf']: [buf'] is [buf] with bytes added in front, the
    only way a builder changes what it has written. *)
Definition suffix_of (buf buf' : bytes) : Prop := exists pre, buf' = pre ++ buf.

(** The position of the byte at offset [o] from the end. *)
Definition pos_of (buf : bytes) (o : Z) : Z := len buf - o.

Definition holds (p : packer.t) (buf : bytes) (o v : Z) : Prop :=
  encode.Get p buf (pos_of buf o) = Ok v.

(** The bytes [bs] are stored at offset [o]. *)
Definition bytes_at (buf : bytes) (o : Z) (bs : bytes) : Prop :=
  len bs <= o <= len buf /\ slice buf (pos_of buf o) (length bs) = bs.

Definition vector_at (buf : bytes) (vo : Z) (elems : list Z) : Prop :=
  holds packer.uoffset buf vo (len elems) /\
  forall j e, nth_error elems j = Some e ->
    holds packer.uoffset buf (vo - 4 - 4 * Z.of_nat j) (vo - 4 - 4 * Z.of_nat j - e).

Definition opinfo_at (buf : bytes) (o : Z) (field : option Z) : Prop :=
  exists soffset vsize,
    holds packer.soffset buf o soffset /\
    holds packer.voffset buf (o + soffset) vsize /\
    match field with
    | None => vsize <= 4 \/ holds packer.voffset buf (o + soffset - 4) 0
    | Some vo =>
        4 < vsize /\
        exists fo, holds packer.voffset buf (o + soffset - 4) fo /\ fo <> 0 /\
                   holds packer.uoffset buf (o - fo) (o - fo - vo)
    end.

(** At offset [o] there is a table whose vtable holds the numbers [fields]:
    its size, the size of the table, and one entry per field. *)
Definition table_at (buf : bytes) (o : Z) (fields : list Z) : Prop :=
  exists soffset,
    holds packer.soffset buf o soffset /\
    forall k v, nth_error fields k = Some v ->
      holds packer.voffset buf (o + soffset - 2 * Z.of_nat k) v.

Definition root_at (buf : bytes) (start o : Z) : Prop :=
  encode.Get packer.uoffset buf start = Ok (pos_of buf o - start).

(** The buffer represents the value [v]: its root offset refers to an
    [OpInfo] table whose field is absent ([None]) or refers to a vector of
    the entries at the offsets [es] ([Some es]); the table and the vector
    are at multiples of four bytes from the end. *)
Definition serialized (buf : bytes) (v : option (list Z)) : Prop :=
  exists o, root_at buf 0 o /\ o mod 4 = 0 /\
    match v with
    | None => opinfo_at buf o None
    | Some es =>
        exists vo, vo mod 4 = 0 /\ opinfo_at buf o (Some vo) /\ vector_at buf vo es
    end.

(** At offset [o] the buffer holds the table of the value [v], wherever the
    root offset is and whatever the alignment: what a reader needs. *)
Definition value_at (buf : bytes) (o : Z) (v : option (list Z)) : Prop :=
  match v with
  | None => opinfo_at buf o None
  | Some es => exists vo, opinfo_at buf o (Some vo) /\ vector_at buf vo es
  end.

(** The view of the table at offset [o]. *)
Definition view (buf : bytes) (o : Z) : OpInfo := Init OpInfo_new buf (pos_of buf o).

(** The table position of an entry. *)
Definition entry_pos (e : OpIdKernelTypeStrArgsEntry) : result Z :=
  match entry_tab e with
  | Some tab => Ok (Table.Pos tab)
  | None => Err PreconditionViolation
  end.

(** The positions of entries [j], [j+1], ..., [j+n-1]. *)
Fixpoint read_from (self : OpInfo) (j : Z) (n : nat) : result (list Z) :=
  match n with
  | O => Ok []
  | S n' =>
      e <- OpKernelTypeStrArgs self j ;;
      match e with
      | Some e =>
          p <- entry_pos e ;;
          ps <- read_from self (j + 1) n' ;;
          Ok (p :: ps)
      | None => Err MalformedVTable
      end
  end.

(** The abstract value of an [OpInfo], read through its accessors. *)
Definition read_entries (self : OpInfo) : result (option (list Z)) :=
  none <- OpKernelTypeStrArgsIsNone self ;;
  if none : bool then Ok None
  else
    n <- OpKernelTypeStrArgsLength self ;;
    ps <- read_from self 0 (Z.to_nat n) ;;
    Ok (Some ps).

(** ** Stability: bytes added in front *)

Section Stability.
Variables pre buf : bytes.

Lemma holds_in_bounds p o v :
  holds p buf o v -> o <= len buf /\ Z.of_nat (packer.bytewidth p) <= o.
Proof. unfold holds, pos_of. intros H. apply Get_in_bounds in H. lia. Qed.

Lemma holds_prepend p o v : holds p buf o v -> holds p (pre ++ buf) o v.
Proof.
  intros H. pose proof (holds_in_bounds _ _ _ H).
  unfold holds, pos_of in *. rewrite Get_from_end by lia. exact H.
Qed.

Lemma bytes_at_prepend o bs : bytes_at buf o bs -> bytes_at (pre ++ buf) o bs.
Proof.
  unfold bytes_at, pos_of. intros [Hr Hs]. split; [ len_solve | ].
  replace (len (pre ++ buf) - o) with (len pre + (len buf - o)) by len_solve.
  rewrite slice_app_r by lia. exact Hs.
Qed.

(** Bytes just written are at the current offset. *)
Lemma bytes_at_here bs : bytes_at (bs ++ buf) (len (bs ++ buf)) bs.
Proof.
  unfold bytes_at, pos_of. split; [ len_solve | ].
  rewrite Z.sub_diag. apply (slice_exact [] bs buf).
Qed.

Lemma vector_at_prepend vo elems :
  vector_at buf vo elems -> vector_at (pre ++ buf) vo elems.
Proof.
  intros [Hn He]. split; [ apply holds_prepend, Hn | ].
  intros j e Hj. apply holds_prepend, He, Hj.
Qed.

Lemma opinfo_at_prepend o field :
  opinfo_at buf o field -> opinfo_at (pre ++ buf) o field.
Proof.
  intros (so & vs & Hso & Hvs & Hf). exists so, vs.
  repeat split; try (apply holds_prepend; assumption).
  destruct field as [vo | ].
  - destruct Hf as (Hlt & fo & Hfo & Hne & Hv).
    split; [ exact Hlt | ]. exists fo. auto using holds_prepend.
  - destruct Hf as [Hle | H0]; auto using holds_prepend.
Qed.

Lemma table_at_prepend o fields :
  table_at buf o fields -> table_at (pre ++ buf) o fields.
Proof.
  intros (so & Hso & Hf). exists so. split; [ apply holds_prepend, Hso | ].
  intros k v Hk. apply holds_prepend, Hf, Hk.
Qed.

End Stability.

(** [suffix_of] is a preorder, and every layout predicate is monotone in the
    buffer along it: a hypothesis [suffix_of buf buf'] rewrites a goal about
    [buf'] into the same goal about [buf]. *)
#[export] Instance suffix_of_PreOrder : PreOrder suffix_of.
Proof.
  split.
  - intros buf. exists []. reflexivity.
  - intros b1 b2 b3 [p1 ->] [p2 ->]. exists (p2 ++ p1). apply app_assoc.
Qed.

#[export] Instance holds_Proper p :
  Proper (suffix_of ==> eq ==> eq ==> Basics.impl) (holds p).
Proof. intros buf _ [pre ->] o _ <- v _ <-. exact (holds_prepend pre buf p o v). Qed.

#[export] Instance bytes_at_Proper :
  Proper (suffix_of ==> eq ==> eq ==> Basics.impl) bytes_at.
Proof. intros buf _ [pre ->] o _ <- bs _ <-. exact (bytes_at_prepend pre buf o bs). Qed.

#[export] Instance vector_at_Proper :
  Proper (suffix_of ==> eq ==> eq ==> Basics.impl) vector_at.
Proof. intros buf _ [pre ->] o _ <- v _ <-. exact (vector_at_prepend pre buf o v). Qed.

#[export] Instance opinfo_at_Proper :
  Proper (suffix_of ==> eq ==> eq ==> Basics.impl) opinfo_at.
Proof. intros buf _ [pre ->] o _ <- f _ <-. exact (opinfo_at_prepend pre buf o f). Qed.

#[export] Instance table_at_Proper :
  Proper (suffix_of ==> eq ==> eq ==> Basics.impl) table_at.
Proof. intros buf _ [pre ->] o _ <- f _ <-. exact (table_at_prepend pre buf o f). Qed.

#[export] Instance value_at_Proper :
  Proper (suffix_of ==> eq ==> eq ==> Basics.impl) value_at.
Proof.
  intros buf buf' Hs o ? <- v ? <-. destruct v as [es | ]; cbn [value_at].
  - intros (vo & Htab & Hvec). exists vo. split; rewrite <- Hs; assumption.
  - intros H. rewrite <- Hs. exact H.
Qed.

(** ** An [OpInfo] table is a table with one field *)

Lemma opinfo_at_absent buf o tsize :
  table_at buf o [6; tsize; 0] -> opinfo_at buf o None.
Proof.
  intros (so & Hso & Hf). exists so, 6.
  split; [ exact Hso | ]. split.
  - specialize (Hf 0%nat 6 eq_refl). rewrite Z.sub_0_r in Hf. exact Hf.
  - right. apply (Hf 2%nat 0 eq_refl).
Qed.

(** A table written before the field existed has a vtable of four bytes:
    it is an [OpInfo] whose field is absent. *)
Lemma opinfo_at_short buf o tsize :
  table_at buf o [4; tsize] -> opinfo_at buf o None.
Proof.
  intros (so & Hso & Hf). exists so, 4.
  split; [ exact Hso | ]. split; [ | left; lia ].
  specialize (Hf 0%nat 4 eq_refl). rewrite Z.sub_0_r in Hf. exact Hf.
Qed.

Lemma opinfo_at_present buf o tsize fo vo :
  table_at buf o [6; tsize; fo] -> fo <> 0 ->
  holds packer.uoffset buf (o - fo) (o - fo - vo) ->
  opinfo_at buf o (Some vo).
Proof.
  intros (so & Hso & Hf) Hne Hv. exists so, 6.
  split; [ exact Hso | ]. split.
  - specialize (Hf 0%nat 6 eq_refl). rewrite Z.sub_0_r in Hf. exact Hf.
  - split; [ lia | ]. exists fo. split; [ apply (Hf 2%nat fo eq_refl) | auto ].
Qed.

(** ** The accessors in terms of the field's vtable entry *)

Lemma accessors_of_absent (self : OpInfo) :
  field_offset self = Ok 0 ->
  OpKernelTypeStrArgsIsNone self = Ok true /\
  OpKernelTypeStrArgsLength self = Ok 0 /\
  forall j, OpKernelTypeStrArgs self j = Ok None.
Proof.
  intros H.
  unfold OpKernelTypeStrArgsIsNone, OpKernelTypeStrArgsLength, OpKernelTypeStrArgs.
  rewrite H. auto.
Qed.

Lemma accessors_of_present (self : OpInfo) (tab : Table.t) (fo : Z) :
  _tab self = Some tab -> field_offset self = Ok fo -> fo <> 0 ->
  OpKernelTypeStrArgsIsNone self = Ok false /\
  OpKernelTypeStrArgsLength self = Table.VectorLen tab fo /\
  forall j, OpKernelTypeStrArgs self j
            = (x <- Table.Vector tab fo ;;
               p <- Table.Indirect tab (x + j * 4) ;;
               Ok (Some (Entry_Init Entry_new (Table.Bytes tab) p))).
Proof.
  intros Ht Hfo Hne. apply Z.eqb_neq in Hne.
  unfold OpKernelTypeStrArgsIsNone, OpKernelTypeStrArgsLength, OpKernelTypeStrArgs.
  unfold tab_of. rewrite Hfo, Ht. cbn [bind]. rewrite Hne. auto.
Qed.

(** ** Refinement: the accessors on a buffer that satisfies the layout *)

Section Refinement.
Variable buf : bytes.
Variable o : Z.

Lemma field_offset_absent :
  opinfo_at buf o None -> field_offset (view buf o) = Ok 0.
Proof.
  intros (so & vs & Hso & Hvs & Hf).
  apply field_offset_Ok_iff. eexists. split; [ reflexivity | ].
  apply Offset_Ok_iff. exists so, vs. cbn [Table.Bytes Table.Pos].
  unfold holds, pos_of in *.
  replace (len buf - o - so) with (len buf - (o + so)) by lia.
  repeat split; try assumption.
  destruct (Z.ltb_spec 4 vs); [ | reflexivity ].
  destruct Hf as [Hle | H0]; [ lia | ].
  replace (len buf - (o + so) + 4) with (len buf - (o + so - 4)) by lia. exact H0.
Qed.

Lemma field_offset_present vo :
  opinfo_at buf o (Some vo) ->
  exists fo, field_offset (view buf o) = Ok fo /\ fo <> 0 /\
             holds packer.uoffset buf (o - fo) (o - fo - vo).
Proof.
  intros (so & vs & Hso & Hvs & Hlt & fo & Hfo & Hne & Hv).
  exists fo. repeat split; try assumption.
  apply field_offset_Ok_iff. eexists. split; [ reflexivity | ].
  apply Offset_Ok_iff. exists so, vs. cbn [Table.Bytes Table.Pos].
  unfold holds, pos_of in *.
  replace (len buf - o - so) with (len buf - (o + so)) by lia.
  repeat split; try assumption.
  destruct (Z.ltb_spec 4 vs); [ | lia ].
  replace (len buf - (o + so) + 4) with (len buf - (o + so - 4)) by lia. exact Hfo.
Qed.

(** C5: On a buffer that holds an [OpInfo] table without the field, the
    accessors report the field absent. *)
Theorem absent_refines :
  opinfo_at buf o None ->
  OpKernelTypeStrArgsIsNone (view buf o) = Ok true /\
  OpKernelTypeStrArgsLength (view buf o) = Ok 0 /\
  forall j, OpKernelTypeStrArgs (view buf o) j = Ok None.
Proof.
  intros H. apply accessors_of_absent, field_offset_absent, H.
Qed.

Section Present.
Variables (vo : Z) (elems : list Z).
Hypothesis Htab : opinfo_at buf o (Some vo).
Hypothesis Hvec : vector_at buf vo elems.

(** The field's entry in the vtable, and what the accessors compute from
    it. *)
Lemma present_accessors :
  exists fo,
    holds packer.uoffset buf (o - fo) (o - fo - vo) /\
    OpKernelTypeStrArgsIsNone (view buf o) = Ok false /\
    OpKernelTypeStrArgsLength (view buf o) = Table.VectorLen (Table.mk buf (pos_of buf o)) fo /\
    forall j, OpKernelTypeStrArgs (view buf o) j
              = (x <- Table.Vector (Table.mk buf (pos_of buf o)) fo ;;
                 p <- Table.Indirect (Table.mk buf (pos_of buf o)) (x + j * 4) ;;
                 Ok (Some (Entry_Init Entry_new buf p))).
Proof.
  destruct (field_offset_present vo Htab) as (fo & Hfo & Hne & Hv).
  exists fo. split; [ exact Hv | ].
  exact (accessors_of_present (view buf o) _ fo eq_refl Hfo Hne).
Qed.

(** The first element of the vector is four bytes after the vector's
    offset. *)
Lemma vector_present :
  exists fo, field_offset (view buf o) = Ok fo /\ fo <> 0 /\
    Table.Vector (Table.mk buf (pos_of buf o)) fo = Ok (pos_of buf vo + 4).
Proof.
  destruct (field_offset_present vo Htab) as (fo & Hfo & Hne & Hv).
  exists fo. split; [ exact Hfo | ]. split; [ exact Hne | ].
  apply Vector_Ok_iff. exists (o - fo - vo). cbn [Table.Bytes Table.Pos].
  unfold holds, pos_of in *.
  replace (fo + (len buf - o)) with (len buf - (o - fo)) by lia.
  split; [ exact Hv | lia ].
Qed.

Lemma IsNone_present : OpKernelTypeStrArgsIsNone (view buf o) = Ok false.
Proof. destruct present_accessors as (fo & _ & H & _). exact H. Qed.

Lemma Length_present : OpKernelTypeStrArgsLength (view buf o) = Ok (len elems).
Proof.
  destruct present_accessors as (fo & Hv & _ & -> & _).
  apply VectorLen_Ok_iff. exists (o - fo - vo). cbn [Table.Bytes Table.Pos].
  destruct Hvec as [Hn _]. unfold holds, pos_of in *.
  replace (fo + (len buf - o)) with (len buf - (o - fo)) by lia.
  split; [ exact Hv | ].
  replace (len buf - (o - fo) + (o - fo - vo)) with (len buf - vo) by lia. exact Hn.
Qed.

(** The accessor at any index: it follows the offset stored in the four
    bytes at that index after the start of the vector, whether the index is
    one of the vector or not. *)
Lemma entry_at_index j w :
  holds packer.uoffset buf (vo - 4 - 4 * j) w ->
  OpKernelTypeStrArgs (view buf o) j
  = Ok (Some (Entry_Init Entry_new buf (pos_of buf (vo - 4 - 4 * j) + w))).
Proof.
  intros Hw. destruct vector_present as (fo & Hfo & Hne & Hx).
  destruct (accessors_of_present (view buf o) _ fo eq_refl Hfo Hne) as (_ & _ & ->).
  rewrite Hx. cbn [bind]. unfold UOffsetTFlags.py_type.
  replace (pos_of buf vo + 4 + j * 4) with (pos_of buf (vo - 4 - 4 * j))
    by (unfold pos_of; lia).
  unfold Table.Indirect. cbn [Table.Bytes]. unfold holds in Hw. rewrite Hw. reflexivity.
Qed.

Lemma entry_present j e :
  nth_error elems j = Some e ->
  OpKernelTypeStrArgs (view buf o) (Z.of_nat j)
  = Ok (Some (Entry_Init Entry_new buf (pos_of buf e))).
Proof.
  intros Hj. destruct Hvec as [_ He].
  rewrite (entry_at_index _ _ (He j e Hj)). unfold pos_of. do 3 f_equal. lia.
Qed.

Lemma read_from_present n : forall j,
  (j + n <= length elems)%nat ->
  read_from (view buf o) (Z.of_nat j) n
  = Ok (map (pos_of buf) (firstn n (skipn j elems))).
Proof.
  induction n as [ | n IH]; intros j Hj; [ reflexivity | ].
  destruct (nth_error elems j) as [e | ] eqn:He;
    [ | apply nth_error_None in He; lia ].
  cbn [read_from]. rewrite (entry_present j e He). cbn [bind entry_pos Entry_Init entry_tab Table.Pos].
  replace (Z.of_nat j + 1) with (Z.of_nat (S j)) by lia.
  rewrite IH by lia. cbn [bind].
  rewrite (skipn_nth_error _ _ _ He) at 1.
  reflexivity.
Qed.

(** C4: The field present: the accessors return the length of the vector and,
    for every index below it, the entry at the position the vector refers
    to. *)
Theorem present_refines :
  OpKernelTypeStrArgsIsNone (view buf o) = Ok false /\
  OpKernelTypeStrArgsLength (view buf o) = Ok (len elems) /\
  forall j e, nth_error elems j = Some e ->
    OpKernelTypeStrArgs (view buf o) (Z.of_nat j)
    = Ok (Some (Entry_Init Entry_new buf (pos_of buf e))).
Proof.
  split; [ apply IsNone_present | ].
  split; [ apply Length_present | apply entry_present ].
Qed.

(** C32: [OpKernelTypeStrArgs] does not compare its index with the length of the
    vector.  On a table whose vector has [len elems] entries it answers
    every index [j], below the length, at or above it, or negative, whose
    four bytes lie in the buffer: with an entry at the position that results
    from taking those four bytes, whatever they belong to, for an offset. *)
Theorem OpKernelTypeStrArgs_unchecked_index (j : Z) :
  4 <= vo - 4 - 4 * j <= len buf ->
  OpKernelTypeStrArgsLength (view buf o) = Ok (len elems) /\
  exists w,
    holds packer.uoffset buf (vo - 4 - 4 * j) w /\
    OpKernelTypeStrArgs (view buf o) j
    = Ok (Some (Entry_Init Entry_new buf (pos_of buf (vo - 4 - 4 * j) + w))).
Proof.
  intros Hj. split; [ apply Length_present | ].
  destruct (encode.Get packer.uoffset buf (pos_of buf (vo - 4 - 4 * j))) as [w | e] eqn:Hw.
  - exists w. split; [ exact Hw | apply entry_at_index, Hw ].
  - apply Get_Err_iff in Hw. destruct Hw as [_ Hw].
    apply not_true_iff_false in Hw. exfalso. apply Hw, in_bounds_spec.
    unfold pos_of. cbn [packer.bytewidth]. lia.
Qed.

(** Reading the whole value through the accessors gives the positions of the
    tables the vector refers to, in order. *)
Lemma read_entries_present :
  read_entries (view buf o) = Ok (Some (map (pos_of buf) elems)).
Proof.
  unfold read_entries. rewrite IsNone_present, Length_present. cbn [bind].
  rewrite Nat2Z.id. change 0 with (Z.of_nat 0).
  rewrite (read_from_present (length elems) 0) by lia.
  cbn [bind skipn]. rewrite firstn_all. reflexivity.
Qed.

End Present.

(** Reading the whole value of a table without the field gives [None]. *)
Lemma read_entries_absent :
  opinfo_at buf o None -> read_entries (view buf o) = Ok None.
Proof.
  intros H. apply field_offset_absent, accessors_of_absent in H. destruct H as (Hn & _).
  unfold read_entries. rewrite Hn. reflexivity.
Qed.

(** The root accessor finds the table the root offset refers to. *)
Lemma root_refines start :
  root_at buf start o ->
  GetRootAsOpInfo buf start = Ok (view buf o).
Proof.
  unfold root_at, GetRootAsOpInfo. intros H. rewrite H. cbn [bind].
  unfold view. do 2 f_equal. lia.
Qed.

(** Reading the table of a value. *)
Lemma read_entries_value_at v :
  value_at buf o v -> read_entries (view buf o) = Ok (option_map (map (pos_of buf)) v).
Proof.
  destruct v as [es | ]; cbn [value_at option_map].
  - intros (vo & Htab & Hvec). exact (read_entries_present vo es Htab Hvec).
  - exact read_entries_absent.
Qed.

End Refinement.

(** ** Errors of the reader

    On any buffer, well formed or not, [read_entries] of an initialised
    object fails with [OutOfRange] only: once the field is known to be
    there, an accessor of an entry fails or returns an entry, so the error
    [MalformedVTable] of [read_from] does not occur. *)

Lemma read_from_Err self tab fo e :
  _tab self = Some tab -> field_offset self = Ok fo -> fo <> 0 ->
  forall n j, read_from self j n = Err e -> e = OutOfRange.
Proof.
  intros Ht Hfo Hne.
  destruct (accessors_of_present self tab fo Ht Hfo Hne) as (_ & _ & Hacc).
  induction n as [ | n IH]; intros j H; cbn [read_from] in H; [ discriminate | ].
  destruct (OpKernelTypeStrArgs self j) as [[en | ] | e'] eqn:He; cbn [bind] in H.
  - rewrite Hacc in He. apply bind_Ok_iff in He. destruct He as (x & _ & He).
    apply bind_Ok_iff in He. destruct He as (p & _ & [= <-]). cbn in H.
    destruct (read_from self (j + 1) n) eqn:Hr; cbn in H; [ discriminate | ].
    injection H as <-. exact (IH _ Hr).
  - rewrite Hacc in He. apply bind_Ok_iff in He. destruct He as (x & _ & He).
    apply bind_Ok_iff in He. destruct He as (p & _ & [=]).
  - injection H as <-.
    destruct (accessor_Err_cases self e' (or_introl (ex_intro _ j He))) as [[Hn _] | [_ ->]];
      [ congruence | reflexivity ].
Qed.

Lemma read_entries_Err buf pos e :
  read_entries (Init OpInfo_new buf pos) = Err e -> e = OutOfRange.
Proof.
  set (self := Init OpInfo_new buf pos). unfold read_entries. intros H.
  assert (Hacc : forall e', OpKernelTypeStrArgsLength self = Err e' \/
                            OpKernelTypeStrArgsIsNone self = Err e' -> e' = OutOfRange).
  { intros e' He. destruct (accessor_Err_cases self e' (or_intror He)) as [[Hn _] | [_ ->]];
      [ discriminate Hn | reflexivity ]. }
  destruct (OpKernelTypeStrArgsIsNone self) as [[ | ] | e'] eqn:Hnone; cbn [bind] in H;
    [ discriminate | | injection H as <-; auto ].
  destruct (OpKernelTypeStrArgsLength self) as [n | e'] eqn:Hlen; cbn [bind] in H;
    [ | injection H as <-; auto ].
  unfold OpKernelTypeStrArgsIsNone in Hnone. apply bind_Ok_iff in Hnone.
  destruct Hnone as (fo & Hfo & [= Hne]). apply Z.eqb_neq in Hne.
  destruct (read_from self 0 (Z.to_nat n)) eqn:Hr; cbn [bind] in H; [ discriminate | ].
  injection H as <-. exact (read_from_Err self _ fo _ eq_refl Hfo Hne _ _ Hr).
Qed.

(** ** What a successful read says of the buffer *)

Lemma read_from_Ok self : forall n j ps,
  read_from self j n = Ok ps ->
  length ps = n /\
  forall k p, nth_error ps k = Some p ->
    exists e, OpKernelTypeStrArgs self (j + Z.of_nat k) = Ok (Some e) /\ entry_pos e = Ok p.
Proof.
  induction n as [ | n IH]; intros j ps H; cbn [read_from] in H.
  - injection H as <-. split; [ reflexivity | intros [ | k] p; discriminate ].
  - destruct (OpKernelTypeStrArgs self j) as [[e | ] | ] eqn:He; cbn [bind] in H;
      try discriminate.
    destruct (entry_pos e) as [p0 | ] eqn:Hp; cbn [bind] in H; [ | discriminate ].
    destruct (read_from self (j + 1) n) as [ps' | ] eqn:Hr; cbn [bind] in H; [ | discriminate ].
    injection H as <-. destruct (IH _ _ Hr) as [Hl Hk]. split; [ cbn; lia | ].
    intros [ | k] p Hnth; cbn [nth_error] in Hnth.
    + injection Hnth as <-. exists e. rewrite Z.add_0_r. auto.
    + destruct (Hk k p Hnth) as (e' & He' & Hp'). exists e'.
      replace (j + Z.of_nat (S k)) with (j + 1 + Z.of_nat k) by lia. auto.
Qed.

(** An element that is read lies in the buffer, after the four bytes of the
    offset to the vector and the four bytes of the vector's length. *)
Lemma element_in_buffer buf pos j e :
  0 <= j ->
  OpKernelTypeStrArgs (Init OpInfo_new buf pos) j = Ok (Some e) ->
  4 * j + 8 <= len buf.
Proof.
  intros Hj H. unfold OpKernelTypeStrArgs in H.
  apply bind_Ok_iff in H. destruct H as (fo & _ & H).
  destruct (negb (fo =? 0)); [ | discriminate ].
  apply bind_Ok_iff in H. destruct H as (tab & [= <-] & H).
  apply bind_Ok_iff in H. destruct H as (x & Hx & H).
  apply bind_Ok_iff in H. destruct H as (p & Hp & _).
  apply Vector_Ok_iff in Hx. destruct Hx as (x0 & Hx0 & ->).
  apply Indirect_Ok_iff in Hp. destruct Hp as (y & Hy & _).
  pose proof (Get_fits _ _ _ _ Hx0) as Hf. apply fits_uoffset in Hf.
  apply Get_in_bounds in Hx0, Hy.
  cbn [Table.Bytes Table.Pos packer.bytewidth] in *. unfold UOffsetTFlags.py_type in *.
  lia.
Qed.

(** ** The converse: what a successful read says of the buffer

    The layout is not only sufficient for the accessors to return a value,
    it is necessary: when they return it, the buffer holds the table, and
    the vector, that the layout describes. *)

Section Converse.
Variable buf : bytes.
Variable o : Z.

(** The vtable behind a field offset that was read. *)
Lemma vtable_of_field fo :
  field_offset (view buf o) = Ok fo ->
  exists so vs,
    holds packer.soffset buf o so /\ holds packer.voffset buf (o + so) vs /\
    (if 4 <? vs then holds packer.voffset buf (o + so - 4) fo else fo = 0).
Proof.
  intros H. apply field_offset_Ok_iff in H. destruct H as (tab & [= <-] & H).
  apply Offset_Ok_iff in H. destruct H as (so & vs & Hso & Hvs & Hf).
  cbn [Table.Bytes Table.Pos] in *. exists so, vs. unfold holds.
  replace (pos_of buf (o + so)) with (pos_of buf o - so) by (unfold pos_of; lia).
  replace (pos_of buf (o + so - 4)) with (pos_of buf o - so + 4) by (unfold pos_of; lia).
  auto.
Qed.

Lemma opinfo_at_of_absent : field_offset (view buf o) = Ok 0 -> opinfo_at buf o None.
Proof.
  intros H. destruct (vtable_of_field 0 H) as (so & vs & Hso & Hvs & Hf).
  exists so, vs. do 2 (split; [ assumption | ]).
  destruct (Z.ltb_spec 4 vs); [ right; exact Hf | left; lia ].
Qed.

Lemma opinfo_at_of_present fo x :
  field_offset (view buf o) = Ok fo -> fo <> 0 ->
  encode.Get packer.uoffset buf (fo + pos_of buf o) = Ok x ->
  opinfo_at buf o (Some (o - fo - x)).
Proof.
  intros H Hne Hx. destruct (vtable_of_field fo H) as (so & vs & Hso & Hvs & Hf).
  exists so, vs. do 2 (split; [ assumption | ]).
  destruct (Z.ltb_spec 4 vs); [ | contradiction ].
  split; [ assumption | ]. exists fo. do 2 (split; [ assumption | ]).
  unfold holds. replace (pos_of buf (o - fo)) with (fo + pos_of buf o) by (unfold pos_of; lia).
  rewrite Hx. f_equal. lia.
Qed.

(** The entries that were read are the elements of a vector. *)
Lemma vector_at_of_read fo x es :
  field_offset (view buf o) = Ok fo -> fo <> 0 ->
  encode.Get packer.uoffset buf (fo + pos_of buf o) = Ok x ->
  encode.Get packer.uoffset buf (fo + pos_of buf o + x) = Ok (len es) ->
  read_from (view buf o) 0 (length es) = Ok (map (pos_of buf) es) ->
  vector_at buf (o - fo - x) es.
Proof.
  intros Hfo Hne Hx Hn Hread.
  destruct (accessors_of_present (view buf o) _ fo eq_refl Hfo Hne) as (_ & _ & HE).
  split.
  - unfold holds. replace (pos_of buf (o - fo - x)) with (fo + pos_of buf o + x)
      by (unfold pos_of; lia). exact Hn.
  - intros j e Hj. apply (map_nth_error (pos_of buf)) in Hj.
    destruct (read_from_Ok _ _ _ _ Hread) as [_ Hk].
    destruct (Hk j _ Hj) as (e' & He' & Hp). rewrite HE in He'.
    apply bind_Ok_iff in He'. destruct He' as (x' & Hx' & He').
    apply bind_Ok_iff in He'. destruct He' as (p & Hp' & [= <-]).
    cbn [entry_pos Entry_Init entry_tab Table.Pos] in Hp. injection Hp as ->.
    apply Vector_Ok_iff in Hx'. cbn [Table.Bytes Table.Pos] in Hx'.
    destruct Hx' as (x0 & Hx0 & ->). rewrite Hx in Hx0. injection Hx0 as <-.
    apply Indirect_Ok_iff in Hp'. cbn [Table.Bytes] in Hp'. destruct Hp' as (w & Hw & Hp').
    unfold holds.
    replace (pos_of buf (o - fo - x - 4 - 4 * Z.of_nat j))
      with (fo + pos_of buf o + x + 4 + (0 + Z.of_nat j) * 4) by (unfold pos_of; lia).
    rewrite Hw. f_equal. unfold pos_of in *. lia.
Qed.

Lemma value_at_of_read v :
  read_entries (view buf o) = Ok (option_map (map (pos_of buf)) v) -> value_at buf o v.
Proof.
  unfold read_entries, OpKernelTypeStrArgsIsNone. intros H.
  destruct (field_offset (view buf o)) as [fo | ] eqn:Hfo; cbn [bind] in H; [ | discriminate ].
  destruct (Z.eqb_spec fo 0) as [-> | Hne].
  - destruct v; [ discriminate | ]. exact (opinfo_at_of_absent Hfo).
  - destruct (accessors_of_present (view buf o) _ fo eq_refl Hfo Hne) as (_ & HL & _).
    rewrite HL in H. apply bind_Ok_iff in H. destruct H as (n & Hn & H).
    apply bind_Ok_iff in H. destruct H as (ps & Hread & H).
    destruct v as [es | ]; [ | discriminate ]. cbn [option_map] in H. injection H as ->.
    apply VectorLen_Ok_iff in Hn. cbn [Table.Bytes Table.Pos] in Hn.
    destruct Hn as (x & Hx & Hn).
    pose proof (Get_fits _ _ _ _ Hn) as Hf. apply fits_uoffset in Hf.
    destruct (read_from_Ok _ _ _ _ Hread) as [Hl _]. rewrite length_map in Hl.
    assert (Hlen : n = len es) by lia. subst n. rewrite Nat2Z.id in Hread.
    exists (o - fo - x). split;
      [ exact (opinfo_at_of_present fo x Hfo Hne Hx)
      | exact (vector_at_of_read fo x es Hfo Hne Hx Hn Hread) ].
Qed.

End Converse.

(** ** Instances on the sample buffers *)

Lemma opinfo_at_sample_absent : opinfo_at sample_absent 4 None.
Proof. exists 6, 6. do 2 (split; [ by_compute | ]). right. by_compute. Qed.

Lemma opinfo_at_sample_three : opinfo_at sample_three 40 (Some 32).
Proof.
  exists 6, 6. do 3 (split; [ by_compute | ]).
  exists 4. split; [ by_compute | ]. split; [ discriminate | by_compute ].
Qed.

Lemma vector_at_sample_three : vector_at sample_three 32 [4; 12; 16].
Proof.
  split; [ by_compute | ]. intros j e Hj.
  do 3 (destruct j as [ | j]; [ injection Hj as <-; by_compute | ]).
  destruct j; discriminate Hj.
Qed.

Lemma absent_refines_witness :
  OpKernelTypeStrArgsIsNone (view sample_absent 4) = Ok true /\
  OpKernelTypeStrArgsLength (view sample_absent 4) = Ok 0 /\
  forall j, OpKernelTypeStrArgs (view sample_absent 4) j = Ok None.
Proof. exact (absent_refines sample_absent 4 opinfo_at_sample_absent). Defined.

Lemma present_refines_witness :
  OpKernelTypeStrArgsIsNone (view sample_three 40) = Ok false /\
  OpKernelTypeStrArgsLength (view sample_three 40) = Ok (len [4; 12; 16]) /\
  forall j e, nth_error [4; 12; 16] j = Some e ->
    OpKernelTypeStrArgs (view sample_three 40) (Z.of_nat j)
    = Ok (Some (Entry_Init Entry_new sample_three (pos_of sample_three e))).
Proof.
  exact (present_refines sample_three 40 32 [4; 12; 16]
           opinfo_at_sample_three vector_at_sample_three).
Defined.

(** The index 3 of a vector of three entries: the four bytes after the
    vector are the first of the table written before it. *)
Lemma OpKernelTypeStrArgs_unchecked_index_witness :
  OpKernelTypeStrArgsLength (view sample_three 40) = Ok (len [4; 12; 16]) /\
  exists w,
    holds packer.uoffset sample_three (32 - 4 - 4 * 3) w /\
    OpKernelTypeStrArgs (view sample_three 40) 3
    = Ok (Some (Entry_Init Entry_new sample_three
                  (pos_of sample_three (32 - 4 - 4 * 3) + w))).
Proof.
  apply (OpKernelTypeStrArgs_unchecked_index sample_three 40 32 [4; 12; 16]
           opinfo_at_sample_three vector_at_sample_three 3).
  vm_compute. split; discriminate.
Defined.

(** The entry returned for that index lies outside the buffer. *)
Example index_outside_sample :
  OpKernelTypeStrArgsLength (view sample_three 40) = Ok 3 /\
  OpKernelTypeStrArgs (view sample_three 40) 3
  = Ok (Some (Entry_Init Entry_new sample_three 4294967328)) /\
  len sample_three < 4294967328.
Proof. by_compute. Qed.
