(* ===== verification/LayoutDec.v ===== *)
(** * LayoutDec: the layout predicates, decided

    The predicates of [Layout] are stated with existential quantifiers: there
    is a stored distance to the vtable, a size, an entry.  Each of these
    numbers is determined by the bytes, so the predicates can be computed.
    This file gives a boolean function for each ([holdsb], [vector_atb],
    [opinfo_atb], [serializedb]), proves that it is true exactly when the
    predicate holds, and declares the predicates [Decidable]: a statement
    about a concrete buffer is then proved by [by_decide], which evaluates
    the function. *)

From Stdlib Require Import ZArith List Lia Bool DecidableClass.
From coqutil Require Import Byte Word.LittleEndianList.
From S2P Require Import Prelude ByteBuffer TableView BuilderCore Samples OpInfo Layout.
Import ListNotations.
#[local] Open Scope Z_scope.
#[local] Open Scope fb_scope.

(** The number of kind [p] stored at offset [o], when there is one. *)
Definition stored (p : packer.t) (buf : bytes) (o : Z) : option Z :=
  match encode.Get p buf (pos_of buf o) with
  | Ok v => Some v
  | Err _ => None
  end.

Definition holdsb (p : packer.t) (buf : bytes) (o v : Z) : bool :=
  match stored p buf o with
  | Some v' => v' =? v
  | None => false
  end.

(** The elements of a vector, the first at offset [p], four bytes apart. *)
Fixpoint elems_atb (buf : bytes) (p : Z) (elems : list Z) : bool :=
  match elems with
  | [] => true
  | e :: rest => holdsb packer.uoffset buf p (p - e) && elems_atb buf (p - 4) rest
  end.

Definition vector_atb (buf : bytes) (vo : Z) (elems : list Z) : bool :=
  holdsb packer.uoffset buf vo (len elems) && elems_atb buf (vo - 4) elems.

Definition opinfo_atb (buf : bytes) (o : Z) (field : option Z) : bool :=
  match stored packer.soffset buf o with
  | None => false
  | Some so =>
      match stored packer.voffset buf (o + so) with
      | None => false
      | Some vsize =>
          match field with
          | None => (vsize <=? 4) || holdsb packer.voffset buf (o + so - 4) 0
          | Some vo =>
              (4 <? vsize) &&
              match stored packer.voffset buf (o + so - 4) with
              | Some fo =>
                  negb (fo =? 0) && holdsb packer.uoffset buf (o - fo) (o - fo - vo)
              | None => false
              end
          end
      end
  end.

(** The offset of the vector the table at offset [o] refers to. *)
Definition field_target (buf : bytes) (o : Z) : option Z :=
  match stored packer.soffset buf o with
  | None => None
  | Some so =>
      match stored packer.voffset buf (o + so - 4) with
      | None => None
      | Some fo =>
          match stored packer.uoffset buf (o - fo) with
          | None => None
          | Some x => Some (o - fo - x)
          end
      end
  end.

Definition serializedb (buf : bytes) (v : option (list Z)) : bool :=
  match encode.Get packer.uoffset buf 0 with
  | Err _ => false
  | Ok n =>
      let o := len buf - n in
      (o mod 4 =? 0) &&
      match v with
      | None => opinfo_atb buf o None
      | Some es =>
          match field_target buf o with
          | Some vo => (vo mod 4 =? 0) && opinfo_atb buf o (Some vo) && vector_atb buf vo es
          | None => false
          end
      end
  end.

(** ** The functions decide the predicates *)

Lemma stored_Some p buf o v : stored p buf o = Some v <-> holds p buf o v.
Proof. unfold stored, holds. destruct (encode.Get p buf _); split; congruence. Qed.

Lemma holdsb_spec p buf o v : holdsb p buf o v = true <-> holds p buf o v.
Proof.
  unfold holdsb. rewrite <- stored_Some. destruct (stored p buf o) as [v' | ].
  - rewrite Z.eqb_eq. split; congruence.
  - split; discriminate.
Qed.

Lemma elems_atb_spec buf elems : forall p,
  elems_atb buf p elems = true <->
  forall j e, nth_error elems j = Some e ->
    holds packer.uoffset buf (p - 4 * Z.of_nat j) (p - 4 * Z.of_nat j - e).
Proof.
  induction elems as [ | e0 rest IH]; intros p; cbn [elems_atb].
  - split; [ intros _ [ | j] e [=] | reflexivity ].
  - rewrite andb_true_iff, holdsb_spec, IH. split.
    + intros [H0 Hr] [ | j] e Hj; cbn [nth_error] in Hj.
      * injection Hj as <-. rewrite Z.mul_0_r, !Z.sub_0_r. exact H0.
      * specialize (Hr j e Hj).
        replace (p - 4 * Z.of_nat (S j)) with (p - 4 - 4 * Z.of_nat j) by lia. exact Hr.
    + intros H. split.
      * specialize (H 0%nat e0 eq_refl). rewrite Z.mul_0_r, !Z.sub_0_r in H. exact H.
      * intros j e Hj. specialize (H (S j) e Hj).
        replace (p - 4 * Z.of_nat (S j)) with (p - 4 - 4 * Z.of_nat j) in H by lia. exact H.
Qed.

Lemma vector_atb_spec buf vo elems :
  vector_atb buf vo elems = true <-> vector_at buf vo elems.
Proof.
  unfold vector_atb, vector_at. rewrite andb_true_iff, holdsb_spec, elems_atb_spec.
  reflexivity.
Qed.

Lemma opinfo_atb_spec buf o field :
  opinfo_atb buf o field = true <-> opinfo_at buf o field.
Proof.
  unfold opinfo_atb, opinfo_at. split.
  - destruct (stored packer.soffset buf o) as [so | ] eqn:Hso; [ | discriminate ].
    destruct (stored packer.voffset buf (o + so)) as [vsize | ] eqn:Hvs; [ | discriminate ].
    apply stored_Some in Hso, Hvs. intros H. exists so, vsize.
    split; [ exact Hso | ]. split; [ exact Hvs | ]. destruct field as [vo | ].
    + apply andb_true_iff in H. destruct H as [Hlt H]. apply Z.ltb_lt in Hlt.
      destruct (stored packer.voffset buf (o + so - 4)) as [fo | ] eqn:Hfo; [ | discriminate ].
      apply stored_Some in Hfo. apply andb_true_iff in H. destruct H as [Hne H].
      apply negb_true_iff, Z.eqb_neq in Hne. apply holdsb_spec in H.
      split; [ exact Hlt | ]. exists fo. auto.
    + apply orb_true_iff in H. destruct H as [H | H];
        [ left; apply Z.leb_le, H | right; apply holdsb_spec, H ].
  - intros (so & vsize & Hso & Hvs & H). apply stored_Some in Hso, Hvs.
    rewrite Hso, Hvs. destruct field as [vo | ].
    + destruct H as (Hlt & fo & Hfo & Hne & H). apply stored_Some in Hfo. rewrite Hfo.
      apply Z.ltb_lt in Hlt. apply Z.eqb_neq in Hne. apply holdsb_spec in H.
      rewrite Hlt, Hne, H. reflexivity.
    + apply orb_true_iff. destruct H as [H | H];
        [ left; apply Z.leb_le, H | right; apply holdsb_spec, H ].
Qed.

(** The table says which vector it refers to. *)
Lemma field_target_spec buf o vo :
  opinfo_at buf o (Some vo) -> field_target buf o = Some vo.
Proof.
  intros (so & vsize & Hso & _ & _ & fo & Hfo & _ & H). unfold field_target.
  apply stored_Some in Hso, Hfo, H. rewrite Hso, Hfo, H. f_equal. lia.
Qed.

Lemma serializedb_spec buf v : serializedb buf v = true <-> serialized buf v.
Proof.
  unfold serializedb, serialized, root_at, pos_of. split.
  - destruct (encode.Get packer.uoffset buf 0) as [n | ] eqn:Hg; [ | discriminate ].
    cbv zeta. intros H. apply andb_true_iff in H. destruct H as [Ha H].
    apply Z.eqb_eq in Ha. exists (len buf - n).
    split; [ f_equal; lia | ]. split; [ exact Ha | ]. destruct v as [es | ].
    + destruct (field_target buf (len buf - n)) as [vo | ]; [ | discriminate ].
      rewrite !andb_true_iff, Z.eqb_eq, opinfo_atb_spec, vector_atb_spec in H.
      exists vo. tauto.
    + apply opinfo_atb_spec, H.
  - intros (o & Hroot & Ha & H). rewrite Hroot. cbv zeta.
    replace (len buf - (len buf - o - 0)) with o by lia.
    apply Z.eqb_eq in Ha. rewrite Ha. cbn [andb]. destruct v as [es | ].
    + destruct H as (vo & Hva & Htab & Hvec). rewrite (field_target_spec buf o vo Htab).
      apply Z.eqb_eq in Hva. apply opinfo_atb_spec in Htab. apply vector_atb_spec in Hvec.
      rewrite Hva, Htab, Hvec. reflexivity.
    + apply opinfo_atb_spec, H.
Qed.

#[export] Instance holds_Decidable p buf o v : Decidable (holds p buf o v) :=
  {| Decidable_witness := holdsb p buf o v; Decidable_spec := holdsb_spec p buf o v |}.

#[export] Instance vector_at_Decidable buf vo elems : Decidable (vector_at buf vo elems) :=
  {| Decidable_witness := vector_atb buf vo elems;
     Decidable_spec := vector_atb_spec buf vo elems |}.

#[export] Instance opinfo_at_Decidable buf o field : Decidable (opinfo_at buf o field) :=
  {| Decidable_witness := opinfo_atb buf o field;
     Decidable_spec := opinfo_atb_spec buf o field |}.

#[export] Instance serialized_Decidable buf v : Decidable (serialized buf v) :=
  {| Decidable_witness := serializedb buf v; Decidable_spec := serializedb_spec buf v |}.

(** Proves a decidable statement about concrete data by evaluation. *)
Ltac by_decide :=
  match goal with
  | |- ?P => apply (Decidable_sound P ltac:(typeclasses eauto)); vm_compute; reflexivity
  end.

(** ** The sample buffers *)

Lemma serialized_sample_absent : serialized sample_absent None.
Proof. by_decide. Qed.

Lemma serialized_sample_empty : serialized sample_empty (Some []).
Proof. by_decide. Qed.

Lemma serialized_sample_short : serialized sample_short None.
Proof. by_decide. Qed.
