(* ===== verification/BuilderLemmas.v ===== *)
(** * BuilderLemmas: what each builder operation writes

    For every operation of [BuilderCore] the lemmas of this file give the
    result and the next state in closed form, under the conditions in which
    the operation succeeds, and the error otherwise.  The next state is
    written with [prepend]: the operation's bytes in front of the bytes that
    were there.  They are the equations the theorems about the functions of
    [OpInfo.py] are proved with. *)

From Stdlib Require Import ZArith List Lia Bool.
From coqutil Require Import Byte Word.LittleEndianList.
From S2P Require Import Prelude ByteBuffer TableView BuilderCore OpInfo Layout.
Import ListNotations.
#[local] Open Scope Z_scope.
#[local] Open Scope fb_scope.

(** [bs] in front of what is written, and the largest alignment raised to
    [size]. *)
Definition prepend (bs : bytes) (b : Builder.t) : Builder.t :=
  Builder.with_Bytes (bs ++ Builder.Bytes b) b.

Definition aligned_to (size : Z) (b : Builder.t) : Builder.t :=
  Builder.with_minalign (Z.max (Builder.minalign b) size) b.

(** The padding [Prep size additional] writes in state [b]. *)
Definition pad_of (b : Builder.t) (size additional : Z) : Z :=
  align_pad (Builder.Offset b) size additional.

(** Unfolds the monad, leaving the guards. *)
Ltac run_state :=
  cbv [sbind sget sput sret sfail Builder.modify Builder.assertNested
       Builder.assertNotNested Builder.PlaceBytes Builder.Pad].

(** Two states with the same fields are equal. *)
Lemma state_eq (x y : Builder.t) :
  Builder.Bytes x = Builder.Bytes y ->
  Builder.current_vtable x = Builder.current_vtable y ->
  Builder.objectEnd x = Builder.objectEnd y ->
  Builder.vtables x = Builder.vtables y ->
  Builder.nested x = Builder.nested y ->
  Builder.vectorNumElems x = Builder.vectorNumElems y ->
  Builder.minalign x = Builder.minalign y ->
  Builder.finished x = Builder.finished y ->
  x = y.
Proof. destruct x, y; cbn; intros; subst; reflexivity. Qed.

(** The fields of a state built with the setters. *)
Ltac fields :=
  cbn [Builder.Bytes Builder.current_vtable Builder.objectEnd Builder.vtables
       Builder.nested Builder.vectorNumElems Builder.minalign Builder.finished
       Builder.with_Bytes Builder.with_current_vtable Builder.with_objectEnd
       Builder.with_vtables Builder.with_nested Builder.with_vectorNumElems
       Builder.with_minalign Builder.with_finished prepend aligned_to] in *.

Ltac state_eq := apply state_eq; fields; try reflexivity.

Section Steps.
Implicit Types (b : Builder.t) (x off size n : Z) (p : packer.t).

Lemma Offset_prepend bs b :
  Builder.Offset (prepend bs b) = len bs + Builder.Offset b.
Proof. unfold Builder.Offset, prepend. cbn. len_solve. Qed.

Lemma Offset_nonneg b : 0 <= Builder.Offset b.
Proof. unfold Builder.Offset. lia. Qed.

Lemma run_Place x p b :
  packer.fits p x = true ->
  Builder.Place x p b = Ok (tt, prepend (packer.pack p x) b).
Proof. intros H. unfold Builder.Place. run_state. rewrite H. reflexivity. Qed.

Lemma Place_Err x p b :
  packer.fits p x = false -> Builder.Place x p b = Err PreconditionViolation.
Proof. intros H. unfold Builder.Place. run_state. rewrite H. reflexivity. Qed.

Lemma run_Prep size additional b :
  Builder.Prep size additional b
  = Ok (tt, prepend (zeros (pad_of b size additional)) (aligned_to size b)).
Proof. reflexivity. Qed.

(** When the offset is already right, [Prep] writes nothing. *)
Lemma run_Prep_aligned size additional b :
  0 < size -> (Builder.Offset b + additional) mod size = 0 ->
  Builder.Prep size additional b = Ok (tt, aligned_to size b).
Proof.
  intros Hs Ha. rewrite run_Prep. unfold pad_of.
  rewrite align_pad_0 by assumption. destruct b; reflexivity.
Qed.

Lemma run_PrependUOffsetTRelative off b :
  let pad := pad_of b 4 0 in
  off <= Builder.Offset b + pad ->
  Builder.Offset b + pad - off + 4 < 2 ^ 32 ->
  Builder.PrependUOffsetTRelative off b
  = Ok (tt, prepend (packer.pack packer.uoffset (Builder.Offset b + pad - off + 4))
              (prepend (zeros pad) (aligned_to 4 b))).
Proof.
  intros pad Hle Hlt. unfold Builder.PrependUOffsetTRelative.
  rewrite (sbind_Ok _ _ _ _ _ (run_Prep 4 0 b)). fold pad.
  assert (Hp : 0 <= pad < 4) by (apply align_pad_range; lia).
  assert (Ho : Builder.Offset (prepend (zeros pad) (aligned_to 4 b)) = Builder.Offset b + pad).
  { rewrite Offset_prepend, length_zeros. unfold aligned_to, Builder.Offset. cbn. lia. }
  run_state. rewrite Ho.
  destruct (Z.leb_spec off (Builder.Offset b + pad)); [ | lia ]. cbn [assert].
  apply run_Place, fits_uoffset. lia.
Qed.

Lemma run_PrependSOffsetTRelative_0 b :
  let pad := pad_of b 4 0 in
  Builder.Offset b + pad + 4 < 2 ^ 31 ->
  Builder.PrependSOffsetTRelative 0 b
  = Ok (tt, prepend (packer.pack packer.soffset (Builder.Offset b + pad + 4))
              (prepend (zeros pad) (aligned_to 4 b))).
Proof.
  intros pad Hlt. unfold Builder.PrependSOffsetTRelative.
  rewrite (sbind_Ok _ _ _ _ _ (run_Prep 4 0 b)). fold pad.
  assert (Hp : 0 <= pad < 4) by (apply align_pad_range; lia).
  assert (Ho : Builder.Offset (prepend (zeros pad) (aligned_to 4 b)) = Builder.Offset b + pad).
  { rewrite Offset_prepend, length_zeros. unfold aligned_to, Builder.Offset. cbn. lia. }
  run_state. rewrite Ho. pose proof (Offset_nonneg b).
  destruct (Z.leb_spec 0 (Builder.Offset b + pad)); [ | lia ]. cbn [assert].
  rewrite Z.sub_0_r. apply run_Place, fits_soffset. lia.
Qed.

(** ** Objects *)

Lemma run_StartObject numfields b :
  Builder.StartObject numfields b
  = if Builder.nested b then Err PreconditionViolation
    else Ok (tt, Builder.with_nested true
                   (Builder.with_objectEnd (Builder.Offset b)
                      (Builder.with_current_vtable
                         (Some (repeat 0 (Z.to_nat numfields))) b))).
Proof. unfold Builder.StartObject. run_state. destruct (Builder.nested b); reflexivity. Qed.

Lemma run_Slot slotnum b vt :
  Builder.nested b = true -> Builder.current_vtable b = Some vt ->
  0 <= slotnum < len vt ->
  Builder.Slot slotnum b
  = Ok (tt, Builder.with_current_vtable
              (Some (List.upd vt (Z.to_nat slotnum) (Builder.Offset b))) b).
Proof.
  intros Hn Hvt Hs. unfold Builder.Slot. run_state. rewrite Hn. cbn [assert].
  run_state. rewrite Hvt.
  destruct (Z.leb_spec 0 slotnum), (Z.ltb_spec slotnum (len vt)); try lia.
  reflexivity.
Qed.

(** The default value is not written. *)
Lemma run_PrependUOffsetTRelativeSlot_default o d b :
  Builder.PrependUOffsetTRelativeSlot o d d b = Ok (tt, b).
Proof. unfold Builder.PrependUOffsetTRelativeSlot. rewrite Z.eqb_refl. reflexivity. Qed.

Lemma run_PrependUOffsetTRelativeSlot o x d b vt :
  let pad := pad_of b 4 0 in
  x <> d ->
  Builder.nested b = true -> Builder.current_vtable b = Some vt ->
  0 <= o < len vt ->
  x <= Builder.Offset b + pad ->
  Builder.Offset b + pad - x + 4 < 2 ^ 32 ->
  Builder.PrependUOffsetTRelativeSlot o x d b
  = Ok (tt, Builder.with_current_vtable
              (Some (List.upd vt (Z.to_nat o) (Builder.Offset b + pad + 4)))
              (prepend (packer.pack packer.uoffset (Builder.Offset b + pad - x + 4))
                 (prepend (zeros pad) (aligned_to 4 b)))).
Proof.
  intros pad Hne Hn Hvt Ho Hle Hlt. unfold Builder.PrependUOffsetTRelativeSlot.
  apply Z.eqb_neq in Hne. rewrite Hne. cbn [negb].
  rewrite (sbind_Ok _ _ _ _ _ (run_PrependUOffsetTRelative x b Hle Hlt)).
  rewrite (run_Slot o _ vt) by assumption.
  rewrite !Offset_prepend, length_pack, length_zeros.
  assert (0 <= pad < 4) by (apply align_pad_range; lia).
  change (Builder.Offset (aligned_to 4 b)) with (Builder.Offset b).
  cbn [packer.bytewidth]. fold pad.
  replace (Z.of_nat 4 + (Z.max 0 pad + Builder.Offset b))
    with (Builder.Offset b + pad + 4) by lia.
  reflexivity.
Qed.

(** ** Vectors *)

Lemma run_StartVector elemSize numElems alignment b :
  Builder.nested b = false ->
  let b0 := Builder.with_vectorNumElems (Some numElems) (Builder.with_nested true b) in
  let b1 := prepend (zeros (pad_of b 4 (elemSize * numElems))) (aligned_to 4 b0) in
  let b2 := prepend (zeros (pad_of b1 alignment (elemSize * numElems)))
              (aligned_to alignment b1) in
  Builder.StartVector elemSize numElems alignment b = Ok (Builder.Offset b2, b2).
Proof.
  intros Hn. unfold Builder.StartVector. run_state. rewrite Hn. reflexivity.
Qed.

Lemma StartVector_nested elemSize numElems alignment b :
  Builder.nested b = true ->
  Builder.StartVector elemSize numElems alignment b = Err PreconditionViolation.
Proof.
  intros Hn. unfold Builder.StartVector. run_state. rewrite Hn. reflexivity.
Qed.

Lemma run_EndVector n b :
  Builder.nested b = true -> Builder.vectorNumElems b = Some n ->
  0 <= n < 2 ^ 32 ->
  let b' := Builder.with_vectorNumElems None
              (prepend (packer.pack packer.uoffset n) (Builder.with_nested false b)) in
  Builder.EndVector b = Ok (Builder.Offset b', b').
Proof.
  intros Hn Hv Hr. unfold Builder.EndVector. run_state. rewrite Hn. cbn [assert].
  run_state. cbn [Builder.vectorNumElems Builder.with_nested]. rewrite Hv.
  rewrite run_Place by (apply fits_uoffset; exact Hr). reflexivity.
Qed.

Lemma EndVector_not_nested b :
  Builder.nested b = false -> Builder.EndVector b = Err PreconditionViolation.
Proof. intros Hn. unfold Builder.EndVector. run_state. rewrite Hn. reflexivity. Qed.

End Steps.
