(* ===== verification/Registry.v ===== *)
(** * Registry: the vtables a builder remembers

    [Builder.WriteVtable] ends a table.  It computes the bytes of the
    table's vtable, looks among the vtables the builder remembers
    ([Builder.vtables]) for one with the same bytes ([Builder.find_vtable]),
    and either lets the table refer to it or writes the vtable in front of
    the table and remembers it.

    [images b] are the bytes of the remembered vtables, in the order of the
    registry; [distinct b] says that no two of them are the same and none is
    empty.  The lemmas give [WriteVtable] in closed form in its two cases,
    the table it leaves in the buffer, and that it keeps the registry
    distinct: a vtable is written only when no remembered one has its bytes. *)

From Stdlib Require Import ZArith List Lia Bool.
From coqutil Require Import Byte Word.LittleEndianList.
From S2P Require Import Prelude ByteBuffer TableView BuilderCore OpInfo Layout BuilderLemmas.
Import ListNotations.
#[local] Open Scope Z_scope.
#[local] Open Scope fb_scope.

(** The bytes of the remembered vtables. *)
Definition images (b : Builder.t) : list bytes :=
  map (Builder.vtable_at (Builder.Bytes b)) (Builder.vtables b).

Definition distinct (b : Builder.t) : Prop :=
  NoDup (images b) /\ ~ In [] (images b).

(** ** Vtables in a buffer *)

Lemma length_vtable_image (fs : list Z) :
  len (Builder.vtable_image fs) = 2 * len fs.
Proof. unfold Builder.vtable_image. rewrite length_flat_map_pack. cbn [packer.bytewidth]. lia. Qed.

Lemma length_vtable_fields vt oo oe :
  len (Builder.vtable_fields vt oo oe) = len vt + 2.
Proof. unfold Builder.vtable_fields. cbn [length]. rewrite length_map. lia. Qed.

(** A vtable found by its bytes lies inside the buffer, and its bytes are
    there. *)
Lemma vtable_at_image (buf image : bytes) (o : Z) :
  Builder.vtable_at buf o = image -> image <> [] ->
  2 <= o <= len buf /\ slice buf (len buf - o) (length image) = image.
Proof.
  unfold Builder.vtable_at. cbv zeta.
  destruct (encode.Get packer.voffset buf (len buf - o)) as [n | e] eqn:Hg;
    [ | congruence ].
  intros Hs Hne. apply Get_in_bounds in Hg. cbn [packer.bytewidth] in Hg.
  split; [ lia | ].
  rewrite <- Hs at 2. rewrite <- Hs. unfold slice.
  rewrite length_firstn.
  destruct (Nat.le_gt_cases (Z.to_nat n) (length (skipn (Z.to_nat (len buf - o)) buf))).
  - rewrite Nat.min_l by assumption. reflexivity.
  - rewrite Nat.min_r, firstn_all, firstn_all2 by lia. reflexivity.
Qed.

Lemma find_vtable_Some (buf image : bytes) (vts : list Z) (o : Z) :
  Builder.find_vtable buf image vts = Some o ->
  In o vts /\ Builder.vtable_at buf o = image.
Proof.
  unfold Builder.find_vtable. intros H. apply find_some in H.
  rewrite bytes_eqb_eq in H. exact H.
Qed.

(** The numbers of a vtable whose bytes are in the buffer are stored there,
    two bytes apart. *)
Lemma holds_image (buf : bytes) (o : Z) (fs : list Z) :
  slice buf (len buf - o) (length (Builder.vtable_image fs)) = Builder.vtable_image fs ->
  0 <= o <= len buf ->
  forallb (packer.fits packer.voffset) fs = true ->
  forall k v, nth_error fs k = Some v ->
    holds packer.voffset buf (o - 2 * Z.of_nat k) v.
Proof.
  intros Hs Ho Hf k v Hk. unfold holds, pos_of.
  rewrite <- (firstn_skipn (Z.to_nat (len buf - o)) buf) at 1.
  rewrite <- (firstn_skipn (length (Builder.vtable_image fs))
                (skipn (Z.to_nat (len buf - o)) buf)).
  fold (slice buf (len buf - o) (length (Builder.vtable_image fs))). rewrite Hs.
  replace (len buf - (o - 2 * Z.of_nat k))
    with (len (firstn (Z.to_nat (len buf - o)) buf)
          + Z.of_nat (packer.bytewidth packer.voffset) * Z.of_nat k)
    by (cbn [packer.bytewidth]; len_solve).
  apply Get_flat_map; [ exact Hk | ].
  rewrite forallb_forall in Hf. eapply Hf, nth_error_In, Hk.
Qed.

(** A vtable whose bytes are in the buffer is found there by its offset. *)
Lemma vtable_at_bytes_at (buf : bytes) (v : Z) (fs : list Z) :
  bytes_at buf v (Builder.vtable_image fs) ->
  nth_error fs 0 = Some (len (Builder.vtable_image fs)) ->
  forallb (packer.fits packer.voffset) fs = true ->
  Builder.vtable_at buf v = Builder.vtable_image fs.
Proof.
  intros [Hr Hs] H0 Hf. unfold pos_of in Hs.
  pose proof (holds_image buf v fs Hs ltac:(lia) Hf 0 _ H0) as Hg.
  unfold holds, pos_of in Hg. rewrite Z.mul_0_r, Z.sub_0_r in Hg.
  unfold Builder.vtable_at. cbv zeta. rewrite Hg, Nat2Z.id. exact Hs.
Qed.

Lemma find_vtable_complete (buf image : bytes) (vts : list Z) (v : Z) :
  In v vts -> Builder.vtable_at buf v = image ->
  exists v', Builder.find_vtable buf image vts = Some v'.
Proof.
  intros Hin Hat. unfold Builder.find_vtable.
  destruct (find _ vts) as [v' | ] eqn:Hfind; [ eauto | ].
  pose proof (find_none _ _ Hfind v Hin) as Hn. cbv beta in Hn.
  apply bytes_eqb_eq in Hat. congruence.
Qed.

(** Bytes added in front do not change the vtable read at an offset. *)
Lemma vtable_at_prepend (pre buf : bytes) (v : Z) :
  v <= len buf -> Builder.vtable_at (pre ++ buf) v = Builder.vtable_at buf v.
Proof.
  intros Hv. unfold Builder.vtable_at. cbv zeta. rewrite Get_from_end by exact Hv.
  destruct (encode.Get packer.voffset buf (len buf - v)); [ | reflexivity ].
  replace (len (pre ++ buf) - v) with (len pre + (len buf - v)) by len_solve.
  apply slice_app_r. lia.
Qed.

Lemma images_prepend (pre : bytes) (b b' : Builder.t) :
  Forall (fun o => o <= Builder.Offset b) (Builder.vtables b) ->
  Builder.Bytes b' = pre ++ Builder.Bytes b ->
  Builder.vtables b' = Builder.vtables b ->
  images b' = images b.
Proof.
  intros Hwf Hb Hv. unfold images. rewrite Hv, Hb. apply map_ext_in.
  intros v Hin. apply vtable_at_prepend. rewrite Forall_forall in Hwf. exact (Hwf v Hin).
Qed.

Lemma distinct_init : distinct Builder.init.
Proof. split; [ constructor | intros [] ]. Qed.

Section Vtables.
Variable b : Builder.t.
Variable vt : list Z.
Hypothesis Hvt : Builder.current_vtable b = Some vt.

Let pad := pad_of b 4 0.
Let oo := Builder.Offset b + pad + 4.
Let fs := Builder.vtable_fields vt oo (Builder.objectEnd b).
Let image := Builder.vtable_image fs.
Let b0 := prepend (zeros pad) (aligned_to 4 b).
Let b1 := prepend (packer.pack packer.soffset oo) b0.

Hypothesis Hoo : oo < 2 ^ 31.
Hypothesis Hfits : forallb (packer.fits packer.voffset) fs = true.

Lemma pad_range : 0 <= pad < 4.
Proof. apply align_pad_range. lia. Qed.

Lemma Offset_b1 : Builder.Offset b1 = oo.
Proof.
  unfold b1, b0. rewrite !Offset_prepend, length_pack, length_zeros.
  change (Builder.Offset (aligned_to 4 b)) with (Builder.Offset b).
  pose proof pad_range. cbn [packer.bytewidth]. fold pad. unfold oo. lia.
Qed.

Lemma len_image : len image = 2 * (len vt + 2).
Proof.
  unfold image. rewrite length_vtable_image. unfold fs.
  rewrite length_vtable_fields. reflexivity.
Qed.

Lemma image_small : len image < 2 ^ 16.
Proof.
  rewrite len_image.
  assert (H : packer.fits packer.voffset (2 * (len vt + 2)) = true).
  { unfold fs, Builder.vtable_fields in Hfits. cbn [forallb] in Hfits.
    apply andb_true_iff in Hfits. tauto. }
  apply fits_voffset in H. lia.
Qed.

(** Up to the search for a vtable to share. *)
Lemma WriteVtable_search :
  Builder.WriteVtable b
  = sbind
      (match Builder.find_vtable (Builder.Bytes b1) image (Builder.vtables b) with
       | Some vt2Offset => Builder.patch_soffset oo (vt2Offset - oo)
       | None =>
           Builder.PlaceBytes image ;;;
           b' <~ sget ;;
           Builder.patch_soffset oo (Builder.Offset b' - oo) ;;;
           Builder.modify (Builder.with_vtables (Builder.Offset b' :: Builder.vtables b'))
       end)
      (fun _ => Builder.modify (Builder.with_current_vtable None) ;;; sret oo) b1.
Proof.
  unfold Builder.WriteVtable.
  rewrite (sbind_Ok _ _ _ _ _ (run_PrependSOffsetTRelative_0 b Hoo)).
  fold pad oo b0 b1. unfold sbind at 1, sget at 1.
  rewrite Offset_b1. change (Builder.current_vtable b1) with (Builder.current_vtable b).
  rewrite Hvt. change (Builder.objectEnd b1) with (Builder.objectEnd b).
  fold fs image. unfold sbind at 1. rewrite Hfits. cbn [assert sret].
  reflexivity.
Qed.

(** No vtable to share: the vtable is written in front of the table, and
    remembered. *)
Lemma WriteVtable_new :
  Builder.find_vtable (Builder.Bytes b1) image (Builder.vtables b) = None ->
  Builder.WriteVtable b
  = Ok (oo, Builder.with_current_vtable None
              (Builder.with_vtables (oo + len image :: Builder.vtables b)
                 (prepend image (prepend (packer.pack packer.soffset (len image)) b0)))).
Proof.
  intros Hfind. rewrite WriteVtable_search, Hfind.
  pose proof image_small.
  assert (Hw : encode.Write packer.soffset (image ++ packer.pack packer.soffset oo ++ Builder.Bytes b0)
                 (len image) (len image)
               = Ok (image ++ packer.pack packer.soffset (len image) ++ Builder.Bytes b0)).
  { apply Write_pack, fits_soffset. lia. }
  run_state. unfold Builder.patch_soffset. fields.
  assert (Ho : Builder.Offset (Builder.with_Bytes (image ++ Builder.Bytes b1) b1) = oo + len image).
  { unfold Builder.Offset. fields. rewrite length_app, Nat2Z.inj_add.
    fold (Builder.Offset b1). rewrite Offset_b1. lia. }
  rewrite Ho.
  replace (len (image ++ Builder.Bytes b1) - oo) with (len image)
    by (rewrite length_app, Nat2Z.inj_add; fold (Builder.Offset b1); rewrite Offset_b1; lia).
  replace (oo + len image - oo) with (len image) by lia.
  unfold b1 at 1. fields. rewrite Hw. cbn [bind].
  reflexivity.
Qed.

Lemma image_nonempty : image <> [].
Proof.
  intros H. apply (f_equal (@length byte)) in H. apply (f_equal Z.of_nat) in H.
  unfold image in H. rewrite length_vtable_image in H. unfold fs in H.
  rewrite length_vtable_fields in H. cbn [length] in H. lia.
Qed.

(** A vtable with the same bytes was written before: the table refers to
    it, and no vtable is written. *)
Lemma WriteVtable_shared vt2Offset :
  Builder.find_vtable (Builder.Bytes b1) image (Builder.vtables b) = Some vt2Offset ->
  Builder.WriteVtable b
  = Ok (oo, Builder.with_current_vtable None
              (prepend (packer.pack packer.soffset (vt2Offset - oo)) b0)).
Proof.
  intros Hfind. rewrite WriteVtable_search, Hfind.
  apply find_vtable_Some in Hfind. destruct Hfind as [_ Hat].
  apply vtable_at_image in Hat; [ | apply image_nonempty ].
  destruct Hat as [Hr _]. fold (Builder.Offset b1) in Hr. rewrite Offset_b1 in Hr.
  run_state. unfold Builder.patch_soffset.
  fold (Builder.Offset b1). rewrite Offset_b1, Z.sub_diag.
  pose proof (Write_pack packer.soffset [] (Builder.Bytes b0) oo (vt2Offset - oo)) as Hw.
  cbn [app length] in Hw. change (Z.of_nat 0) with 0 in Hw. unfold b1 at 1. fields.
  rewrite Hw by (apply fits_soffset; lia). reflexivity.
Qed.

Lemma fs_fit k v : nth_error fs k = Some v -> packer.fits packer.voffset v = true.
Proof.
  intros Hk. pose proof Hfits as Hf. rewrite forallb_forall in Hf.
  eapply Hf, nth_error_In, Hk.
Qed.

Lemma oo_lower : len (Builder.Bytes b) + 4 <= oo.
Proof. pose proof pad_range. unfold oo, Builder.Offset. lia. Qed.

Lemma Bytes_b0 : Builder.Bytes b0 = zeros pad ++ Builder.Bytes b.
Proof. reflexivity. Qed.

Lemma len_b0 : len (Builder.Bytes b0) = oo - 4.
Proof.
  pose proof Offset_b1 as Ho. unfold b1 in Ho.
  rewrite Offset_prepend, length_pack in Ho. unfold Builder.Offset in Ho.
  cbn [packer.bytewidth] in Ho. lia.
Qed.

(** The table with a vtable of its own. *)
Lemma table_at_new :
  table_at (image ++ packer.pack packer.soffset (len image) ++ Builder.Bytes b0) oo fs.
Proof.
  pose proof image_small. pose proof len_b0.
  exists (len image). split.
  - unfold holds, pos_of.
    replace (len (image ++ _) - oo) with (len image) by len_solve.
    apply Get_pack, fits_soffset. lia.
  - intros k v Hk. unfold holds, pos_of.
    replace (len (image ++ _) - _)
      with (len (@nil byte) + Z.of_nat (packer.bytewidth packer.voffset) * Z.of_nat k)
      by (cbn [packer.bytewidth length]; len_solve).
    apply (Get_flat_map packer.voffset [] _ fs k v Hk), (fs_fit k v Hk).
Qed.

(** The table that shares the vtable at offset [vt2Offset], written before. *)
Lemma table_at_shared vt2Offset :
  Builder.vtable_at (Builder.Bytes b1) vt2Offset = image ->
  vt2Offset <= Builder.Offset b ->
  table_at (packer.pack packer.soffset (vt2Offset - oo) ++ Builder.Bytes b0) oo fs.
Proof.
  intros Hat Hle. apply vtable_at_image in Hat; [ | apply image_nonempty ].
  destruct Hat as [Hr Hs]. pose proof pad_range. pose proof len_b0 as Hb0.
  unfold Builder.Offset in Hle. change (Builder.Bytes b1)
    with (packer.pack packer.soffset oo ++ Builder.Bytes b0) in Hs.
  assert (Hle0 : vt2Offset <= len (Builder.Bytes b0)) by (rewrite Bytes_b0; len_solve).
  exists (vt2Offset - oo). split.
  - unfold holds, pos_of.
    replace (len (_ ++ _) - oo) with (len (@nil byte)) by (cbn [length]; len_solve).
    apply (Get_pack packer.soffset [] _ (vt2Offset - oo)), fits_soffset. lia.
  - intros k v Hk. replace (oo + (vt2Offset - oo)) with vt2Offset by lia.
    apply holds_prepend. apply (holds_image _ vt2Offset fs); try assumption; [ | lia ].
    etransitivity; [ | exact Hs ].
    replace (len (packer.pack packer.soffset oo ++ Builder.Bytes b0) - vt2Offset)
      with (len (packer.pack packer.soffset oo) + (len (Builder.Bytes b0) - vt2Offset))
      by len_solve.
    rewrite slice_app_r by lia. reflexivity.
Qed.

(** [WriteVtable] closes the table: in front of what was written lies a
    table whose vtable holds the numbers [fs]; the vtables remembered lie in
    the bytes written. *)
Lemma WriteVtable_table :
  Forall (fun o => o <= Builder.Offset b) (Builder.vtables b) ->
  exists (pre : bytes) (vts : list Z),
    Builder.WriteVtable b
    = Ok (oo, Builder.mk (pre ++ Builder.Bytes b) None (Builder.objectEnd b) vts
                (Builder.nested b) (Builder.vectorNumElems b)
                (Z.max (Builder.minalign b) 4) (Builder.finished b)) /\
    Forall (fun o => o <= len (pre ++ Builder.Bytes b)) vts /\
    oo <= len (pre ++ Builder.Bytes b) <= oo + 2 * (len vt + 2) /\
    table_at (pre ++ Builder.Bytes b) oo fs.
Proof.
  intros Hwf. pose proof oo_lower. pose proof len_b0 as Hb0.
  unfold Builder.Offset in Hwf.
  destruct (Builder.find_vtable (Builder.Bytes b1) image (Builder.vtables b))
    as [vt2 | ] eqn:Hfind.
  - rewrite (WriteVtable_shared _ Hfind). apply find_vtable_Some in Hfind.
    destruct Hfind as [Hin Hat]. rewrite Forall_forall in Hwf.
    exists (packer.pack packer.soffset (vt2 - oo) ++ zeros pad), (Builder.vtables b).
    rewrite <- !app_assoc. rewrite <- Bytes_b0.
    split; [ reflexivity | ]. split; [ | split ].
    + apply Forall_forall. intros o Ho'. specialize (Hwf o Ho'). len_solve.
    + len_solve.
    + apply table_at_shared; [ exact Hat | apply Hwf, Hin ].
  - rewrite (WriteVtable_new Hfind).
    exists (image ++ packer.pack packer.soffset (len image) ++ zeros pad),
           (oo + len image :: Builder.vtables b).
    rewrite <- !app_assoc. rewrite <- Bytes_b0.
    pose proof len_image.
    split; [ reflexivity | ]. split; [ | split; [ len_solve | apply table_at_new ] ].
    constructor; [ len_solve | ].
    eapply Forall_impl; [ | exact Hwf ]. cbn. intros. len_solve.
Qed.

(** Deduplication: when the bytes of the vtable are already in the buffer,
    at an offset the builder remembers, no vtable is written; the table
    refers to a remembered vtable of the same bytes. *)
Lemma WriteVtable_dedup v :
  In v (Builder.vtables b) -> bytes_at (Builder.Bytes b) v image ->
  exists v' b',
    Builder.WriteVtable b = Ok (oo, b') /\
    In v' (Builder.vtables b) /\
    Builder.vtables b' = Builder.vtables b /\
    Builder.Offset b' = oo /\
    holds packer.soffset (Builder.Bytes b') oo (v' - oo).
Proof.
  intros Hin Hat.
  assert (Hat1 : Builder.vtable_at (Builder.Bytes b1) v = image).
  { apply vtable_at_bytes_at; [ | unfold fs at 1, Builder.vtable_fields; cbn [nth_error];
                                  fold fs image; rewrite len_image; reflexivity
                                | exact Hfits ].
    apply bytes_at_prepend. rewrite Bytes_b0. apply bytes_at_prepend, Hat. }
  destruct (find_vtable_complete _ _ _ _ Hin Hat1) as (v' & Hfind).
  pose proof (find_vtable_Some _ _ _ _ Hfind) as [Hin' Hat'].
  exists v'. eexists. split; [ apply WriteVtable_shared, Hfind | ].
  apply vtable_at_image in Hat'; [ | apply image_nonempty ].
  destruct Hat' as [Hr _]. fold (Builder.Offset b1) in Hr. rewrite Offset_b1 in Hr.
  pose proof len_b0 as Hl. split; [ exact Hin' | ]. split; [ reflexivity | ].
  assert (Ho : len (packer.pack packer.soffset (v' - oo) ++ Builder.Bytes b0) = oo)
    by len_solve.
  split; [ exact Ho | ].
  change (encode.Get packer.soffset (packer.pack packer.soffset (v' - oo) ++ Builder.Bytes b0)
            (len (packer.pack packer.soffset (v' - oo) ++ Builder.Bytes b0) - oo)
          = Ok (v' - oo)).
  rewrite Ho, Z.sub_diag.
  apply (Get_pack packer.soffset [] _ (v' - oo)), fits_soffset. lia.
Qed.

(** The vtable just written is read back at its offset. *)
Lemma vtable_at_new (rest : bytes) :
  Builder.vtable_at (image ++ rest) (len (image ++ rest)) = image.
Proof.
  apply vtable_at_bytes_at; [ apply bytes_at_here | | exact Hfits ].
  unfold fs at 1, Builder.vtable_fields. cbn [nth_error].
  fold fs image. rewrite len_image. reflexivity.
Qed.

(** No remembered vtable has the bytes of a vtable the search did not find. *)
Lemma image_fresh :
  Forall (fun o => o <= Builder.Offset b) (Builder.vtables b) ->
  Builder.find_vtable (Builder.Bytes b1) image (Builder.vtables b) = None ->
  ~ In image (images b).
Proof.
  intros Hwf Hfind Hin. apply in_map_iff in Hin. destruct Hin as (v & Hat & Hin).
  rewrite Forall_forall in Hwf. specialize (Hwf v Hin).
  assert (Hat1 : Builder.vtable_at (Builder.Bytes b1) v = image).
  { change (Builder.Bytes b1)
      with ((packer.pack packer.soffset oo ++ zeros pad) ++ Builder.Bytes b) at 1.
    rewrite vtable_at_prepend; assumption. }
  destruct (find_vtable_complete _ _ _ _ Hin Hat1) as (v' & Hsome). congruence.
Qed.

(** The registry after a vtable was written. *)
Lemma images_new :
  Forall (fun o => o <= Builder.Offset b) (Builder.vtables b) ->
  images (Builder.with_current_vtable None
            (Builder.with_vtables (oo + len image :: Builder.vtables b)
               (prepend image (prepend (packer.pack packer.soffset (len image)) b0))))
  = image :: images b.
Proof.
  intros Hwf. unfold images. fields. cbn [map]. pose proof len_b0. f_equal.
  - replace (oo + len image)
      with (len (image ++ packer.pack packer.soffset (len image) ++ Builder.Bytes b0))
      by len_solve.
    apply vtable_at_new.
  - apply map_ext_in. intros v Hin. rewrite Forall_forall in Hwf. specialize (Hwf v Hin).
    rewrite Bytes_b0, !app_assoc. apply vtable_at_prepend. exact Hwf.
Qed.

(** [WriteVtable] leaves the nesting flag as it is. *)
Lemma WriteVtable_nested o b' :
  Builder.WriteVtable b = Ok (o, b') -> Builder.nested b' = Builder.nested b.
Proof.
  destruct (Builder.find_vtable (Builder.Bytes b1) image (Builder.vtables b))
    as [vt2 | ] eqn:Hfind;
    [ rewrite (WriteVtable_shared _ Hfind) | rewrite (WriteVtable_new Hfind) ];
    intros [= _ <-]; reflexivity.
Qed.

(** [WriteVtable] keeps the registry distinct: the vtable it remembers is
    one whose bytes no remembered vtable has. *)
Lemma WriteVtable_distinct o b' :
  Forall (fun o => o <= Builder.Offset b) (Builder.vtables b) ->
  distinct b -> Builder.WriteVtable b = Ok (o, b') -> distinct b'.
Proof.
  intros Hwf [Hnd Hne].
  destruct (Builder.find_vtable (Builder.Bytes b1) image (Builder.vtables b))
    as [vt2 | ] eqn:Hfind.
  - rewrite (WriteVtable_shared _ Hfind). intros H.
    replace b' with (Builder.with_current_vtable None
                       (prepend (packer.pack packer.soffset (vt2 - oo)) b0)) by congruence.
    unfold distinct.
    rewrite (images_prepend (packer.pack packer.soffset (vt2 - oo) ++ zeros pad) b);
      [ auto | exact Hwf | fields; rewrite <- app_assoc; reflexivity | reflexivity ].
  - rewrite (WriteVtable_new Hfind). intros H.
    replace b' with (Builder.with_current_vtable None
            (Builder.with_vtables (oo + len image :: Builder.vtables b)
               (prepend image (prepend (packer.pack packer.soffset (len image)) b0))))
      by congruence.
    unfold distinct. rewrite (images_new Hwf).
    split; [ constructor; [ exact (image_fresh Hwf Hfind) | exact Hnd ] | ].
    intros [Hi | Hi]; [ exact (image_nonempty Hi) | exact (Hne Hi) ].
Qed.

End Vtables.

(** ** When [WriteVtable] succeeds *)

Lemma PrependSOffsetTRelative_0_Err b :
  2 ^ 31 <= Builder.Offset b + pad_of b 4 0 + 4 ->
  Builder.PrependSOffsetTRelative 0 b = Err PreconditionViolation.
Proof.
  intros Hge. unfold Builder.PrependSOffsetTRelative.
  rewrite (sbind_Ok _ _ _ _ _ (run_Prep 4 0 b)).
  assert (Hp : 0 <= pad_of b 4 0 < 4) by (apply align_pad_range; lia).
  assert (Ho : Builder.Offset (prepend (zeros (pad_of b 4 0)) (aligned_to 4 b))
               = Builder.Offset b + pad_of b 4 0).
  { rewrite Offset_prepend, length_zeros. unfold aligned_to, Builder.Offset. cbn. lia. }
  run_state. rewrite Ho. pose proof (Offset_nonneg b).
  destruct (Z.leb_spec 0 (Builder.Offset b + pad_of b 4 0)); [ | lia ]. cbn [assert].
  rewrite Z.sub_0_r. apply Place_Err, not_true_is_false.
  rewrite fits_soffset. lia.
Qed.

(** A table is closed only when one was started, its offset fits 31 bits
    and its fields fit their vtable. *)
Lemma WriteVtable_Ok_inv b o b' :
  Builder.WriteVtable b = Ok (o, b') ->
  exists vt,
    Builder.current_vtable b = Some vt /\
    Builder.Offset b + pad_of b 4 0 + 4 < 2 ^ 31 /\
    forallb (packer.fits packer.voffset)
      (Builder.vtable_fields vt (Builder.Offset b + pad_of b 4 0 + 4)
         (Builder.objectEnd b)) = true.
Proof.
  intros H.
  destruct (Z.lt_ge_cases (Builder.Offset b + pad_of b 4 0 + 4) (2 ^ 31)) as [Hoo | Hoo];
    [ | unfold Builder.WriteVtable in H;
        rewrite (sbind_Err _ _ _ _ (PrependSOffsetTRelative_0_Err b Hoo)) in H;
        discriminate ].
  revert H. unfold Builder.WriteVtable.
  rewrite (sbind_Ok _ _ _ _ _ (run_PrependSOffsetTRelative_0 b Hoo)).
  unfold sbind at 1, sget at 1. rewrite Offset_prepend, Offset_prepend, length_zeros.
  cbn [Builder.current_vtable Builder.objectEnd prepend aligned_to
       Builder.with_Bytes Builder.with_minalign].
  destruct (Builder.current_vtable b) as [vt | ]; [ | discriminate ].
  assert (Hp : 0 <= pad_of b 4 0 < 4) by (apply align_pad_range; lia).
  replace (len (packer.pack packer.soffset (Builder.Offset b + pad_of b 4 0 + 4))
           + (Z.max 0 (pad_of b 4 0) + Builder.Offset (aligned_to 4 b)))
    with (Builder.Offset b + pad_of b 4 0 + 4)
    by (change (Builder.Offset (aligned_to 4 b)) with (Builder.Offset b); len_solve).
  intros H. exists vt. split; [ reflexivity | ]. split; [ exact Hoo | ].
  destruct (forallb _ _); [ reflexivity | discriminate H ].
Qed.
