(* ===== verification/BuilderSpec.v ===== *)
(** * BuilderSpec: what the builder's operations establish

    The postconditions of the builder's composite operations, in the
    vocabulary of [Layout]: after [EndObject] a table lies at the offset
    returned; after the elements and [EndVector] a vector lies there; after
    [Finish] the root offset refers to the root table.  [post m b Q] says
    that [m] succeeds in state [b] with a result and a state that satisfy
    [Q].  [grows b b'] says that [b'] was obtained from [b] by writing in
    front, which keeps every layout predicate: [grows] and [wrote] are
    preorders, and a hypothesis [grows b b'] rewrites a layout predicate on
    [Bytes b'] into the same on [Bytes b].  [wf] is the invariant of the
    builder: the vtables it remembers lie in the bytes written, and the
    alignment is positive. *)

From Stdlib Require Import ZArith List Lia Bool Morphisms RelationClasses.
From coqutil Require Import Byte Word.LittleEndianList.
From S2P Require Import Prelude ByteBuffer TableView BuilderCore OpInfo Layout BuilderLemmas Registry.
Import ListNotations.
#[local] Open Scope Z_scope.
#[local] Open Scope fb_scope.

Definition post {A : Type} (m : state Builder.t A) (b : Builder.t)
    (Q : A -> Builder.t -> Prop) : Prop :=
  exists a b', m b = Ok (a, b') /\ Q a b'.

Definition grows (b b' : Builder.t) : Prop :=
  suffix_of (Builder.Bytes b) (Builder.Bytes b').

Definition wf (b : Builder.t) : Prop :=
  Forall (fun o => o <= Builder.Offset b) (Builder.vtables b) /\
  1 <= Builder.minalign b <= 4.

(** [wrote b b']: [b'] is [b] with bytes written in front and the alignment
    raised; the object and the vector under construction, the vtables and
    the flags are those of [b]. *)
Definition wrote (b b' : Builder.t) : Prop :=
  grows b b' /\
  Builder.current_vtable b' = Builder.current_vtable b /\
  Builder.objectEnd b' = Builder.objectEnd b /\
  Builder.vtables b' = Builder.vtables b /\
  Builder.nested b' = Builder.nested b /\
  Builder.vectorNumElems b' = Builder.vectorNumElems b /\
  Builder.finished b' = Builder.finished b /\
  Builder.minalign b <= Builder.minalign b' <= Z.max (Builder.minalign b) 4.

(** The offset of the table [EndObject] closes in state [b]. *)
Definition table_offset (b : Builder.t) : Z :=
  Builder.Offset b + pad_of b 4 0 + 4.

(** ** The logic of [post] *)

Section Post.
Context {A B : Type}.
Implicit Types (m : state Builder.t A) (k : A -> state Builder.t B) (b : Builder.t).

Lemma post_bind m k b (Q : B -> Builder.t -> Prop) :
  post m b (fun a b' => post (k a) b' Q) -> post (sbind m k) b Q.
Proof.
  intros (a & b' & Hm & r & b'' & Hk & HQ). exists r, b''.
  rewrite (sbind_Ok _ _ _ _ _ Hm). auto.
Qed.

Lemma post_weaken m b (P Q : A -> Builder.t -> Prop) :
  post m b P -> (forall a b', P a b' -> Q a b') -> post m b Q.
Proof. intros (a & b' & Hm & HP) H. exists a, b'. auto. Qed.

Lemma post_run m b a b' (Q : A -> Builder.t -> Prop) :
  m b = Ok (a, b') -> Q a b' -> post m b Q.
Proof. intros. exists a, b'. auto. Qed.

Lemma post_Ok m b (Q : A -> Builder.t -> Prop) :
  post m b Q -> exists r, m b = Ok r.
Proof. intros (a & b' & Hm & _). eauto. Qed.

Lemma post_ret (a : A) b (Q : A -> Builder.t -> Prop) : Q a b -> post (sret a) b Q.
Proof. intros. exists a, b. auto. Qed.

Lemma post_get_bind (k : Builder.t -> state Builder.t B) b (Q : B -> Builder.t -> Prop) :
  post (k b) b Q -> post (sbind sget k) b Q.
Proof. exact (fun H => H). Qed.

Lemma post_modify_bind (f : Builder.t -> Builder.t) (k : unit -> state Builder.t B) b
    (Q : B -> Builder.t -> Prop) :
  post (k tt) (f b) Q -> post (sbind (Builder.modify f) k) b Q.
Proof. exact (fun H => H). Qed.

Lemma post_assert_bind (c : bool) (k : unit -> state Builder.t B) b
    (Q : B -> Builder.t -> Prop) :
  c = true -> post (k tt) b Q -> post (sbind (assert c) k) b Q.
Proof. intros ->. exact (fun H => H). Qed.

End Post.

(** One step of a sequence: the postcondition [spec] of its first operation,
    then the rest from a state that satisfies it. *)
Ltac post_step spec :=
  apply post_bind; eapply post_weaken; [ eapply spec | cbv beta ].

(** ** Growth *)

(** [grows] is the preorder [suffix_of] on what is written, so that a
    hypothesis [grows b b'] rewrites a layout predicate on [Bytes b'] into
    the same predicate on [Bytes b]. *)
#[export] Instance grows_PreOrder : PreOrder grows.
Proof.
  split; [ intros b | intros b1 b2 b3 ]; unfold grows;
    [ reflexivity | apply transitivity ].
Qed.

#[export] Instance Bytes_Proper : Proper (grows ==> suffix_of) Builder.Bytes.
Proof. intros b b' Hg. exact Hg. Qed.

(** What a layout predicate states of a builder's bytes it states of every
    later state of that builder. *)
Lemma grows_mono {A B} (P : bytes -> A -> B -> Prop)
    `{!Proper (suffix_of ==> eq ==> eq ==> Basics.impl) P} b b' x y :
  grows b b' -> P (Builder.Bytes b) x y -> P (Builder.Bytes b') x y.
Proof. intros Hg H. rewrite <- Hg. exact H. Qed.

Lemma grows_prepend bs b : grows b (prepend bs b).
Proof. exists bs. reflexivity. Qed.

Lemma grows_Offset b b' : grows b b' -> Builder.Offset b <= Builder.Offset b'.
Proof. intros [pre H]. unfold Builder.Offset. rewrite H. len_solve. Qed.

#[export] Hint Resolve grows_prepend : fb.
#[export] Hint Extern 1 (grows _ _) => reflexivity : fb.

(** ** The invariant *)

Lemma wf_init : wf Builder.init.
Proof. split; [ constructor | cbn; lia ]. Qed.

(** Writing in front keeps the bytes of the remembered vtables. *)
Lemma distinct_grows b b' :
  wf b -> grows b b' -> Builder.vtables b' = Builder.vtables b ->
  distinct b -> distinct b'.
Proof.
  intros [Hv _] [pre Hpre] Hvt Hd. unfold distinct.
  rewrite (images_prepend pre b b' Hv Hpre Hvt). exact Hd.
Qed.

(** Writing in front, and raising the alignment, keep the invariant. *)
Lemma wf_grows b b' :
  wf b -> grows b b' ->
  Builder.vtables b' = Builder.vtables b ->
  Builder.minalign b <= Builder.minalign b' <= Z.max (Builder.minalign b) 4 ->
  wf b'.
Proof.
  intros [Hv Hm] Hg Hvt Hma. pose proof (grows_Offset _ _ Hg).
  split; [ | lia ]. rewrite Hvt.
  eapply Forall_impl; [ | exact Hv ]. cbn. intros. lia.
Qed.

(** ** Writing without changing the mode *)

#[export] Instance wrote_PreOrder : PreOrder wrote.
Proof.
  split.
  - intros b. split; [ reflexivity | repeat split; lia ].
  - unfold wrote.
    intros b1 b2 b3 (Hg1 & ? & ? & ? & ? & ? & ? & ?) (Hg2 & ? & ? & ? & ? & ? & ? & ?).
    split; [ exact (transitivity Hg1 Hg2) | ].
    repeat split; congruence || lia.
Qed.

Lemma wrote_prepend bs size b :
  size <= Z.max (Builder.minalign b) 4 -> wrote b (prepend bs (aligned_to size b)).
Proof.
  intros Hs. unfold wrote. fields. split; [ exists bs; reflexivity | ].
  repeat split; lia.
Qed.

Lemma wrote_prepend_bytes bs b : wrote b (prepend bs b).
Proof.
  unfold wrote. fields. split; [ exists bs; reflexivity | ].
  repeat split; lia.
Qed.

Lemma wrote_grows b b' : wrote b b' -> grows b b'.
Proof. intros H. apply H. Qed.

#[export] Instance wrote_grows_subrelation : subrelation wrote grows := wrote_grows.

Lemma wrote_wf b b' : wf b -> wrote b b' -> wf b'.
Proof.
  intros Hwf (Hg & _ & _ & Hv & _ & _ & _ & Hm). exact (wf_grows _ _ Hwf Hg Hv Hm).
Qed.

#[export] Hint Resolve wrote_prepend_bytes wrote_grows : fb.
#[export] Hint Extern 1 (wrote _ _) => reflexivity : fb.

(** ** Relative offsets *)

Lemma prepend_nil b : prepend [] b = b.
Proof. destruct b; reflexivity. Qed.

Lemma pad_of_aligned b : Builder.Offset b mod 4 = 0 -> pad_of b 4 0 = 0.
Proof. intros Ha. apply align_pad_0; [ lia | rewrite Z.add_0_r; exact Ha ]. Qed.

(** At an aligned offset, [PrependUOffsetTRelative] writes four bytes: the
    distance to the object referred to. *)
Lemma run_PrependUOffsetTRelative_aligned off b :
  Builder.Offset b mod 4 = 0 ->
  off <= Builder.Offset b ->
  Builder.Offset b - off + 4 < 2 ^ 32 ->
  Builder.PrependUOffsetTRelative off b
  = Ok (tt, prepend (packer.pack packer.uoffset (Builder.Offset b - off + 4))
              (aligned_to 4 b)).
Proof.
  intros Ha Hle Hlt. pose proof (pad_of_aligned b Ha) as Hp.
  rewrite run_PrependUOffsetTRelative; rewrite Hp, ?Z.add_0_r; try assumption.
  change (zeros 0) with (@nil byte). rewrite prepend_nil. reflexivity.
Qed.

(** [PrependUOffsetTRelative] fails with [PreconditionViolation], or writes
    in front. *)
Lemma PrependUOffsetTRelative_cases off b :
  Builder.PrependUOffsetTRelative off b = Err PreconditionViolation \/
  exists b', Builder.PrependUOffsetTRelative off b = Ok (tt, b') /\ wrote b b'.
Proof.
  unfold Builder.PrependUOffsetTRelative.
  rewrite (sbind_Ok _ _ _ _ _ (run_Prep 4 0 b)). run_state.
  destruct (off <=? _); cbv [assert sret sfail]; [ | auto ].
  unfold Builder.Place. run_state.
  destruct (packer.fits _ _); cbv [assert sret sfail]; [ right | auto ].
  eexists. split; [ reflexivity | ].
  etransitivity; [ apply (wrote_prepend (zeros (pad_of b 4 0)) 4); lia | ].
  apply wrote_prepend_bytes.
Qed.

(** At an aligned offset it refuses an object that is not written yet, and
    otherwise writes four bytes. *)
Lemma PrependUOffsetTRelative_aligned_cases off b :
  Builder.Offset b mod 4 = 0 ->
  Builder.PrependUOffsetTRelative off b = Err PreconditionViolation \/
  (off <= Builder.Offset b /\
   exists b', Builder.PrependUOffsetTRelative off b = Ok (tt, b') /\
              Builder.Offset b' = Builder.Offset b + 4).
Proof.
  intros Ha. unfold Builder.PrependUOffsetTRelative.
  rewrite (sbind_Ok _ _ _ _ _ (run_Prep 4 0 b)), (pad_of_aligned b Ha).
  change (zeros 0) with (@nil byte). rewrite prepend_nil. run_state.
  change (Builder.Offset (aligned_to 4 b)) with (Builder.Offset b).
  destruct (Z.leb_spec off (Builder.Offset b)); cbv [assert sret sfail]; [ | auto ].
  unfold Builder.Place. run_state.
  destruct (packer.fits _ _); cbv [assert sret sfail]; [ right | auto ].
  split; [ assumption | ]. eexists. split; [ reflexivity | ].
  unfold Builder.Offset. fields. len_solve.
Qed.

(** What [PrependUOffsetTRelative] establishes, aligned or not: at the new
    offset, a multiple of four, lies the distance to the object. *)
Lemma post_PrependUOffsetTRelative off b :
  off <= Builder.Offset b ->
  Builder.Offset b + 7 < 2 ^ 32 ->
  0 <= off ->
  post (Builder.PrependUOffsetTRelative off) b (fun _ b' =>
    wrote b b' /\
    Builder.Offset b' = Builder.Offset b + pad_of b 4 0 + 4 /\
    Builder.Offset b' mod 4 = 0 /\
    holds packer.uoffset (Builder.Bytes b') (Builder.Offset b')
      (Builder.Offset b' - off)).
Proof.
  intros Hle Hlt H0.
  assert (Hp : 0 <= pad_of b 4 0 < 4) by (apply align_pad_range; lia).
  assert (Ha : (Builder.Offset b + pad_of b 4 0) mod 4 = 0).
  { pose proof (align_pad_aligned (Builder.Offset b) 4 0) as H.
    rewrite Z.add_0_r in H. apply H. lia. }
  eapply post_run; [ apply run_PrependUOffsetTRelative; lia | ].
  assert (Ho : Builder.Offset
                 (prepend (packer.pack packer.uoffset (Builder.Offset b + pad_of b 4 0 - off + 4))
                    (prepend (zeros (pad_of b 4 0)) (aligned_to 4 b)))
               = Builder.Offset b + pad_of b 4 0 + 4).
  { rewrite !Offset_prepend, length_zeros. change (Builder.Offset (aligned_to 4 b))
      with (Builder.Offset b). len_solve. }
  rewrite Ho. split; [ | split; [ reflexivity | split ] ].
  - etransitivity; [ apply (wrote_prepend (zeros (pad_of b 4 0)) 4); lia | ].
    apply wrote_prepend_bytes.
  - rewrite <- Z.add_mod_idemp_l, Ha by lia. reflexivity.
  - unfold holds, pos_of. fields.
    replace (len (_ ++ _) - _) with (len (@nil byte)).
    + replace (Builder.Offset b + pad_of b 4 0 + 4 - off)
        with (Builder.Offset b + pad_of b 4 0 - off + 4) by lia.
      apply (Get_pack packer.uoffset []), fits_uoffset. lia.
    + unfold Builder.Offset in *. cbn [length]. len_simpl. lia.
Qed.

(** ** Fields *)

(** Outside a table, a field that is not the default cannot be added. *)
Lemma PrependUOffsetTRelativeSlot_not_nested o x d b :
  Builder.nested b = false -> x <> d ->
  Builder.PrependUOffsetTRelativeSlot o x d b = Err PreconditionViolation.
Proof.
  intros Hn Hx. unfold Builder.PrependUOffsetTRelativeSlot.
  apply Z.eqb_neq in Hx. rewrite Hx. cbn [negb].
  destruct (PrependUOffsetTRelative_cases x b) as [He | (b' & Hp & Hw)].
  - apply sbind_Err, He.
  - rewrite (sbind_Ok _ _ _ _ _ Hp). unfold Builder.Slot. run_state.
    destruct Hw as (_ & _ & _ & _ & -> & _). rewrite Hn. reflexivity.
Qed.

(** Inside a table, an offset that is not the default is written, aligned,
    as the distance from its place to the object; the place is recorded in
    the slot. *)
Lemma post_PrependUOffsetTRelativeSlot o x d b vt :
  Builder.nested b = true -> Builder.current_vtable b = Some vt ->
  0 <= o < len vt -> x <> d -> 0 <= x <= Builder.Offset b ->
  Builder.Offset b + 7 < 2 ^ 32 ->
  post (Builder.PrependUOffsetTRelativeSlot o x d) b (fun _ b' =>
    exists b1, wrote b b1 /\
      b' = Builder.with_current_vtable
             (Some (List.upd vt (Z.to_nat o) (Builder.Offset b1))) b1 /\
      Builder.Offset b1 mod 4 = 0 /\
      Builder.Offset b < Builder.Offset b1 <= Builder.Offset b + 7 /\
      holds packer.uoffset (Builder.Bytes b1) (Builder.Offset b1) (Builder.Offset b1 - x)).
Proof.
  intros Hn Hvt Hslot Hx Hr Hlt. unfold Builder.PrependUOffsetTRelativeSlot.
  apply Z.eqb_neq in Hx. rewrite Hx. cbn [negb].
  post_step post_PrependUOffsetTRelative; [ lia | lia | lia | ].
  intros _ b1 (Hw & Ho & Ha & Hh).
  assert (Hp : 0 <= pad_of b 4 0 < 4) by (apply align_pad_range; lia).
  pose proof Hw as (_ & Hvt1 & _ & _ & Hn1 & _).
  eapply post_run.
  - apply (run_Slot o b1 vt); [ congruence | congruence | exact Hslot ].
  - exists b1. split; [ exact Hw | ]. split; [ reflexivity | ].
    split; [ exact Ha | ]. split; [ lia | exact Hh ].
Qed.

(** ** Tables *)

Lemma table_offset_range b :
  Builder.Offset b + 4 <= table_offset b < Builder.Offset b + 8.
Proof.
  unfold table_offset.
  assert (0 <= pad_of b 4 0 < 4) by (apply align_pad_range; lia). lia.
Qed.

Lemma table_offset_aligned b : table_offset b mod 4 = 0.
Proof.
  unfold table_offset, pad_of.
  pose proof (align_pad_aligned (Builder.Offset b) 4 0) as H.
  rewrite Z.add_0_r in H. rewrite <- Z.add_mod_idemp_l, H by lia. reflexivity.
Qed.

Lemma table_offset_of_aligned b :
  Builder.Offset b mod 4 = 0 -> table_offset b = Builder.Offset b + 4.
Proof.
  intros Ha. unfold table_offset. rewrite (pad_of_aligned b Ha). lia.
Qed.

(** The vtable of a table with one field, absent or written at offset [e]. *)
Lemma vtable_fields_absent oo oe :
  Builder.vtable_fields [0] oo oe = [6; oo - oe; 0].
Proof. reflexivity. Qed.

Lemma vtable_fields_present e oo oe :
  e <> 0 -> Builder.vtable_fields [e] oo oe = [6; oo - oe; oo - e].
Proof.
  intros He. unfold Builder.vtable_fields. cbn [map length].
  apply Z.eqb_neq in He. rewrite He. reflexivity.
Qed.

Lemma run_EndObject b :
  Builder.nested b = true ->
  Builder.EndObject b = Builder.WriteVtable (Builder.with_nested false b).
Proof. intros Hn. unfold Builder.EndObject. run_state. rewrite Hn. reflexivity. Qed.

Lemma EndObject_not_nested b :
  Builder.nested b = false -> Builder.EndObject b = Err PreconditionViolation.
Proof. intros Hn. unfold Builder.EndObject. run_state. rewrite Hn. reflexivity. Qed.

(** [EndObject] leaves, at the offset it returns, a table whose vtable holds
    the fields recorded since [StartObject]. *)
Lemma post_EndObject b vt :
  wf b -> Builder.nested b = true -> Builder.current_vtable b = Some vt ->
  table_offset b < 2 ^ 31 ->
  forallb (packer.fits packer.voffset)
    (Builder.vtable_fields vt (table_offset b) (Builder.objectEnd b)) = true ->
  post Builder.EndObject b (fun o b' =>
    o = table_offset b /\ grows b b' /\ wf b' /\
    Builder.nested b' = false /\ Builder.current_vtable b' = None /\
    Builder.vectorNumElems b' = Builder.vectorNumElems b /\
    Builder.finished b' = Builder.finished b /\
    o <= Builder.Offset b' <= o + 2 * (len vt + 2) /\
    table_at (Builder.Bytes b') o (Builder.vtable_fields vt o (Builder.objectEnd b))).
Proof.
  intros [Hv Hm] Hn Hvt Hoo Hfits.
  destruct (WriteVtable_table (Builder.with_nested false b) vt Hvt Hoo Hfits Hv)
    as (pre & vts & Hrun & Hvts & Hlen & Htab).
  eapply post_run.
  - unfold Builder.EndObject. run_state. rewrite Hn. cbn [assert]. exact Hrun.
  - fields. split; [ reflexivity | ]. split; [ exists pre; reflexivity | ].
    split; [ split; [ exact Hvts | fields; lia ] | ].
    repeat (split; [ reflexivity | ]). split; [ exact Hlen | exact Htab ].
Qed.

(** ** Vectors *)

(** [StartVector 4 n 4] pads to a multiple of four and writes nothing
    else. *)
Lemma post_StartVector n b :
  Builder.nested b = false ->
  post (Builder.StartVector 4 n 4) b (fun _ b' =>
    grows b b' /\ Builder.Offset b' mod 4 = 0 /\
    Builder.Offset b' < Builder.Offset b + 4 /\
    Builder.nested b' = true /\ Builder.vectorNumElems b' = Some n /\
    Builder.vtables b' = Builder.vtables b /\
    Builder.minalign b <= Builder.minalign b' <= Z.max (Builder.minalign b) 4 /\
    Builder.finished b' = Builder.finished b).
Proof.
  intros Hn. eapply post_run; [ apply run_StartVector, Hn | ].
  set (b0 := Builder.with_vectorNumElems _ _).
  set (b1 := prepend _ (aligned_to 4 b0)).
  assert (Hp : 0 <= pad_of b 4 (4 * n) < 4) by (apply align_pad_range; lia).
  assert (Ho : Builder.Offset b1 = Builder.Offset b + pad_of b 4 (4 * n)).
  { unfold b1. rewrite Offset_prepend, length_zeros.
    change (Builder.Offset (aligned_to 4 b0)) with (Builder.Offset b). lia. }
  assert (Ha : (Builder.Offset b1 + 4 * n) mod 4 = 0).
  { rewrite Ho, <- Z.add_assoc, (Z.add_comm (pad_of _ _ _)), Z.add_assoc.
    apply align_pad_aligned. lia. }
  assert (Hz : pad_of b1 4 (4 * n) = 0) by (apply align_pad_0; [ lia | exact Ha ]).
  rewrite Hz. change (zeros 0) with (@nil byte). rewrite prepend_nil.
  change (Builder.Offset (aligned_to 4 b1)) with (Builder.Offset b1).
  split; [ exists (zeros (pad_of b 4 (4 * n))); reflexivity | ].
  split; [ | split; [ lia | subst b1 b0; fields; repeat split; lia ] ].
  rewrite (Z.mul_comm 4 n), Z.mod_add in Ha by lia. exact Ha.
Qed.

(** [EndVector] writes the element count in front of the elements. *)
Lemma post_EndVector n b :
  Builder.nested b = true -> Builder.vectorNumElems b = Some n ->
  0 <= n < 2 ^ 32 ->
  post Builder.EndVector b (fun vo b' =>
    vo = Builder.Offset b + 4 /\ Builder.Offset b' = vo /\ grows b b' /\
    holds packer.uoffset (Builder.Bytes b') vo n /\
    Builder.nested b' = false /\ Builder.vectorNumElems b' = None /\
    Builder.vtables b' = Builder.vtables b /\
    Builder.minalign b' = Builder.minalign b /\
    Builder.finished b' = Builder.finished b).
Proof.
  intros Hn Hv Hr. eapply post_run; [ apply (run_EndVector n); assumption | ].
  cbv zeta. unfold Builder.Offset. fields.
  assert (Hl : len (packer.pack packer.uoffset n ++ Builder.Bytes b)
               = len (Builder.Bytes b) + 4) by len_solve.
  split; [ exact Hl | ]. split; [ reflexivity | ].
  split; [ eexists; reflexivity | ].
  split; [ | repeat split ].
  unfold holds, pos_of. replace (len _ - _) with (len (@nil byte)) by (cbn [length]; lia).
  apply (Get_pack packer.uoffset []), fits_uoffset, Hr.
Qed.

(** ** Padding *)

Lemma post_Prep size additional b :
  0 < size -> size <= Z.max (Builder.minalign b) 4 ->
  post (Builder.Prep size additional) b (fun _ b' =>
    wrote b b' /\
    Builder.Offset b <= Builder.Offset b' < Builder.Offset b + size /\
    (Builder.Offset b' + additional) mod size = 0).
Proof.
  intros Hs Hle. eapply post_run; [ apply run_Prep | ].
  assert (Hp : 0 <= pad_of b size additional < size) by (apply align_pad_range; lia).
  rewrite Offset_prepend, length_zeros.
  change (Builder.Offset (aligned_to size b)) with (Builder.Offset b).
  split; [ apply wrote_prepend, Hle | ]. split; [ lia | ].
  replace (Z.max 0 (pad_of b size additional) + Builder.Offset b + additional)
    with (Builder.Offset b + additional + pad_of b size additional) by lia.
  apply align_pad_aligned, Hs.
Qed.

(** ** Finishing *)

(** [Finish] writes the identifier and, in front of it, the root offset: the
    finished buffer starts with the offset of the root table, followed by
    the identifier. *)
Lemma post_Finish root (ident : bytes) b :
  wf b -> length ident = 4%nat ->
  0 <= root <= Builder.Offset b ->
  Builder.Offset b + 20 < 2 ^ 32 ->
  post (Builder.Finish root (Some ident)) b (fun start b' =>
    start = 0 /\ grows b b' /\ Builder.finished b' = true /\
    root_at (Builder.Bytes b') 0 root /\
    slice (Builder.Bytes b') 4 4 = ident /\
    Builder.Offset b' mod 4 = 0 /\ Builder.Offset b' <= Builder.Offset b + 18).
Proof.
  intros [_ Hm] Hi Hr Hlt. unfold Builder.Finish. apply post_get_bind.
  post_step post_Prep; [ lia | lia | intros _ b1 (Hw1 & Ho1 & _) ].
  apply post_bind, post_assert_bind; [ apply Nat.eqb_eq, Hi | ].
  post_step post_Prep; [ lia | lia | intros _ b2 (Hw2 & Ho2 & Ha2) ].
  apply (post_run _ _ tt (prepend ident b2)); [ reflexivity | ].
  pose proof (bytes_at_here (Builder.Bytes b2) ident) as Hid.
  assert (Ho : Builder.Offset (prepend ident b2) = Builder.Offset b2 + 4)
    by (rewrite Offset_prepend; lia).
  assert (Hp : pad_of (prepend ident b2) 4 0 = 0).
  { apply align_pad_0; [ lia | ]. rewrite Z.add_0_r, Ho. exact Ha2. }
  post_step post_PrependUOffsetTRelative; [ lia | lia | lia | ].
  rewrite Hp, Ho. intros _ b3 (Hw3 & Ho3 & Ha3 & Hroot).
  apply post_modify_bind, post_get_bind, post_ret. fields.
  split; [ reflexivity | ].
  split; [ | split; [ reflexivity | split; [ | split; [ | split; [ exact Ha3 | ] ] ] ] ];
    [ | | | change (Builder.Offset (Builder.with_finished true b3)) with (Builder.Offset b3); lia ].
  - apply wrote_grows in Hw1, Hw2, Hw3. rewrite Hw1, Hw2.
    etransitivity; [ apply grows_prepend | exact Hw3 ].
  - unfold root_at. unfold holds, pos_of in *. unfold Builder.Offset in Hroot at 1.
    rewrite Z.sub_diag in Hroot. rewrite Hroot. unfold Builder.Offset. f_equal. lia.
  - apply (grows_mono bytes_at _ b3 _ _ (wrote_grows _ _ Hw3)) in Hid.
    destruct Hid as [_ Hid].
    etransitivity; [ | exact Hid ]. f_equal; [ | symmetry; exact Hi ].
    unfold pos_of, Builder.Offset in *. fields. len_solve.
Qed.
