(* ===== verification/Writers.v ===== *)
(** * Writers: the builder functions of [OpInfo.py]

    [OpInfoStart], [OpInfoAddOpKernelTypeStrArgs],
    [OpInfoStartOpKernelTypeStrArgsVector] and [OpInfoEnd] are the four
    module-level functions a writer of an [OpInfo] calls, translated from
    lines 52 to 55 of the source; the builder they receive is the state of
    the monad.  After them the file defines the two sequences in which a
    client calls them:

    - [CreateOpKernelTypeStrArgsVector entries]: start the vector, write
      the offsets of the entries last to first, end the vector;
    - [CreateOpInfo field]: start the table, add the vector's offset, end
      the table.

    The theorems give each function its behaviour (the state it leaves, the
    bytes it writes, the conditions under which it fails) and each sequence
    its postcondition in the vocabulary of [Layout]: the buffer holds a
    vector of the entries, resp. an [OpInfo] table that refers to the
    vector. *)

From Stdlib Require Import ZArith List Lia Bool Morphisms RelationClasses.
From coqutil Require Import Byte Word.LittleEndianList.
From S2P Require Import Prelude ByteBuffer TableView BuilderCore OpInfo Layout.
From S2P Require Import BuilderLemmas Registry BuilderSpec.
Import ListNotations.
#[local] Open Scope Z_scope.
#[local] Open Scope fb_scope.

(** ** The module-level functions of [OpInfo.py] *)

Definition OpInfoStart : state Builder.t unit :=
  Builder.StartObject 1.

Definition OpInfoAddOpKernelTypeStrArgs (opKernelTypeStrArgs : Z) : state Builder.t unit :=
  Builder.PrependUOffsetTRelativeSlot 0 (UOffsetTFlags.py_type opKernelTypeStrArgs) 0.

Definition OpInfoStartOpKernelTypeStrArgsVector (numElems : Z) : state Builder.t Z :=
  Builder.StartVector 4 numElems 4.

Definition OpInfoEnd : state Builder.t Z :=
  Builder.EndObject.

(** ** The sequences of a client *)

(** The offsets [offs], each written relative to its own place, first to
    last. *)
Fixpoint prepend_offsets (offs : list Z) : state Builder.t unit :=
  match offs with
  | [] => sret tt
  | e :: rest => Builder.PrependUOffsetTRelative e ;;; prepend_offsets rest
  end.

Definition CreateOpKernelTypeStrArgsVector (entries : list Z) : state Builder.t Z :=
  OpInfoStartOpKernelTypeStrArgsVector (len entries) ;;;
  prepend_offsets (rev entries) ;;;
  Builder.EndVector.

Definition CreateOpInfo (opKernelTypeStrArgs : Z) : state Builder.t Z :=
  OpInfoStart ;;;
  OpInfoAddOpKernelTypeStrArgs opKernelTypeStrArgs ;;;
  OpInfoEnd.

(** An entry with no field written, as a stand-in for the entries, which
    are tables of another type. *)
Definition CreateEmptyEntry : state Builder.t Z :=
  Builder.StartObject 0 ;;; Builder.EndObject.

(** The builder after three entries, at the offsets 4, 12 and 16; after
    the vector of the three; and inside the [OpInfo] table just started. *)
Definition sample_builder : Builder.t :=
  Eval vm_compute in
    match (CreateEmptyEntry ;;; CreateEmptyEntry ;;; CreateEmptyEntry) Builder.init with
    | Ok (_, b) => b
    | Err _ => Builder.init
    end.

(** The builder after one entry and the start of a second one. *)
Definition sample_second_builder : Builder.t :=
  Eval vm_compute in
    match (CreateEmptyEntry ;;; Builder.StartObject 0) Builder.init with
    | Ok (_, b) => b
    | Err _ => Builder.init
    end.

Definition sample_vector_builder : Builder.t :=
  Eval vm_compute in
    match CreateOpKernelTypeStrArgsVector [4; 12; 16] sample_builder with
    | Ok (_, b) => b
    | Err _ => Builder.init
    end.

Definition sample_started_builder : Builder.t :=
  Eval vm_compute in
    match OpInfoStart sample_vector_builder with
    | Ok (_, b) => b
    | Err _ => Builder.init
    end.

(** ** [OpInfoStart] *)

(** [OpInfoStart] begins a table with one field, absent so far, at the
    current offset; inside an unfinished table or vector it fails. *)
Theorem OpInfoStart_run b :
  OpInfoStart b
  = if Builder.nested b then Err PreconditionViolation
    else Ok (tt, Builder.with_nested true
                   (Builder.with_objectEnd (Builder.Offset b)
                      (Builder.with_current_vtable (Some [0]) b))).
Proof. unfold OpInfoStart. apply run_StartObject. Qed.

(** ** [OpInfoAddOpKernelTypeStrArgs] *)

(** The offset 0 is the default of the field: nothing is written and the
    field stays absent. *)
Theorem OpInfoAdd_default b : OpInfoAddOpKernelTypeStrArgs 0 b = Ok (tt, b).
Proof.
  unfold OpInfoAddOpKernelTypeStrArgs, UOffsetTFlags.py_type.
  apply run_PrependUOffsetTRelativeSlot_default.
Qed.

(** Outside a table, adding the field fails. *)
Theorem OpInfoAdd_outside_object x b :
  Builder.nested b = false -> x <> 0 ->
  OpInfoAddOpKernelTypeStrArgs x b = Err PreconditionViolation.
Proof.
  unfold OpInfoAddOpKernelTypeStrArgs, UOffsetTFlags.py_type.
  apply PrependUOffsetTRelativeSlot_not_nested.
Qed.

(** C23: Inside a table, a non-zero offset is written, aligned, as the distance
    from its place to the vector; the place is recorded as field 0. *)
Theorem OpInfoAdd_writes x b vt :
  Builder.nested b = true -> Builder.current_vtable b = Some vt ->
  vt <> [] -> x <> 0 -> 0 <= x <= Builder.Offset b ->
  Builder.Offset b + 7 < 2 ^ 32 ->
  post (OpInfoAddOpKernelTypeStrArgs x) b (fun _ b' =>
    exists b1, wrote b b1 /\
      b' = Builder.with_current_vtable (Some (List.upd vt 0 (Builder.Offset b1))) b1 /\
      Builder.Offset b1 mod 4 = 0 /\
      Builder.Offset b < Builder.Offset b1 <= Builder.Offset b + 7 /\
      holds packer.uoffset (Builder.Bytes b1) (Builder.Offset b1) (Builder.Offset b1 - x)).
Proof.
  intros Hn Hvt Hne. unfold OpInfoAddOpKernelTypeStrArgs, UOffsetTFlags.py_type.
  apply post_PrependUOffsetTRelativeSlot; try assumption.
  destruct vt; [ congruence | cbn [length]; lia ].
Qed.

(** ** [OpInfoStartOpKernelTypeStrArgsVector] *)

(** Inside an unfinished table or vector, a vector cannot be started. *)
Theorem StartVector_inside_object numElems b :
  Builder.nested b = true ->
  OpInfoStartOpKernelTypeStrArgsVector numElems b = Err PreconditionViolation.
Proof. unfold OpInfoStartOpKernelTypeStrArgsVector. apply StartVector_nested. Qed.

(** Otherwise the vector is started: fewer than four bytes of padding bring
    the offset to a multiple of four, where the elements, four bytes each,
    are then written. *)
Theorem StartVector_aligns numElems b :
  Builder.nested b = false ->
  post (OpInfoStartOpKernelTypeStrArgsVector numElems) b (fun _ b' =>
    grows b b' /\ Builder.Offset b' mod 4 = 0 /\
    Builder.Offset b' < Builder.Offset b + 4 /\
    Builder.nested b' = true /\ Builder.vectorNumElems b' = Some numElems /\
    Builder.vtables b' = Builder.vtables b /\
    Builder.minalign b <= Builder.minalign b' <= Z.max (Builder.minalign b) 4 /\
    Builder.finished b' = Builder.finished b).
Proof. unfold OpInfoStartOpKernelTypeStrArgsVector. apply post_StartVector. Qed.

(** ** [OpInfoEnd] *)

(** With no table started, [OpInfoEnd] fails. *)
Theorem OpInfoEnd_outside_object b :
  Builder.nested b = false -> OpInfoEnd b = Err PreconditionViolation.
Proof. unfold OpInfoEnd. apply EndObject_not_nested. Qed.

(** ** The table *)

Section Table.
Variable b : Builder.t.
Hypothesis Hwf : wf b.
Hypothesis Hidle : Builder.nested b = false.
Hypothesis Hroom : Builder.Offset b + 16 < 2 ^ 31.

(** A table written without the vector: the buffer holds, at the offset
    returned, an [OpInfo] whose field is absent. *)
Lemma post_CreateOpInfo_absent :
  post (CreateOpInfo 0) b (fun o b' =>
    grows b b' /\ wf b' /\ Builder.nested b' = false /\
    Builder.Offset b < o <= Builder.Offset b' /\
    Builder.Offset b' <= Builder.Offset b + 13 /\
    o mod 4 = 0 /\
    opinfo_at (Builder.Bytes b') o None).
Proof.
  unfold CreateOpInfo. apply post_bind.
  eapply post_run; [ unfold OpInfoStart; rewrite run_StartObject, Hidle; reflexivity | ].
  apply post_bind. eapply post_run; [ apply run_PrependUOffsetTRelativeSlot_default | ].
  set (b1 := Builder.with_nested _ _).
  pose proof (table_offset_range b1) as Hto.
  change (Builder.Offset b1) with (Builder.Offset b) in Hto.
  eapply post_weaken.
  - apply (post_EndObject b1 [0] Hwf eq_refl eq_refl); [ lia | ].
    cbn [Builder.vtable_fields map forallb length]. rewrite Z.eqb_refl.
    rewrite !andb_true_iff, !fits_voffset.
    change (Builder.objectEnd b1) with (Builder.Offset b). lia.
  - cbv beta. intros o b' (-> & Hg & Hwf' & Hn & _ & _ & _ & Hlen & Htab).
    change (Builder.objectEnd b1) with (Builder.Offset b) in Htab.
    cbn [length] in Hlen.
    repeat (split; [ assumption || lia | ]).
    split; [ apply table_offset_aligned | ].
    eapply opinfo_at_absent, Htab.
Qed.

(** A table written with no field slot, as a writer did before the field
    existed: read as an [OpInfo], its field is absent. *)
Lemma post_CreateEmptyEntry :
  post CreateEmptyEntry b (fun o b' =>
    grows b b' /\ wf b' /\ Builder.nested b' = false /\
    Builder.Offset b < o <= Builder.Offset b' /\
    Builder.Offset b' <= Builder.Offset b + 11 /\
    o mod 4 = 0 /\
    opinfo_at (Builder.Bytes b') o None).
Proof.
  unfold CreateEmptyEntry. apply post_bind.
  eapply post_run; [ rewrite run_StartObject, Hidle; reflexivity | ].
  set (b1 := Builder.with_nested _ _).
  pose proof (table_offset_range b1) as Hto.
  change (Builder.Offset b1) with (Builder.Offset b) in Hto.
  eapply post_weaken.
  - apply (post_EndObject b1 [] Hwf eq_refl eq_refl); [ lia | ].
    cbn [Builder.vtable_fields map forallb length]. rewrite !andb_true_iff, !fits_voffset.
    change (Builder.objectEnd b1) with (Builder.Offset b). lia.
  - cbv beta. intros o b' (-> & Hg & Hwf' & Hn & _ & _ & _ & Hlen & Htab).
    cbn [length] in Hlen.
    repeat (split; [ assumption || lia | ]).
    split; [ apply table_offset_aligned | ].
    eapply opinfo_at_short, Htab.
Qed.

(** A table written with the vector at offset [vo]: the buffer holds, at
    the offset returned, an [OpInfo] whose field refers to that vector. *)
Lemma post_CreateOpInfo_present vo :
  vo <> 0 -> 0 <= vo <= Builder.Offset b ->
  post (CreateOpInfo vo) b (fun o b' =>
    grows b b' /\ wf b' /\ Builder.nested b' = false /\
    Builder.Offset b < o <= Builder.Offset b' /\
    Builder.Offset b' <= Builder.Offset b + 17 /\
    o mod 4 = 0 /\
    opinfo_at (Builder.Bytes b') o (Some vo)).
Proof.
  intros Hvo Hr. unfold CreateOpInfo. apply post_bind.
  eapply post_run; [ unfold OpInfoStart; rewrite run_StartObject, Hidle; reflexivity | ].
  set (b0 := Builder.with_nested _ _).
  unfold OpInfoAddOpKernelTypeStrArgs, UOffsetTFlags.py_type.
  post_step (post_PrependUOffsetTRelativeSlot 0 vo 0 b0 [0] eq_refl eq_refl);
    [ cbn [length]; lia | exact Hvo | exact Hr
    | change (Builder.Offset b0) with (Builder.Offset b); lia | ].
  change (Builder.Offset b0) with (Builder.Offset b).
  intros _ b2 (b1 & Hw & -> & Ha & Ho & Hh).
  set (b2 := Builder.with_current_vtable _ b1).
  pose proof Hw as (Hg & _ & Hoe & _ & Hn & _).
  assert (Hto : table_offset b2 = Builder.Offset b1 + 4)
    by exact (table_offset_of_aligned b2 Ha).
  assert (Hfs : Builder.vtable_fields [Builder.Offset b1] (table_offset b2) (Builder.objectEnd b2)
                = [6; Builder.Offset b1 + 4 - Builder.Offset b; 4]).
  { rewrite vtable_fields_present, Hto by lia.
    change (Builder.objectEnd b2) with (Builder.objectEnd b1). rewrite Hoe.
    do 2 f_equal. f_equal. lia. }
  eapply post_weaken.
  - apply (post_EndObject b2 [Builder.Offset b1] (wrote_wf b0 b1 Hwf Hw) Hn eq_refl); [ lia | ].
    rewrite Hfs. cbn [forallb]. rewrite !andb_true_iff, !fits_voffset. lia.
  - cbv beta. intros o b' (-> & Hg' & Hwf' & Hn' & _ & _ & _ & Hlen & Htab).
    rewrite Hto in *. rewrite Hfs in Htab. cbn [length] in Hlen.
    split; [ exact (transitivity Hg Hg') | ].
    repeat (split; [ assumption || lia | ]).
    split; [ rewrite <- Hto; apply table_offset_aligned | ].
    eapply opinfo_at_present; [ exact Htab | lia | ].
    replace (Builder.Offset b1 + 4 - 4) with (Builder.Offset b1) by lia.
    rewrite <- Hg'. exact Hh.
Qed.

End Table.

(** ** The vector *)

(** The loop that writes the elements: from an aligned offset, each offset
    takes four bytes, and the [j]-th written lies [4 * (j + 1)] bytes
    further from the end than where the loop started. *)
Lemma post_prepend_offsets offs : forall b,
  Builder.Offset b mod 4 = 0 ->
  Forall (fun e => 0 <= e <= Builder.Offset b) offs ->
  Builder.Offset b + 4 * len offs + 7 < 2 ^ 32 ->
  post (prepend_offsets offs) b (fun _ b' =>
    wrote b b' /\ Builder.Offset b' = Builder.Offset b + 4 * len offs /\
    forall j e, nth_error offs j = Some e ->
      holds packer.uoffset (Builder.Bytes b')
        (Builder.Offset b + 4 * (Z.of_nat j + 1))
        (Builder.Offset b + 4 * (Z.of_nat j + 1) - e)).
Proof.
  induction offs as [ | e rest IH]; intros b Ha Hall Hroom; cbn [prepend_offsets].
  - apply post_ret. split; [ reflexivity | ].
    split; [ cbn [length]; lia | intros [ | j] e' [=] ].
  - inversion Hall as [ | ? ? He Hrest]; subst. cbn [length] in Hroom.
    post_step post_PrependUOffsetTRelative; [ lia | lia | lia | ].
    rewrite (pad_of_aligned b Ha), Z.add_0_r.
    intros _ b1 (Hw1 & Ho1 & Ha1 & Hh1).
    eapply post_weaken.
    + apply (IH b1 Ha1); [ | lia ].
      eapply Forall_impl; [ | exact Hrest ]. cbv beta. intros. lia.
    + cbv beta. intros _ b' (Hw & Ho & Hh).
      split; [ exact (transitivity Hw1 Hw) | ].
      split; [ cbn [length]; lia | ].
      intros [ | j] e' Hj; cbn [nth_error] in Hj.
      * injection Hj as <-.
        replace (Builder.Offset b + 4 * (Z.of_nat 0 + 1)) with (Builder.Offset b1) by lia.
        rewrite <- Hw. exact Hh1.
      * specialize (Hh j e' Hj). rewrite Ho1 in Hh.
        replace (Builder.Offset b + 4 * (Z.of_nat (S j) + 1))
          with (Builder.Offset b + 4 + 4 * (Z.of_nat j + 1)) by lia.
        exact Hh.
Qed.

(** The vector of the entries at the offsets [entries]: the buffer holds, at
    the offset returned, their count followed by one relative offset to each
    of them, in the order given. *)
Lemma post_CreateVector entries b :
  wf b -> Builder.nested b = false ->
  Forall (fun e => 0 <= e <= Builder.Offset b) entries ->
  Builder.Offset b + 4 * len entries + 14 < 2 ^ 32 ->
  post (CreateOpKernelTypeStrArgsVector entries) b (fun vo b' =>
    grows b b' /\ wf b' /\ Builder.nested b' = false /\
    Builder.Offset b' = vo /\
    Builder.Offset b < vo <= Builder.Offset b + 4 * len entries + 7 /\
    vo mod 4 = 0 /\
    vector_at (Builder.Bytes b') vo entries).
Proof.
  intros Hwf Hn Hall Hroom. unfold CreateOpKernelTypeStrArgsVector.
  unfold OpInfoStartOpKernelTypeStrArgsVector.
  post_step post_StartVector; [ exact Hn | ].
  intros _ b1 (Hg1 & Ha1 & Ho1 & Hn1 & Hv1 & Hvts1 & Hm1 & _).
  pose proof (grows_Offset _ _ Hg1) as Hge1. pose proof (Offset_nonneg b) as Hge0.
  post_step (post_prepend_offsets (rev entries) b1 Ha1);
    [ | rewrite length_rev; lia | ].
  { apply Forall_rev. eapply Forall_impl; [ | exact Hall ]. cbv beta. intros. lia. }
  rewrite length_rev. intros _ b2 (Hw2 & Ho2 & Hh2).
  pose proof Hw2 as (Hg2 & _ & _ & Hvts2 & Hn2 & Hv2 & _ & Hm2).
  eapply post_weaken.
  - apply (post_EndVector (len entries) b2); [ congruence | congruence | lia ].
  - cbv beta. intros vo b' (-> & Ho' & Hg' & Hcount & Hn' & _ & Hvts' & Hm' & _).
    assert (Hg : grows b b') by (rewrite Hg1, Hg2; exact Hg').
    split; [ exact Hg | ].
    split; [ apply (wf_grows b b' Hwf Hg); [ congruence | lia ] | ].
    split; [ exact Hn' | ]. split; [ exact Ho' | ]. split; [ lia | ].
    split.
    { rewrite Ho2, <- Z.add_assoc, <- Z.add_mod_idemp_l, Ha1 by lia.
      rewrite <- Z.mul_succ_r, Z.add_0_l, Z.mul_comm. apply Z.mod_mul. lia. }
    split; [ exact Hcount | ].
    intros j e Hj. assert (Hlt : (j < length entries)%nat) by (apply nth_error_Some; congruence).
    specialize (Hh2 (length entries - S j)%nat e).
    rewrite nth_error_rev in Hh2.
    destruct (Nat.ltb_spec (length entries - S j) (length entries)); [ | lia ].
    replace (length entries - S (length entries - S j))%nat with j in Hh2 by lia.
    specialize (Hh2 Hj).
    replace (Builder.Offset b2 + 4 - 4 - 4 * Z.of_nat j)
      with (Builder.Offset b1 + 4 * (Z.of_nat (length entries - S j) + 1)) by lia.
    rewrite <- Hg'. exact Hh2.
Qed.

(** An offset beyond what is written is refused: an entry has to be in the
    buffer before the vector that refers to it. *)
Lemma prepend_offsets_refuses offs : forall b e,
  Builder.Offset b mod 4 = 0 ->
  In e offs -> Builder.Offset b + 4 * len offs <= e + 3 ->
  prepend_offsets offs b = Err PreconditionViolation.
Proof.
  induction offs as [ | e0 rest IH]; intros b e Ha Hin Hlt; [ destruct Hin | ].
  cbn [prepend_offsets length] in *.
  destruct (PrependUOffsetTRelative_aligned_cases e0 b Ha) as [He | (Hle & b' & Hrun & Ho)].
  - unfold sbind. rewrite He. reflexivity.
  - rewrite (sbind_Ok _ _ _ _ _ Hrun). destruct Hin as [-> | Hin]; [ lia | ].
    apply (IH b' e); [ rewrite Ho, <- Z.add_mod_idemp_l, Ha by lia; reflexivity | exact Hin | lia ].
Qed.

Lemma CreateVector_refuses es e b :
  Builder.nested b = false ->
  In e es -> Builder.Offset b + (- Builder.Offset b) mod 4 + 4 * len es <= e + 3 ->
  CreateOpKernelTypeStrArgsVector es b = Err PreconditionViolation.
Proof.
  intros Hn Hin Hlt. unfold CreateOpKernelTypeStrArgsVector, OpInfoStartOpKernelTypeStrArgsVector.
  destruct (post_StartVector (len es) b Hn) as (vo & b1 & Hrun & Hg & Ha & Ho & _).
  apply grows_Offset in Hg.
  rewrite (sbind_Ok _ _ _ _ _ Hrun). apply sbind_Err.
  apply (prepend_offsets_refuses (rev es) b1 e Ha); [ apply in_rev; rewrite rev_involutive; exact Hin | ].
  rewrite length_rev. Z.to_euclidean_division_equations. lia.
Qed.

(** ** [OpInfoEnd] closes the table *)

(** C9: Inside a table whose fields fit their vtable, [OpInfoEnd] returns an
    aligned offset at which the buffer holds the table, its vtable holding
    the fields recorded; the builder is idle again. *)
Theorem OpInfoEnd_closes b vt :
  wf b -> Builder.nested b = true -> Builder.current_vtable b = Some vt ->
  table_offset b < 2 ^ 31 ->
  forallb (packer.fits packer.voffset)
    (Builder.vtable_fields vt (table_offset b) (Builder.objectEnd b)) = true ->
  post OpInfoEnd b (fun o b' =>
    o = table_offset b /\ o mod 4 = 0 /\ grows b b' /\ wf b' /\
    Builder.nested b' = false /\ Builder.current_vtable b' = None /\
    table_at (Builder.Bytes b') o (Builder.vtable_fields vt o (Builder.objectEnd b))).
Proof.
  intros Hwf Hn Hvt Hroom Hfits. unfold OpInfoEnd. eapply post_weaken.
  - apply (post_EndObject b vt); assumption.
  - cbv beta. intros o b' (-> & Hg & Hwf' & Hn' & Hvt' & _ & _ & _ & Htab).
    split; [ reflexivity | ]. split; [ apply table_offset_aligned | ].
    repeat (split; [ assumption | ]). exact Htab.
Qed.

(** C10: Deduplication: when a vtable with the bytes of this table's vtable was
    written before and is remembered, [OpInfoEnd] writes no vtable: it adds
    the table's four-byte reference (and its padding) only, the reference
    leads to a remembered vtable of the same bytes, and the registry is
    unchanged. *)
Theorem OpInfoEnd_shares_vtable b vt v :
  Builder.nested b = true -> Builder.current_vtable b = Some vt ->
  table_offset b < 2 ^ 31 ->
  forallb (packer.fits packer.voffset)
    (Builder.vtable_fields vt (table_offset b) (Builder.objectEnd b)) = true ->
  In v (Builder.vtables b) ->
  bytes_at (Builder.Bytes b) v
    (Builder.vtable_image
       (Builder.vtable_fields vt (table_offset b) (Builder.objectEnd b))) ->
  post OpInfoEnd b (fun o b' =>
    o = table_offset b /\ Builder.Offset b' = o /\
    Builder.vtables b' = Builder.vtables b /\
    exists v', In v' (Builder.vtables b) /\
      holds packer.soffset (Builder.Bytes b') o (v' - o)).
Proof.
  intros Hn Hvt Hroom Hfits Hin Hat. unfold OpInfoEnd.
  destruct (WriteVtable_dedup (Builder.with_nested false b) vt Hvt Hroom Hfits v Hin Hat)
    as (v' & b' & Hrun & Hin' & Hvts & Ho & Hh).
  eapply post_run; [ rewrite (run_EndObject b Hn); exact Hrun | ]. split; [ reflexivity | ].
  split; [ exact Ho | ]. split; [ exact Hvts | ]. exists v'. split; assumption.
Qed.

(** The size of a table, which its vtable records, counts the padding in
    front of the table.  The vtable of the first of three tables with the
    same field absent is six bytes long and leaves the builder two bytes off
    a multiple of four, so the second table is padded, its vtable differs
    (size 6 against 4) and is written too; the third table is padded like the
    second and shares the vtable of the second. *)
Example padding_defeats_sharing :
  post (o1 <~ CreateOpInfo 0 ;; o2 <~ CreateOpInfo 0 ;; o3 <~ CreateOpInfo 0 ;;
        sret (o1, o2, o3)) Builder.init (fun os b' =>
    os = (4, 16, 28) /\ Builder.vtables b' = [22; 10] /\
    holds packer.soffset (Builder.Bytes b') 4 (10 - 4) /\
    holds packer.soffset (Builder.Bytes b') 16 (22 - 16) /\
    holds packer.soffset (Builder.Bytes b') 28 (22 - 28) /\
    holds packer.voffset (Builder.Bytes b') (10 - 2) 4 /\
    holds packer.voffset (Builder.Bytes b') (22 - 2) 6).
Proof. eapply post_run; [ vm_compute; reflexivity | by_compute ]. Qed.

(** ** What a reader finds in what was written *)

(** C8: A table written without the vector is read as a table without the
    field: [OpKernelTypeStrArgsIsNone] is true and the length is 0. *)
Theorem CreateOpInfo_absent b :
  wf b -> Builder.nested b = false -> Builder.Offset b + 16 < 2 ^ 31 ->
  post (CreateOpInfo 0) b (fun o b' =>
    grows b b' /\ o mod 4 = 0 /\
    opinfo_at (Builder.Bytes b') o None /\
    OpKernelTypeStrArgsIsNone (view (Builder.Bytes b') o) = Ok true /\
    OpKernelTypeStrArgsLength (view (Builder.Bytes b') o) = Ok 0).
Proof.
  intros Hwf Hn Hroom. eapply post_weaken.
  - apply post_CreateOpInfo_absent; assumption.
  - cbv beta. intros o b' (Hg & _ & _ & _ & _ & Ha & Htab).
    pose proof (accessors_of_absent _ (field_offset_absent _ _ Htab)) as (H1 & H2 & _).
    auto 6.
Qed.

(** C7: A table written with the offset of a vector is read as a table with the
    field: [OpKernelTypeStrArgsIsNone] is false and the length is the
    vector's. *)
Theorem CreateOpInfo_present b vo es :
  wf b -> Builder.nested b = false -> Builder.Offset b + 16 < 2 ^ 31 ->
  vo <> 0 -> 0 <= vo <= Builder.Offset b ->
  vector_at (Builder.Bytes b) vo es ->
  post (CreateOpInfo vo) b (fun o b' =>
    grows b b' /\ o mod 4 = 0 /\
    opinfo_at (Builder.Bytes b') o (Some vo) /\
    OpKernelTypeStrArgsIsNone (view (Builder.Bytes b') o) = Ok false /\
    OpKernelTypeStrArgsLength (view (Builder.Bytes b') o) = Ok (len es)).
Proof.
  intros Hwf Hn Hroom Hvo Hr Hvec. eapply post_weaken.
  - apply post_CreateOpInfo_present; assumption.
  - cbv beta. intros o b' (Hg & _ & _ & _ & _ & Ha & Htab).
    pose proof Hvec as Hvec'. rewrite Hg in Hvec'.
    pose proof (IsNone_present _ _ vo Htab). pose proof (Length_present _ _ vo es Htab Hvec').
    auto 6.
Qed.

(** C6: The vector of the entries: at the aligned offset returned the buffer
    holds the count of the entries and a relative offset to each, in the
    order given, although they were written last to first. *)
Theorem CreateVector_vector_at es b :
  wf b -> Builder.nested b = false ->
  Forall (fun e => 0 <= e <= Builder.Offset b) es ->
  Builder.Offset b + 4 * len es + 14 < 2 ^ 32 ->
  post (CreateOpKernelTypeStrArgsVector es) b (fun vo b' =>
    grows b b' /\ vo mod 4 = 0 /\ Builder.nested b' = false /\
    vector_at (Builder.Bytes b') vo es).
Proof.
  intros Hwf Hn Hall Hroom. eapply post_weaken.
  - apply post_CreateVector; assumption.
  - cbv beta. intros vo b' (Hg & _ & Hn' & _ & _ & Ha & Hvec). auto.
Qed.

(** ** Instances on the sample builders *)

Lemma wf_sample_builder : wf sample_builder.
Proof. split; [ repeat constructor | ]; by_compute. Qed.

Lemma wf_sample_vector_builder : wf sample_vector_builder.
Proof. split; [ repeat constructor | ]; by_compute. Qed.

Lemma wf_sample_started_builder : wf sample_started_builder.
Proof. split; [ repeat constructor | ]; by_compute. Qed.

Lemma sample_vector_at :
  vector_at (Builder.Bytes sample_vector_builder) 32 [4; 12; 16].
Proof.
  split; [ reflexivity | ].
  intros j e Hj.
  do 3 (destruct j as [ | j]; [ injection Hj as <-; vm_compute; reflexivity | ]).
  destruct j; discriminate Hj.
Qed.

Lemma OpInfoAdd_outside_object_witness :
  OpInfoAddOpKernelTypeStrArgs 32 sample_vector_builder = Err PreconditionViolation.
Proof. apply OpInfoAdd_outside_object; by_compute. Defined.

Lemma OpInfoAdd_writes_witness :
  post (OpInfoAddOpKernelTypeStrArgs 32) sample_started_builder (fun _ b' =>
    exists b1, wrote sample_started_builder b1 /\
      b' = Builder.with_current_vtable (Some (List.upd [0] 0 (Builder.Offset b1))) b1 /\
      Builder.Offset b1 mod 4 = 0 /\
      Builder.Offset sample_started_builder < Builder.Offset b1
        <= Builder.Offset sample_started_builder + 7 /\
      holds packer.uoffset (Builder.Bytes b1) (Builder.Offset b1) (Builder.Offset b1 - 32)).
Proof. apply OpInfoAdd_writes; by_compute. Defined.

Lemma StartVector_inside_object_witness :
  OpInfoStartOpKernelTypeStrArgsVector 3 sample_started_builder = Err PreconditionViolation.
Proof. apply StartVector_inside_object. reflexivity. Defined.

Lemma StartVector_aligns_witness :
  post (OpInfoStartOpKernelTypeStrArgsVector 3) sample_builder (fun _ b' =>
    grows sample_builder b' /\ Builder.Offset b' mod 4 = 0 /\
    Builder.Offset b' < Builder.Offset sample_builder + 4 /\
    Builder.nested b' = true /\ Builder.vectorNumElems b' = Some 3 /\
    Builder.vtables b' = Builder.vtables sample_builder /\
    Builder.minalign sample_builder <= Builder.minalign b'
      <= Z.max (Builder.minalign sample_builder) 4 /\
    Builder.finished b' = Builder.finished sample_builder).
Proof. apply StartVector_aligns. reflexivity. Defined.

Lemma OpInfoEnd_outside_object_witness :
  OpInfoEnd sample_vector_builder = Err PreconditionViolation.
Proof. apply OpInfoEnd_outside_object. reflexivity. Defined.

Lemma OpInfoEnd_closes_witness :
  post OpInfoEnd sample_started_builder (fun o b' =>
    o = table_offset sample_started_builder /\ o mod 4 = 0 /\
    grows sample_started_builder b' /\ wf b' /\
    Builder.nested b' = false /\ Builder.current_vtable b' = None /\
    table_at (Builder.Bytes b') o
      (Builder.vtable_fields [0] o (Builder.objectEnd sample_started_builder))).
Proof.
  apply OpInfoEnd_closes; [ apply wf_sample_started_builder | by_compute .. ].
Defined.

Lemma CreateOpInfo_absent_witness :
  post (CreateOpInfo 0) Builder.init (fun o b' =>
    grows Builder.init b' /\ o mod 4 = 0 /\
    opinfo_at (Builder.Bytes b') o None /\
    OpKernelTypeStrArgsIsNone (view (Builder.Bytes b') o) = Ok true /\
    OpKernelTypeStrArgsLength (view (Builder.Bytes b') o) = Ok 0).
Proof. apply CreateOpInfo_absent; [ apply wf_init | by_compute .. ]. Defined.

Lemma CreateOpInfo_present_witness :
  post (CreateOpInfo 32) sample_vector_builder (fun o b' =>
    grows sample_vector_builder b' /\ o mod 4 = 0 /\
    opinfo_at (Builder.Bytes b') o (Some 32) /\
    OpKernelTypeStrArgsIsNone (view (Builder.Bytes b') o) = Ok false /\
    OpKernelTypeStrArgsLength (view (Builder.Bytes b') o) = Ok (len [4; 12; 16])).
Proof.
  apply CreateOpInfo_present;
    [ apply wf_sample_vector_builder | by_compute .. | apply sample_vector_at ].
Defined.

Lemma CreateVector_vector_at_witness :
  post (CreateOpKernelTypeStrArgsVector [4; 12; 16]) sample_builder (fun vo b' =>
    grows sample_builder b' /\ vo mod 4 = 0 /\ Builder.nested b' = false /\
    vector_at (Builder.Bytes b') vo [4; 12; 16]).
Proof.
  apply CreateVector_vector_at;
    [ apply wf_sample_builder | reflexivity | repeat constructor; by_compute | by_compute ].
Defined.

(** The builder after one entry, inside a second one: the vtable of the
    first, at offset 8, has the bytes the second needs. *)
Lemma OpInfoEnd_shares_vtable_witness :
  post OpInfoEnd sample_second_builder (fun o b' =>
    o = table_offset sample_second_builder /\ Builder.Offset b' = o /\
    Builder.vtables b' = Builder.vtables sample_second_builder /\
    exists v', In v' (Builder.vtables sample_second_builder) /\
      holds packer.soffset (Builder.Bytes b') o (v' - o)).
Proof.
  apply (OpInfoEnd_shares_vtable sample_second_builder [] 8);
    [ by_compute .. | left; reflexivity | split; by_compute ].
Defined.
