(* ===== verification/RoundTrip.v ===== *)
(** * RoundTrip: writing an [OpInfo] and reading it back

    [serialize] is the writer's whole program: the vector of the entries
    (when there is one), the [OpInfo] table, the identifier and the root
    offset, and the finished buffer.  [deserialize] is the reader's: the
    root accessor, then the value read through the accessors.  The entries
    themselves are tables written before; they are named by their offsets.

    The round trip: what [deserialize] reads from the buffer [serialize]
    returns is the value written, each entry found at the position its
    offset denotes in the finished buffer; the buffer carries the
    identifier ["ORTM"], its length and the position of its root table are
    multiples of four, and what was in the buffer before is still there.

    [Codec] states what a writer and a reader promise each other: the
    writer establishes a layout, the reader reads a buffer of that layout
    back.  The round trip is proved from the two promises alone
    ([codec_roundtrip]); [serialize] with [deserialize] is one instance,
    and [serialize_v0], which writes the table without the field as an
    older schema did, with the same reader is another: forward
    compatibility.  The last theorems are the failures: what the writer
    refuses, and that the reader fails with [OutOfRange] only.

    The layout is exactly what the reader accepts
    ([deserialize_at_iff_layout]), and the writer is injective
    ([serialize_injective]).  [Pack] writes the
    vector and the table of a value without finishing the buffer, so that
    several tables can be written one after the other: each reads back as
    its own value ([Pack_twice]).

    [deserialize_at] is the reader at any [offset], as [GetRootAsOpInfo]
    takes one: a serialized buffer placed after a prefix (a size prefix,
    or the bytes of an enclosing file) reads as the same value with the
    positions shifted by the prefix ([deserialize_embedded]), and a
    successful read bounds the number of entries by the length of the
    buffer ([deserialize_length_bound]). *)

From Stdlib Require Import ZArith List Lia Bool Morphisms RelationClasses.
From coqutil Require Import Byte Word.LittleEndianList.
From S2P Require Import Prelude ByteBuffer TableView BuilderCore Samples OpInfo.
From S2P Require Import Layout LayoutDec BuilderLemmas Registry BuilderSpec Writers.
Import ListNotations.
#[local] Open Scope Z_scope.
#[local] Open Scope fb_scope.

Definition serialize (entries : option (list Z)) : state Builder.t bytes :=
  vo <~ match entries with
        | Some es => CreateOpKernelTypeStrArgsVector es
        | None => sret 0
        end ;;
  o <~ CreateOpInfo vo ;;
  Builder.Finish o (Some OpInfo_identifier) ;;;
  Builder.Output.

Definition deserialize (buf : bytes) : result (option (list Z)) :=
  root <- GetRootAsOpInfo buf 0 ;;
  read_entries root.

(** The reader of a buffer that starts at position [offset] of [buf]: after
    a size prefix, or inside a larger message. *)
Definition deserialize_at (buf : bytes) (offset : Z) : result (option (list Z)) :=
  root <- GetRootAsOpInfo buf offset ;;
  read_entries root.

(** The writer of an older schema, in which the table has no field yet: a
    table without field slot, the identifier and the root offset. *)
Definition serialize_v0 : state Builder.t bytes :=
  o <~ CreateEmptyEntry ;;
  Builder.Finish o (Some OpInfo_identifier) ;;;
  Builder.Output.

(** A writer and a reader that agree on a layout.  [accepts b v]: the
    writer can write [v] in state [b]; [layout buf v]: the buffer represents
    [v]; [value_in buf v]: what a reader is to find in a buffer that
    represents [v]. *)
Class Codec (V R : Type) : Type := {
  accepts : Builder.t -> V -> Prop;
  writer : V -> state Builder.t bytes;
  reader : bytes -> result R;
  layout : bytes -> V -> Prop;
  value_in : bytes -> V -> R;
  writer_layout : forall v b,
    accepts b v -> post (writer v) b (fun buf _ => layout buf v);
  reader_layout : forall buf v, layout buf v -> reader buf = Ok (value_in buf v)
}.

(** What the writer has to respect: the entries are tables written before,
    and the buffer stays below two gigabytes. *)
Definition writable (b : Builder.t) (v : option (list Z)) : Prop :=
  wf b /\ Builder.nested b = false /\
  match v with
  | Some es => Forall (fun e => 0 <= e <= Builder.Offset b) es /\
               Builder.Offset b + 4 * len es + 44 < 2 ^ 31
  | None => Builder.Offset b + 37 < 2 ^ 31
  end.

(** The scenario: three entries, their vector, the table, the finished
    buffer. *)
Definition scenario_three : state Builder.t bytes :=
  e1 <~ CreateEmptyEntry ;;
  e2 <~ CreateEmptyEntry ;;
  e3 <~ CreateEmptyEntry ;;
  serialize (Some [e1; e2; e3]).

(** The same without a vector, and with a vector of no entries. *)
Definition scenario_absent : state Builder.t bytes :=
  serialize None.

Definition scenario_empty : state Builder.t bytes :=
  serialize (Some []).

(** The table of a value with, before it, its vector: what the [Pack]
    method of flatc's object API does with the four functions. *)
Definition Pack (v : option (list Z)) : state Builder.t Z :=
  vo <~ match v with
        | Some es => CreateOpKernelTypeStrArgsVector es
        | None => sret 0
        end ;;
  CreateOpInfo vo.

(** The bytes [Pack] needs at most, padding included. *)
Definition packed_size (v : option (list Z)) : Z :=
  match v with
  | Some es => 4 * len es + 24
  | None => 16
  end.

(** The entries of a value are tables of the buffer. *)
Definition entries_in (b : Builder.t) (v : option (list Z)) : Prop :=
  match v with
  | Some es => Forall (fun e => 0 <= e <= Builder.Offset b) es
  | None => True
  end.

(** ** Reading refines the layout *)

(** Reading at the position of a root offset. *)
Lemma deserialize_at_layout buf start o v :
  root_at buf start o -> value_at buf o v ->
  deserialize_at buf start = Ok (option_map (map (pos_of buf)) v).
Proof.
  intros Hroot Hv. unfold deserialize_at.
  rewrite (root_refines buf o start Hroot). cbn [bind].
  exact (read_entries_value_at buf o v Hv).
Qed.

Lemma deserialize_serialized buf v :
  serialized buf v -> deserialize buf = Ok (option_map (map (pos_of buf)) v).
Proof.
  intros (o & Hroot & _ & Hv). apply (deserialize_at_layout buf 0 o v Hroot).
  destruct v as [es | ]; [ | exact Hv ].
  destruct Hv as (vo & _ & Htab & Hvec). exists vo. auto.
Qed.

(** A buffer represents one value at most. *)
Lemma serialized_functional buf v v' : serialized buf v -> serialized buf v' -> v = v'.
Proof.
  intros H H'. apply deserialize_serialized in H, H'. rewrite H in H'.
  injection H' as H'.
  assert (Hinj : forall x y, pos_of buf x = pos_of buf y -> x = y)
    by (unfold pos_of; intros; lia).
  destruct v, v'; cbn [option_map] in H'; try discriminate; [ | reflexivity ].
  injection H' as H'. f_equal. exact (map_inj _ Hinj _ _ H').
Qed.

(** Bytes in front of a buffer move its root offset and its identifier by
    their number. *)
Lemma root_at_prepend pre buf o : root_at buf 0 o -> root_at (pre ++ buf) (len pre) o.
Proof.
  unfold root_at, pos_of. intros H.
  rewrite <- (Z.add_0_r (len pre)) at 1. rewrite Get_app_r, H by lia. f_equal. len_solve.
Qed.

Lemma identifier_prepend pre buf :
  OpInfoBufferHasIdentifier (pre ++ buf) (len pre) false = OpInfoBufferHasIdentifier buf 0 false.
Proof.
  unfold OpInfoBufferHasIdentifier, util.BufferHasIdentifier. cbv zeta.
  replace (len pre + 4 + 0) with (len pre + 4) by lia. rewrite slice_app_r by lia.
  destruct (Z.leb_spec 0 (len pre + 4)); [ reflexivity | lia ].
Qed.

(** ** Writing establishes the layout *)

Section Serialize.
Variable b : Builder.t.
Hypothesis Hwf : wf b.
Hypothesis Hidle : Builder.nested b = false.

(** The table, whatever its field. *)
Lemma post_CreateOpInfo (field : option Z) :
  Builder.Offset b + 16 < 2 ^ 31 ->
  (forall vo, field = Some vo -> 0 < vo <= Builder.Offset b) ->
  post (CreateOpInfo (match field with Some vo => vo | None => 0 end)) b (fun o b' =>
    grows b b' /\ wf b' /\
    0 <= o <= Builder.Offset b' /\ Builder.Offset b' <= Builder.Offset b + 17 /\
    o mod 4 = 0 /\ opinfo_at (Builder.Bytes b') o field).
Proof.
  intros Hroom Hfield. pose proof (Offset_nonneg b).
  destruct field as [vo | ].
  - specialize (Hfield vo eq_refl). eapply post_weaken.
    + apply post_CreateOpInfo_present; try assumption; lia.
    + cbv beta. intros o b' (Hg & Hwf' & _ & Ho & Hlen & Ha & Htab).
      split; [ exact Hg | ]. split; [ exact Hwf' | ]. repeat split; assumption || lia.
  - eapply post_weaken.
    + apply post_CreateOpInfo_absent; try assumption; lia.
    + cbv beta. intros o b' (Hg & Hwf' & _ & Ho & Hlen & Ha & Htab).
      split; [ exact Hg | ]. split; [ exact Hwf' | ]. repeat split; assumption || lia.
Qed.

(** From a table, however it was written, to the finished buffer. *)
Lemma post_finish_table (m : state Builder.t Z) (field : option Z) :
  Builder.Offset b + 37 < 2 ^ 31 ->
  post m b (fun o b' =>
    grows b b' /\ wf b' /\
    0 <= o <= Builder.Offset b' /\ Builder.Offset b' <= Builder.Offset b + 17 /\
    o mod 4 = 0 /\ opinfo_at (Builder.Bytes b') o field) ->
  post (o <~ m ;; Builder.Finish o (Some OpInfo_identifier) ;;; Builder.Output) b
    (fun buf b' =>
    buf = Builder.Bytes b' /\ grows b b' /\ Builder.finished b' = true /\
    len buf mod 4 = 0 /\ len buf <= Builder.Offset b + 35 /\
    OpInfoBufferHasIdentifier buf 0 false = true /\
    exists o, root_at buf 0 o /\ o mod 4 = 0 /\ opinfo_at buf o field).
Proof.
  intros Hroom Hm. apply post_bind. eapply post_weaken; [ exact Hm | cbv beta ].
  intros o b1 (Hg1 & Hwf1 & Ho1 & Hlen1 & Hao & Htab).
  post_step (post_Finish o OpInfo_identifier b1 Hwf1 eq_refl); [ lia | lia | ].
  intros _ b2 (_ & Hg2 & Hfin & Hroot & Hid & Ha & Hlen2).
  unfold Builder.Output. apply post_get_bind, post_assert_bind; [ exact Hfin | ].
  apply post_ret. split; [ reflexivity | ].
  split; [ exact (transitivity Hg1 Hg2) | ]. split; [ exact Hfin | ].
  split; [ exact Ha | ]. split; [ unfold Builder.Offset in *; lia | ].
  split; [ apply BufferHasIdentifier_true_iff; split; [ lia | exact Hid ] | ].
  exists o. split; [ exact Hroot | ]. split; [ exact Hao | rewrite <- Hg2; exact Htab ].
Qed.

Lemma post_finish_output (field : option Z) :
  Builder.Offset b + 37 < 2 ^ 31 ->
  (forall vo, field = Some vo -> 0 < vo <= Builder.Offset b) ->
  post (o <~ CreateOpInfo (match field with Some vo => vo | None => 0 end) ;;
        Builder.Finish o (Some OpInfo_identifier) ;;; Builder.Output) b (fun buf b' =>
    buf = Builder.Bytes b' /\ grows b b' /\ Builder.finished b' = true /\
    len buf mod 4 = 0 /\ len buf <= Builder.Offset b + 35 /\
    OpInfoBufferHasIdentifier buf 0 false = true /\
    exists o, root_at buf 0 o /\ o mod 4 = 0 /\ opinfo_at buf o field).
Proof.
  intros Hroom Hfield. apply post_finish_table; [ exact Hroom | ].
  apply post_CreateOpInfo; [ lia | exact Hfield ].
Qed.

(** The older writer establishes the layout of an [OpInfo] without a
    vector. *)
Lemma post_serialize_v0 :
  Builder.Offset b + 37 < 2 ^ 31 ->
  post serialize_v0 b (fun buf b' =>
    buf = Builder.Bytes b' /\ Builder.finished b' = true /\
    OpInfoBufferHasIdentifier buf 0 false = true /\ serialized buf None).
Proof.
  intros Hroom. unfold serialize_v0. eapply post_weaken.
  - apply (post_finish_table CreateEmptyEntry None Hroom).
    pose proof (Offset_nonneg b).
    eapply post_weaken; [ apply (post_CreateEmptyEntry b Hwf Hidle); lia | cbv beta ].
    intros o b' (Hg & Hwf' & _ & Ho & Hlen & Ha & Htab).
    do 4 (split; [ assumption || lia | ]). split; assumption.
  - cbv beta. intros buf b' (Hb & _ & Hfin & _ & _ & Hid & o & Hroot & Hao & Htab).
    do 3 (split; [ assumption | ]). exists o. auto.
Qed.

End Serialize.

(** ** Tables side by side *)

Lemma entries_in_grows b b' v : grows b b' -> entries_in b v -> entries_in b' v.
Proof.
  intros Hg. apply grows_Offset in Hg. destruct v as [es | ]; [ | trivial ].
  apply Forall_impl. intros e. lia.
Qed.

(** [Pack] leaves the table of the value at the offset it returns, and the
    builder idle. *)
Lemma post_Pack v b :
  wf b -> Builder.nested b = false ->
  entries_in b v -> Builder.Offset b + packed_size v < 2 ^ 31 ->
  post (Pack v) b (fun o b' =>
    grows b b' /\ wf b' /\ Builder.nested b' = false /\
    Builder.Offset b < o <= Builder.Offset b' /\
    Builder.Offset b' <= Builder.Offset b + packed_size v /\
    value_at (Builder.Bytes b') o v).
Proof.
  intros Hwf Hidle Hin Hroom. pose proof (Offset_nonneg b). unfold Pack.
  destruct v as [es | ]; cbn [entries_in packed_size value_at] in *.
  - post_step (post_CreateVector es b Hwf Hidle Hin); [ lia | ].
    intros vo b1 (Hg1 & Hwf1 & Hn1 & Ho1 & Hvo & _ & Hvec).
    eapply post_weaken;
      [ apply (post_CreateOpInfo_present b1 Hwf1 Hn1); lia | cbv beta ].
    intros o b' (Hg & Hwf' & Hn' & Ho & Hlen & _ & Htab).
    split; [ exact (transitivity Hg1 Hg) | ]. do 2 (split; [ assumption | ]).
    do 2 (split; [ lia | ]). exists vo. split; [ exact Htab | rewrite <- Hg; exact Hvec ].
  - apply post_bind, post_ret. eapply post_weaken;
      [ apply (post_CreateOpInfo_absent b Hwf Hidle); lia | cbv beta ].
    intros o b' (Hg & Hwf' & Hn' & Ho & Hlen & _ & Htab).
    do 3 (split; [ assumption | ]). do 2 (split; [ lia | ]). exact Htab.
Qed.

(** [serialize] returns a finished buffer that represents the value
    written, carries the identifier, is a multiple of four bytes long, and
    ends with the bytes that were written before. *)
Lemma post_serialize v b :
  writable b v ->
  post (serialize v) b (fun buf b' =>
    buf = Builder.Bytes b' /\ grows b b' /\ Builder.finished b' = true /\
    len buf mod 4 = 0 /\
    OpInfoBufferHasIdentifier buf 0 false = true /\
    serialized buf v).
Proof.
  intros (Hwf & Hidle & Hv). pose proof (Offset_nonneg b).
  unfold serialize. destruct v as [es | ].
  - destruct Hv as [Hall Hroom].
    post_step (post_CreateVector es b Hwf Hidle Hall); [ lia | ].
    intros vo b1 (Hg1 & Hwf1 & Hn1 & Ho1 & Hvo & Hva & Hvec).
    eapply post_weaken.
    + apply (post_finish_output b1 Hwf1 Hn1 (Some vo)); [ lia | ].
      intros ? [= <-]. lia.
    + cbv beta. intros buf b' (-> & Hg & Hfin & Ha & _ & Hid & o & Hroot & Hao & Htab).
      split; [ reflexivity | ]. split; [ exact (transitivity Hg1 Hg) | ].
      repeat (split; [ assumption | ]).
      exists o. split; [ exact Hroot | ]. split; [ exact Hao | ]. exists vo.
      split; [ exact Hva | ]. split; [ exact Htab | rewrite <- Hg; exact Hvec ].
  - apply post_bind, post_ret. eapply post_weaken.
    + apply (post_finish_output b Hwf Hidle None); [ exact Hv | discriminate ].
    + cbv beta. intros buf b' (-> & Hg & Hfin & Ha & _ & Hid & o & Hroot & Hao & Htab).
      repeat (split; [ assumption || reflexivity | ]).
      exists o. auto.
Qed.

(** ** The writers and the reader as codecs *)

Lemma serialize_layout v b :
  writable b v -> post (serialize v) b (fun buf _ => serialized buf v).
Proof.
  intros Hw. eapply post_weaken; [ apply post_serialize, Hw | ].
  cbv beta. intros buf b' (_ & _ & _ & _ & _ & Hs). exact Hs.
Qed.

Lemma serialize_v0_layout (u : unit) b :
  wf b /\ Builder.nested b = false /\ Builder.Offset b + 37 < 2 ^ 31 ->
  post serialize_v0 b (fun buf _ => serialized buf None).
Proof.
  intros (Hwf & Hidle & Hroom).
  eapply post_weaken; [ apply post_serialize_v0; assumption | ].
  cbv beta. intros buf b' (_ & _ & _ & Hs). exact Hs.
Qed.

(** The writer and the reader of [OpInfo.py]. *)
#[export] Instance OpInfo_Codec : Codec (option (list Z)) (option (list Z)) := {|
  accepts := writable;
  writer := serialize;
  reader := deserialize;
  layout := serialized;
  value_in := fun buf v => option_map (map (pos_of buf)) v;
  writer_layout := serialize_layout;
  reader_layout := deserialize_serialized
|}.

(** The writer of the older schema, with the reader of [OpInfo.py]. *)
#[export] Instance OpInfo_v0_Codec : Codec unit (option (list Z)) := {|
  accepts := fun b _ =>
    wf b /\ Builder.nested b = false /\ Builder.Offset b + 37 < 2 ^ 31;
  writer := fun _ => serialize_v0;
  reader := deserialize;
  layout := fun buf _ => serialized buf None;
  value_in := fun _ _ => None;
  writer_layout := serialize_v0_layout;
  reader_layout := fun buf _ => deserialize_serialized buf None
|}.

(** What a reader finds in what a writer wrote, for every codec. *)
Lemma codec_roundtrip {V R : Type} {C : Codec V R} (v : V) (b : Builder.t) :
  accepts b v -> post (writer v) b (fun buf _ => reader buf = Ok (value_in buf v)).
Proof.
  intros Ha. eapply post_weaken; [ apply writer_layout, Ha | ].
  cbv beta. intros buf _. apply reader_layout.
Qed.

(** The accessors on a buffer that represents [v]. *)
Lemma accessors_serialized buf v :
  serialized buf v ->
  exists root,
    GetRootAsOpInfo buf 0 = Ok root /\
    OpKernelTypeStrArgsIsNone root = Ok (match v with Some _ => false | None => true end) /\
    OpKernelTypeStrArgsLength root = Ok (match v with Some es => len es | None => 0 end) /\
    (v = None -> forall j, OpKernelTypeStrArgs root j = Ok None).
Proof.
  intros (o & Hroot & _ & Hv). exists (view buf o).
  split; [ exact (root_refines buf o 0 Hroot) | ].
  destruct v as [es | ].
  - destruct Hv as (vo & _ & Htab & Hvec).
    pose proof (IsNone_present buf o vo Htab).
    pose proof (Length_present buf o vo es Htab Hvec). repeat split; auto. discriminate.
  - pose proof (accessors_of_absent _ (field_offset_absent _ _ Hv)) as (H1 & H2 & H3). auto.
Qed.

(** ** The theorems *)

(** C3: On a buffer that represents [v], the root accessor succeeds and the
    accessors of the object it returns report [v]: whether the vector is
    there, its length, and through [read_entries] each entry at the position
    its offset denotes. *)
Theorem deserialize_refines buf v :
  serialized buf v ->
  exists root,
    GetRootAsOpInfo buf 0 = Ok root /\
    OpKernelTypeStrArgsIsNone root = Ok (match v with Some _ => false | None => true end) /\
    OpKernelTypeStrArgsLength root = Ok (match v with Some es => len es | None => 0 end) /\
    deserialize buf = Ok (option_map (map (pos_of buf)) v).
Proof.
  intros Hs. pose proof (deserialize_serialized buf v Hs) as Hd.
  destruct (accessors_serialized buf v Hs) as (root & Hr & Hn & Hl & _).
  exists root. auto.
Qed.

(** C14: The layout is exactly what the reader accepts: at any [offset], the
    root accessor and the accessors return a value if and only if the root
    offset stored there refers to a table of that value, with its vector
    when the value has one. *)
Theorem deserialize_at_iff_layout buf start v :
  deserialize_at buf start = Ok (option_map (map (pos_of buf)) v) <->
  exists o, root_at buf start o /\ value_at buf o v.
Proof.
  split; [ | intros (o & Hroot & Hv); exact (deserialize_at_layout buf start o v Hroot Hv) ].
  unfold deserialize_at. intros H. apply bind_Ok_iff in H. destruct H as (root & Hroot & H).
  apply GetRootAsOpInfo_Ok_iff in Hroot. destruct Hroot as (n & Hn & ->).
  exists (len buf - (n + start)). split.
  - unfold root_at, pos_of. rewrite Hn. f_equal. lia.
  - apply value_at_of_read. unfold view, pos_of, Init.
    replace (len buf - (len buf - (n + start))) with (n + start) by lia. exact H.
Qed.

(** C2: The writer establishes the layout: the buffer [serialize] returns is
    finished and represents the value written. *)
Theorem serialize_refines v b :
  writable b v ->
  post (serialize v) b (fun buf b' =>
    buf = Builder.Bytes b' /\ Builder.finished b' = true /\ serialized buf v).
Proof.
  intros Hw. eapply post_weaken; [ apply post_serialize, Hw | ].
  cbv beta. intros buf b' (Hb & _ & Hfin & _ & _ & Hs). auto.
Qed.

(** C26: Alignment: the buffer [serialize] returns is a multiple of four bytes
    long, the table the root accessor returns is at a position that is a
    multiple of four, and so is the first element of the vector. *)
Theorem serialize_aligned v b :
  writable b v ->
  post (serialize v) b (fun buf _ =>
    len buf mod 4 = 0 /\
    exists pos,
      GetRootAsOpInfo buf 0 = Ok (Init OpInfo_new buf pos) /\ pos mod 4 = 0 /\
      (v <> None ->
       exists fo x,
         field_offset (Init OpInfo_new buf pos) = Ok fo /\
         Table.Vector (Table.mk buf pos) fo = Ok x /\ x mod 4 = 0)).
Proof.
  intros Hw. eapply post_weaken; [ apply post_serialize, Hw | ].
  cbv beta. intros buf b' (_ & _ & _ & Ha & _ & o & Hroot & Hao & Hv).
  assert (Hmod : forall x, x mod 4 = 0 -> pos_of buf x mod 4 = 0)
    by (intros x Hx; unfold pos_of; rewrite Zminus_mod, Ha, Hx; reflexivity).
  split; [ exact Ha | ]. exists (pos_of buf o).
  split; [ exact (root_refines buf o 0 Hroot) | ]. split; [ exact (Hmod o Hao) | ].
  destruct v as [es | ]; [ intros _ | congruence ].
  destruct Hv as (vo & Hva & Htab & _).
  destruct (vector_present buf o vo Htab) as (fo & Hfo & _ & Hx).
  exists fo, (pos_of buf vo + 4). split; [ exact Hfo | ]. split; [ exact Hx | ].
  rewrite <- Z.add_mod_idemp_l, (Hmod vo Hva) by lia. reflexivity.
Qed.

(** C1: The round trip: reading the buffer [serialize] returns gives the value
    written, each entry at the position its offset denotes. *)
Theorem serialize_roundtrip v b :
  writable b v ->
  post (serialize v) b (fun buf _ =>
    deserialize buf = Ok (option_map (map (pos_of buf)) v)).
Proof. exact (codec_roundtrip (C := OpInfo_Codec) v b). Qed.

(** C12: Forward compatibility, from the writer to the reader: a buffer written
    by the older schema, whose table has no field yet, carries the
    identifier and is read by the accessors of [OpInfo.py] as an [OpInfo]
    without a vector; no accessor fails. *)
Theorem forward_compatible b :
  wf b -> Builder.nested b = false -> Builder.Offset b + 37 < 2 ^ 31 ->
  post serialize_v0 b (fun buf _ =>
    OpInfoBufferHasIdentifier buf 0 false = true /\
    deserialize buf = Ok None /\
    exists root,
      GetRootAsOpInfo buf 0 = Ok root /\
      OpKernelTypeStrArgsIsNone root = Ok true /\
      OpKernelTypeStrArgsLength root = Ok 0 /\
      forall j, OpKernelTypeStrArgs root j = Ok None).
Proof.
  intros Hwf Hidle Hroom. eapply post_weaken; [ apply post_serialize_v0; assumption | ].
  cbv beta. intros buf b' (_ & _ & Hid & Hs).
  split; [ exact Hid | ]. split; [ exact (reader_layout (Codec := OpInfo_v0_Codec) buf tt Hs) | ].
  destruct (accessors_serialized buf None Hs) as (root & Hr & Hn & Hl & Hj).
  exists root. auto.
Qed.

(** C13: A buffer behind a prefix: read at the position where it starts, a
    buffer that represents [v] gives [v], every entry moved by the length
    of the prefix, and the identifier is found there; behind a prefix of
    four bytes the identifier is found by the size-prefixed test at 0. *)
Theorem deserialize_embedded pre buf v :
  serialized buf v ->
  deserialize_at (pre ++ buf) (len pre)
  = Ok (option_map (map (fun e => len pre + pos_of buf e)) v) /\
  OpInfoBufferHasIdentifier (pre ++ buf) (len pre) false
  = OpInfoBufferHasIdentifier buf 0 false /\
  (len pre = 4 ->
   OpInfoBufferHasIdentifier (pre ++ buf) 0 true = OpInfoBufferHasIdentifier buf 0 false).
Proof.
  intros (o & Hroot & _ & Hv). split; [ | split ].
  - rewrite (deserialize_at_layout (pre ++ buf) (len pre) o v (root_at_prepend pre buf o Hroot)).
    + f_equal. destruct v as [es | ]; [ | reflexivity ]. cbn [option_map]. f_equal.
      apply map_ext. intros e. unfold pos_of. len_solve.
    + destruct v as [es | ].
      * destruct Hv as (vo & _ & Htab & Hvec). exists vo.
        split; [ apply opinfo_at_prepend, Htab | apply vector_at_prepend, Hvec ].
      * apply opinfo_at_prepend, Hv.
  - apply identifier_prepend.
  - intros H4. rewrite <- (identifier_prepend pre buf), H4.
    unfold OpInfoBufferHasIdentifier, util.BufferHasIdentifier. reflexivity.
Qed.

(** C35: A vector that is read fits the buffer: a buffer of [n] bytes cannot make
    the reader return more than [(n - 4) / 4] entries. *)
Theorem deserialize_length_bound buf ps :
  deserialize buf = Ok (Some ps) -> 4 * len ps + 4 <= len buf.
Proof.
  unfold deserialize, GetRootAsOpInfo. intros H.
  apply bind_Ok_iff in H. destruct H as (root & Hroot & H).
  apply bind_Ok_iff in Hroot. destruct Hroot as (n & Hn & [= <-]).
  apply Get_in_bounds in Hn. cbn [packer.bytewidth] in Hn.
  unfold read_entries in H. apply bind_Ok_iff in H. destruct H as ([ | ] & _ & H);
    [ discriminate | ].
  apply bind_Ok_iff in H. destruct H as (m & _ & H).
  apply bind_Ok_iff in H. destruct H as (ps' & Hr & [= <-]).
  destruct (read_from_Ok _ _ _ _ Hr) as [Hl Hk].
  destruct (length ps') as [ | k] eqn:Hlen; [ lia | ].
  destruct (nth_error ps' k) as [p | ] eqn:Hp; [ | apply nth_error_None in Hp; lia ].
  destruct (Hk k p Hp) as (e & He & _). apply element_in_buffer in He; lia.
Qed.

(** C15: The writer is injective: two values that [serialize] turns into the
    same buffer, from whatever builders, are the same value. *)
Theorem serialize_injective v v' b b' buf b1 b1' :
  writable b v -> writable b' v' ->
  serialize v b = Ok (buf, b1) -> serialize v' b' = Ok (buf, b1') ->
  v = v'.
Proof.
  intros Hw Hw' Hs Hs'.
  destruct (serialize_layout v b Hw) as (buf0 & b0 & Hrun & Hl).
  destruct (serialize_layout v' b' Hw') as (buf0' & b0' & Hrun' & Hl').
  rewrite Hs in Hrun. rewrite Hs' in Hrun'.
  injection Hrun as <- _. injection Hrun' as <- _.
  exact (serialized_functional buf v v' Hl Hl').
Qed.

(** C25: Two tables in one buffer: after [Pack] of a first and of a second
    value, the accessors read the first value from the table at the first
    offset and the second from the table at the second; the later table,
    its vector and its vtable leave the earlier one as it was. *)
Theorem Pack_twice v1 v2 b :
  wf b -> Builder.nested b = false ->
  entries_in b v1 -> entries_in b v2 ->
  Builder.Offset b + packed_size v1 + packed_size v2 < 2 ^ 31 ->
  post (o1 <~ Pack v1 ;; o2 <~ Pack v2 ;; sret (o1, o2)) b (fun os b' =>
    fst os < snd os /\
    read_entries (view (Builder.Bytes b') (fst os))
    = Ok (option_map (map (pos_of (Builder.Bytes b'))) v1) /\
    read_entries (view (Builder.Bytes b') (snd os))
    = Ok (option_map (map (pos_of (Builder.Bytes b'))) v2)).
Proof.
  intros Hwf Hidle Hin1 Hin2 Hroom.
  assert (0 <= packed_size v1 /\ 0 <= packed_size v2)
    by (destruct v1, v2; cbn [packed_size]; lia).
  post_step (post_Pack v1 b Hwf Hidle Hin1); [ lia | ].
  intros o1 b1 (Hg1 & Hwf1 & Hn1 & Ho1 & Hlen1 & Hval1).
  post_step (post_Pack v2 b1 Hwf1 Hn1 (entries_in_grows b b1 v2 Hg1 Hin2)); [ lia | ].
  intros o2 b2 (Hg2 & _ & _ & Ho2 & _ & Hval2).
  apply post_ret. cbn [fst snd]. split; [ lia | ].
  split; apply read_entries_value_at; [ rewrite <- Hg2; exact Hval1 | exact Hval2 ].
Qed.

(** C29: What the writer refuses: inside an unfinished table or vector, and with
    an entry that is not in the buffer when its offset is written,
    [serialize] fails with [PreconditionViolation].  The offsets of the
    entries are written last to first after the padding that aligns the
    vector: an entry beyond the offset at which the first one is written is
    refused wherever it stands in the list. *)
Theorem serialize_refuses v b :
  Builder.nested b = true \/
  (exists es e, v = Some es /\ In e es /\
     Builder.Offset b + (- Builder.Offset b) mod 4 + 4 * len es <= e + 3) ->
  serialize v b = Err PreconditionViolation.
Proof.
  intros H. destruct (Builder.nested b) eqn:Hn.
  - unfold serialize. destruct v as [es | ].
    + unfold CreateOpKernelTypeStrArgsVector, OpInfoStartOpKernelTypeStrArgsVector.
      do 2 apply sbind_Err. apply StartVector_nested, Hn.
    + rewrite (sbind_Ok _ _ _ _ _ (eq_refl : sret 0 b = Ok (0, b))).
      unfold CreateOpInfo, OpInfoStart. do 2 apply sbind_Err.
      rewrite run_StartObject, Hn. reflexivity.
  - destruct H as [H | (es & e & -> & Hin & Hlt)]; [ discriminate | ].
    unfold serialize. apply sbind_Err. exact (CreateVector_refuses es e b Hn Hin Hlt).
Qed.

(** C28: The reader fails with [OutOfRange] only, whatever the buffer: the root
    accessor and every accessor it calls read inside the buffer or report
    that they cannot. *)
Theorem deserialize_fails_OutOfRange buf e :
  deserialize buf = Err e -> e = OutOfRange.
Proof.
  unfold deserialize, GetRootAsOpInfo. intros H.
  destruct (encode.Get packer.uoffset buf 0) as [n | e'] eqn:Hg; cbn [bind] in H.
  - exact (read_entries_Err buf (n + 0) e H).
  - injection H as <-. apply Get_Err_iff in Hg. apply Hg.
Qed.

(** C27: The buffer [serialize] returns carries the identifier of the format
    after its root offset: the test of the reader is true, the bytes 4 to 7
    are ["ORTM"], and the length is a multiple of four. *)
Theorem serialize_identifier v b :
  writable b v ->
  post (serialize v) b (fun buf _ =>
    OpInfoBufferHasIdentifier buf 0 false = true /\
    slice buf 4 4 = [Byte.x4f; Byte.x52; Byte.x54; Byte.x4d] /\
    len buf mod 4 = 0).
Proof.
  intros Hw. eapply post_weaken; [ apply post_serialize, Hw | ].
  cbv beta. intros buf b' (_ & _ & _ & Ha & Hid & _).
  split; [ exact Hid | ]. split; [ | exact Ha ].
  apply BufferHasIdentifier_true_iff in Hid. exact (proj2 Hid).
Qed.

(** C24: What was written before [serialize] is still in the buffer it returns,
    at the same offsets from the end: the entries' tables are intact. *)
Theorem serialize_preserves v b :
  writable b v ->
  post (serialize v) b (fun buf _ =>
    (exists pre, buf = pre ++ Builder.Bytes b) /\
    forall e fields, table_at (Builder.Bytes b) e fields -> table_at buf e fields).
Proof.
  intros Hw. eapply post_weaken; [ apply post_serialize, Hw | ].
  cbv beta. intros buf b' (-> & Hg & _). split; [ exact Hg | ].
  intros e fields. apply (grows_mono table_at), Hg.
Qed.

(** The scenario of three entries produces exactly the sample buffer, which
    reads back as a vector of three entries at the positions 52, 44 and
    40; the three entries share one vtable. *)
Example scenario_three_bytes :
  exists b', scenario_three Builder.init = Ok (sample_three, b') /\
    Builder.vtables b' = [46; 8] /\
    deserialize sample_three = Ok (Some [52; 44; 40]).
Proof. eexists. split; [ vm_compute; reflexivity | by_compute ]. Qed.

(** Without a vector the scenario produces the sample buffer that reads
    back as absent. *)
Example scenario_absent_bytes :
  exists b', scenario_absent Builder.init = Ok (sample_absent, b') /\
    deserialize sample_absent = Ok None.
Proof. eexists. split; [ vm_compute; reflexivity | by_compute ]. Qed.

(** A vector of no entries is not an absent vector: the scenario produces
    the third sample buffer, on which [OpKernelTypeStrArgsIsNone] is false
    and the length is 0. *)
Example scenario_empty_bytes :
  exists b', scenario_empty Builder.init = Ok (sample_empty, b') /\
    deserialize sample_empty = Ok (Some []) /\
    exists root, GetRootAsOpInfo sample_empty 0 = Ok root /\
      OpKernelTypeStrArgsIsNone root = Ok false /\
      OpKernelTypeStrArgsLength root = Ok 0.
Proof.
  eexists. split; [ vm_compute; reflexivity | ]. split; [ by_compute | ].
  eexists. split; [ vm_compute; reflexivity | by_compute ].
Qed.

(** ** Instances on the sample builders *)

Lemma writable_sample : writable sample_builder (Some [4; 12; 16]).
Proof.
  split; [ apply wf_sample_builder | ]. split; [ reflexivity | ].
  split; [ repeat constructor | ]; by_compute.
Qed.

Lemma serialized_sample_three : serialized sample_three (Some [4; 12; 16]).
Proof. by_decide. Qed.

Lemma deserialize_refines_witness :
  exists root,
    GetRootAsOpInfo sample_three 0 = Ok root /\
    OpKernelTypeStrArgsIsNone root = Ok false /\
    OpKernelTypeStrArgsLength root = Ok (len [4; 12; 16]) /\
    deserialize sample_three = Ok (option_map (map (pos_of sample_three)) (Some [4; 12; 16])).
Proof. exact (deserialize_refines sample_three (Some [4; 12; 16]) serialized_sample_three). Defined.

Lemma serialize_refines_witness :
  post (serialize (Some [4; 12; 16])) sample_builder (fun buf b' =>
    buf = Builder.Bytes b' /\ Builder.finished b' = true /\
    serialized buf (Some [4; 12; 16])).
Proof. apply serialize_refines, writable_sample. Defined.

Lemma serialize_roundtrip_witness :
  post (serialize (Some [4; 12; 16])) sample_builder (fun buf _ =>
    deserialize buf = Ok (option_map (map (pos_of buf)) (Some [4; 12; 16]))).
Proof. apply serialize_roundtrip, writable_sample. Defined.

Lemma forward_compatible_witness :
  post serialize_v0 Builder.init (fun buf _ =>
    OpInfoBufferHasIdentifier buf 0 false = true /\
    deserialize buf = Ok None /\
    exists root,
      GetRootAsOpInfo buf 0 = Ok root /\
      OpKernelTypeStrArgsIsNone root = Ok true /\
      OpKernelTypeStrArgsLength root = Ok 0 /\
      forall j, OpKernelTypeStrArgs root j = Ok None).
Proof. apply forward_compatible; [ apply wf_init | reflexivity | by_compute ]. Defined.

Lemma deserialize_embedded_witness :
  deserialize_at (packer.pack packer.uoffset 56 ++ sample_three)
    (len (packer.pack packer.uoffset 56))
  = Ok (option_map
          (map (fun e => len (packer.pack packer.uoffset 56) + pos_of sample_three e))
          (Some [4; 12; 16])) /\
  OpInfoBufferHasIdentifier (packer.pack packer.uoffset 56 ++ sample_three)
    (len (packer.pack packer.uoffset 56)) false
  = OpInfoBufferHasIdentifier sample_three 0 false /\
  (len (packer.pack packer.uoffset 56) = 4 ->
   OpInfoBufferHasIdentifier (packer.pack packer.uoffset 56 ++ sample_three) 0 true
   = OpInfoBufferHasIdentifier sample_three 0 false).
Proof. exact (deserialize_embedded _ _ _ serialized_sample_three). Defined.

Lemma deserialize_length_bound_witness : 4 * len [52; 44; 40] + 4 <= len sample_three.
Proof. apply deserialize_length_bound. vm_compute. reflexivity. Defined.

Lemma serialize_injective_witness : Some [4; 12; 16] = Some [4; 12; 16] :> option (list Z).
Proof.
  refine (serialize_injective (Some [4; 12; 16]) (Some [4; 12; 16])
            sample_builder sample_builder sample_three _ _
            writable_sample writable_sample _ _);
    vm_compute; reflexivity.
Defined.

Lemma Pack_twice_witness :
  post (o1 <~ Pack (Some [4; 12; 16]) ;; o2 <~ Pack None ;; sret (o1, o2)) sample_builder
    (fun os b' =>
    fst os < snd os /\
    read_entries (view (Builder.Bytes b') (fst os))
    = Ok (option_map (map (pos_of (Builder.Bytes b'))) (Some [4; 12; 16])) /\
    read_entries (view (Builder.Bytes b') (snd os))
    = Ok (option_map (map (pos_of (Builder.Bytes b'))) None)).
Proof.
  apply Pack_twice;
    [ apply wf_sample_builder | reflexivity | repeat constructor; by_compute
    | exact I | by_compute ].
Defined.

Lemma serialize_refuses_witness :
  serialize (Some [1]) Builder.init = Err PreconditionViolation.
Proof.
  apply serialize_refuses. right. exists [1], 1.
  split; [ reflexivity | ]. split; [ left; reflexivity | by_compute ].
Defined.

Lemma deserialize_fails_OutOfRange_witness :
  deserialize (firstn 20 sample_three) = Err OutOfRange /\ OutOfRange = OutOfRange.
Proof.
  refine (let H := _ in
          conj H (deserialize_fails_OutOfRange (firstn 20 sample_three) OutOfRange H)).
  vm_compute. reflexivity.
Defined.

Lemma serialize_aligned_witness :
  post (serialize (Some [4; 12; 16])) sample_builder (fun buf _ =>
    len buf mod 4 = 0 /\
    exists pos,
      GetRootAsOpInfo buf 0 = Ok (Init OpInfo_new buf pos) /\ pos mod 4 = 0 /\
      (Some [4; 12; 16] <> None ->
       exists fo x,
         field_offset (Init OpInfo_new buf pos) = Ok fo /\
         Table.Vector (Table.mk buf pos) fo = Ok x /\ x mod 4 = 0)).
Proof. apply serialize_aligned, writable_sample. Defined.

Lemma serialize_identifier_witness :
  post (serialize (Some [4; 12; 16])) sample_builder (fun buf _ =>
    OpInfoBufferHasIdentifier buf 0 false = true /\
    slice buf 4 4 = [Byte.x4f; Byte.x52; Byte.x54; Byte.x4d] /\
    len buf mod 4 = 0).
Proof. apply serialize_identifier, writable_sample. Defined.

Lemma serialize_preserves_witness :
  post (serialize (Some [4; 12; 16])) sample_builder (fun buf _ =>
    (exists pre, buf = pre ++ Builder.Bytes sample_builder) /\
    forall e fields, table_at (Builder.Bytes sample_builder) e fields -> table_at buf e fields).
Proof. apply serialize_preserves, writable_sample. Defined.
