(* ===== verification/Lifecycle.v ===== *)
(** * Lifecycle: the calls of a writer as a step relation

    A writer of an [OpInfo] drives the builder through a sequence of calls:
    the four functions of [OpInfo.py], the offsets of the vector's elements,
    the end of the vector, and [Finish]; [CallEntryStart] begins an entry,
    a table with no field here, which [CallOpInfoEnd] closes like any
    table.  [call] names them, [run] maps each
    to its computation, [step] is one successful call and [reachable] the
    states a new builder can get to.  The buffer goes through the phases of
    the specification: [Empty], [Building], [Finished]; a finished buffer is
    the one [Output] hands to the readers.

    What a successful computation guarantees, whatever it is, is the class
    [Follows]: the invariant is kept, bytes are only added in front, a
    finished buffer stays finished, a table or vector that was open is
    still open or has grown, and a registry without duplicates stays
    without.  Each operation of the builder is an instance,
    sequencing is one, and instance search then gives the functions of
    [OpInfo.py], [run c] for every call, and the client sequences up to
    [serialize].

    The theorems are invariants of the reachable states, by induction on
    [reachable]: the invariant [wf] of the builder holds; no vtable is
    remembered twice; a call only adds bytes in front of those written; the
    phase never goes back.  [nesting_discipline] is the stack discipline of
    the calls that begin ([opens]) and end ([closes]) a table or vector. *)

From Stdlib Require Import ZArith List Lia Bool Morphisms RelationClasses.
From coqutil Require Import Byte Word.LittleEndianList.
From S2P Require Import Prelude ByteBuffer TableView BuilderCore Samples OpInfo.
From S2P Require Import Layout BuilderLemmas Registry BuilderSpec Writers RoundTrip.
Import ListNotations.
#[local] Open Scope Z_scope.
#[local] Open Scope fb_scope.

Inductive call : Type :=
| CallEntryStart
| CallOpInfoStart
| CallOpInfoAdd (opKernelTypeStrArgs : Z)
| CallStartVector (numElems : Z)
| CallPrependOffset (off : Z)
| CallEndVector
| CallOpInfoEnd
| CallFinish (rootTable : Z).

(** The result of a call is dropped: a step relates states. *)
Definition run (c : call) : state Builder.t unit :=
  match c with
  | CallEntryStart => Builder.StartObject 0
  | CallOpInfoStart => OpInfoStart
  | CallOpInfoAdd x => OpInfoAddOpKernelTypeStrArgs x
  | CallStartVector n => OpInfoStartOpKernelTypeStrArgsVector n ;;; sret tt
  | CallPrependOffset off => Builder.PrependUOffsetTRelative off
  | CallEndVector => Builder.EndVector ;;; sret tt
  | CallOpInfoEnd => OpInfoEnd ;;; sret tt
  | CallFinish root => Builder.Finish root (Some OpInfo_identifier) ;;; sret tt
  end.

Inductive step : Builder.t -> Builder.t -> Prop :=
| step_call c b b' : run c b = Ok (tt, b') -> step b b'.

Inductive reachable : Builder.t -> Prop :=
| reachable_init : reachable Builder.init
| reachable_step b b' : reachable b -> step b b' -> reachable b'.

(** A sequence of calls, each from the state the one before it left. *)
Fixpoint run_calls (cs : list call) : state Builder.t unit :=
  match cs with
  | [] => sret tt
  | c :: cs => run c ;;; run_calls cs
  end.

(** The calls that write an [OpInfo] without a vector, the table ending up
    at offset [o]. *)
Definition calls_absent (o : Z) : list call :=
  [CallOpInfoStart; CallOpInfoAdd 0; CallOpInfoEnd; CallFinish o].

(** The calls that lead to the sample builder of three entries. *)
Definition calls_three_entries : list call :=
  [CallEntryStart; CallOpInfoEnd; CallEntryStart; CallOpInfoEnd;
   CallEntryStart; CallOpInfoEnd].

(** The calls that write two [OpInfo] tables without a vector, and the
    builder they lead to: it remembers two vtables, at the offsets 22 and
    10. *)
Definition calls_two_tables : list call :=
  [CallOpInfoStart; CallOpInfoAdd 0; CallOpInfoEnd;
   CallOpInfoStart; CallOpInfoAdd 0; CallOpInfoEnd].

Definition sample_two_tables : Builder.t :=
  Eval vm_compute in
    match run_calls calls_two_tables Builder.init with
    | Ok (_, b) => b
    | Err _ => Builder.init
    end.

(** The calls that begin a table or a vector, and those that end one. *)
Definition opens (c : call) : bool :=
  match c with
  | CallEntryStart | CallOpInfoStart | CallStartVector _ => true
  | _ => false
  end.

Definition closes (c : call) : bool :=
  match c with
  | CallEndVector | CallOpInfoEnd => true
  | _ => false
  end.

Inductive phase : Type := Empty | Building | Finished.

Definition phase_of (b : Builder.t) : phase :=
  if Builder.finished b then Finished
  else if Builder.nested b || negb (Builder.Offset b =? 0) then Building
  else Empty.

Definition phase_le (p q : phase) : bool :=
  match p, q with
  | Empty, _ => true
  | Building, (Building | Finished) => true
  | Finished, Finished => true
  | _, _ => false
  end.

(** [follows b b']: what one call, from a state that satisfies the
    invariant, guarantees of the next state. *)
Definition follows (b b' : Builder.t) : Prop :=
  wf b ->
  wf b' /\ grows b b' /\
  (Builder.finished b = true -> Builder.finished b' = true) /\
  (Builder.nested b = true ->
   Builder.nested b' = true \/ Builder.Offset b < Builder.Offset b') /\
  (distinct b -> distinct b').

(** [Follows m]: whenever the computation [m] succeeds, the state it leaves
    follows the state it started in.  Every operation of the builder is an
    instance, and so is every sequence of instances. *)
Class Follows {A : Type} (m : state Builder.t A) : Prop :=
  follows_run : forall b a b', m b = Ok (a, b') -> follows b b'.

(** ** What follows what *)

#[export] Instance follows_Reflexive : Reflexive follows.
Proof. intros b Hwf. split; [ exact Hwf | ]. split; [ reflexivity | auto ]. Qed.

#[export] Instance follows_Transitive : Transitive follows.
Proof.
  intros b1 b2 b3 H12 H23 Hwf. destruct (H12 Hwf) as (Hwf2 & Hg2 & Hf2 & Hn2 & Hd2).
  destruct (H23 Hwf2) as (Hwf3 & Hg3 & Hf3 & Hn3 & Hd3).
  pose proof (grows_Offset _ _ Hg2). pose proof (grows_Offset _ _ Hg3).
  split; [ exact Hwf3 | ]. split; [ exact (transitivity Hg2 Hg3) | ].
  split; [ auto | ]. split; [ | auto ].
  intros Hn. destruct (Hn2 Hn) as [Hn' | Ho]; [ | right; lia ].
  destruct (Hn3 Hn') as [Hn'' | Ho]; [ left; exact Hn'' | right; lia ].
Qed.

Lemma wrote_follows b b' : wrote b b' -> follows b b'.
Proof.
  intros Hw Hwf. pose proof Hw as (Hg & _ & _ & Hv & Hn & _ & Hf & _).
  split; [ exact (wrote_wf _ _ Hwf Hw) | ]. split; [ exact Hg | ].
  split; [ congruence | ]. split; [ left; congruence | ].
  exact (distinct_grows _ _ Hwf Hg Hv).
Qed.

(** A change of the fields that are neither the bytes, the vtables nor the
    alignment. *)
Lemma fields_follows b b' :
  Builder.Bytes b' = Builder.Bytes b ->
  Builder.vtables b' = Builder.vtables b ->
  Builder.minalign b' = Builder.minalign b ->
  (Builder.finished b = true -> Builder.finished b' = true) ->
  (Builder.nested b = true -> Builder.nested b' = true) ->
  follows b b'.
Proof.
  intros Hb Hv Hm Hf Hn [Hv0 Hm0].
  assert (Hg : grows b b') by (exists []; exact Hb).
  split; [ split; [ unfold Builder.Offset; rewrite Hv, Hb; exact Hv0 | lia ] | ].
  split; [ exact Hg | ]. split; [ exact Hf | ]. split; [ auto | ].
  exact (distinct_grows _ _ (conj Hv0 Hm0) Hg Hv).
Qed.

(** ** Each operation, when it succeeds *)

#[export] Instance Follows_ret {A : Type} (a : A) : Follows (sret a).
Proof. intros b a' b' [= _ <-]. reflexivity. Qed.

#[export] Instance Follows_bind {A B : Type}
    (m : state Builder.t A) (k : A -> state Builder.t B) :
  Follows m -> (forall a, Follows (k a)) -> Follows (sbind m k) | 10.
Proof.
  intros Hm Hk b r b' H. apply sbind_Ok_iff in H. destruct H as (a & b1 & H1 & H2).
  exact (transitivity (Hm _ _ _ H1) (Hk a _ _ _ H2)).
Qed.

Lemma post_inv {A : Type} (m : state Builder.t A) b (Q : A -> Builder.t -> Prop) a b' :
  post m b Q -> m b = Ok (a, b') -> Q a b'.
Proof. intros (a0 & b0 & Hm & HQ) H. rewrite Hm in H. injection H as <- <-. exact HQ. Qed.

#[export] Instance Follows_StartObject n : Follows (Builder.StartObject n).
Proof.
  intros b u b'. rewrite run_StartObject. destruct (Builder.nested b) eqn:Hn; [ discriminate | ].
  intros [= <- <-].
  apply fields_follows; first [ reflexivity | intros; assumption | intros; discriminate ].
Qed.

#[export] Instance Follows_PrependUOffsetTRelative off :
  Follows (Builder.PrependUOffsetTRelative off).
Proof.
  intros b u b'. destruct (PrependUOffsetTRelative_cases off b) as [-> | (b1 & -> & Hw)];
    [ discriminate | ].
  intros [= <- <-]. apply wrote_follows, Hw.
Qed.

#[export] Instance Follows_Slot o : Follows (Builder.Slot o).
Proof.
  intros b u b'. unfold Builder.Slot. run_state.
  destruct (Builder.nested b); cbv [assert sret sfail]; [ | discriminate ].
  destruct (Builder.current_vtable b); [ | discriminate ].
  destruct (_ && _); cbv [assert sret sfail]; [ | discriminate ].
  intros [= <- <-]. apply fields_follows; auto.
Qed.

#[export] Instance Follows_PrependUOffsetTRelativeSlot o x d :
  Follows (Builder.PrependUOffsetTRelativeSlot o x d).
Proof.
  unfold Builder.PrependUOffsetTRelativeSlot. destruct (negb (x =? d)); typeclasses eauto.
Qed.

#[export] Instance Follows_StartVector n : Follows (Builder.StartVector 4 n 4).
Proof.
  intros b vo b'. destruct (Builder.nested b) eqn:Hn; [ rewrite StartVector_nested by exact Hn; discriminate | ].
  intros H Hwf.
  destruct (post_inv _ _ _ _ _ (post_StartVector n b Hn) H)
    as (Hg & _ & _ & Hn' & _ & Hv & Hm & Hf).
  split; [ exact (wf_grows _ _ Hwf Hg Hv Hm) | ]. split; [ exact Hg | ].
  split; [ congruence | ]. split; [ auto | exact (distinct_grows _ _ Hwf Hg Hv) ].
Qed.

#[export] Instance Follows_EndVector : Follows Builder.EndVector.
Proof.
  intros b vo b'. destruct (Builder.nested b) eqn:Hn; [ | rewrite EndVector_not_nested by exact Hn; discriminate ].
  unfold Builder.EndVector, Builder.Place. run_state. rewrite Hn. cbv [assert sret sfail].
  cbn [Builder.vectorNumElems Builder.with_nested].
  destruct (Builder.vectorNumElems b); [ | discriminate ].
  destruct (packer.fits _ _); [ | discriminate ].
  intros [= _ <-] Hwf.
  assert (Hg : grows b (Builder.with_vectorNumElems None
                          (Builder.with_Bytes (packer.pack packer.uoffset z ++ Builder.Bytes b)
                             (Builder.with_nested false b))))
    by (eexists; reflexivity).
  split; [ apply (wf_grows _ _ Hwf Hg); fields; [ reflexivity | lia ] | ].
  split; [ exact Hg | ]. split; [ auto | ].
  split; [ | exact (distinct_grows _ _ Hwf Hg eq_refl) ].
  intros _. right. unfold Builder.Offset. fields. len_solve.
Qed.

#[export] Instance Follows_EndObject : Follows Builder.EndObject.
Proof.
  intros b o b'. destruct (Builder.nested b) eqn:Hn; [ | rewrite EndObject_not_nested by exact Hn; discriminate ].
  intros H Hwf. assert (Hw : Builder.WriteVtable (Builder.with_nested false b) = Ok (o, b')).
  { revert H. unfold Builder.EndObject. run_state. rewrite Hn. exact (fun H => H). }
  destruct (WriteVtable_Ok_inv _ _ _ Hw) as (vt & Hvt & Hoo & Hfits).
  destruct (post_inv _ _ _ _ _ (post_EndObject b vt Hwf Hn Hvt Hoo Hfits) H)
    as (-> & Hg & Hwf' & _ & _ & _ & Hf & Hlen & _).
  pose proof (table_offset_range b).
  split; [ exact Hwf' | ]. split; [ exact Hg | ]. split; [ congruence | ].
  split; [ intros _; right; lia | ].
  intros Hd. exact (WriteVtable_distinct _ vt Hvt Hoo Hfits _ _ (proj1 Hwf) Hd Hw).
Qed.

Lemma Finish_follows root (ident : bytes) b start b' :
  Builder.Finish root (Some ident) b = Ok (start, b') ->
  follows b b' /\ Builder.finished b' = true.
Proof.
  unfold Builder.Finish. intros H.
  apply sbind_Ok_iff in H. destruct H as (b0 & ? & [= <- <-] & H).
  rewrite (sbind_Ok _ _ _ _ _ (run_Prep _ _ b)) in H.
  apply sbind_Ok_iff in H. destruct H as ([] & b3 & Hid & H).
  apply sbind_Ok_iff in H. destruct H as ([] & b4 & Hroot & H).
  injection H as <- <-.
  assert (Hw3 : wf b -> wrote b b3).
  { intros [_ Hm]. revert Hid. destruct (length ident =? 4)%nat; [ | discriminate ].
    rewrite (sbind_Ok _ _ _ _ _ (assert_true _)).
    rewrite (sbind_Ok _ _ _ _ _ (run_Prep 4 4 _)). intros [= <-].
    set (b1 := prepend (zeros (pad_of b (Builder.minalign b) 8))
                 (aligned_to (Builder.minalign b) b)).
    set (b2 := prepend (zeros (pad_of b1 4 4)) (aligned_to 4 b1)).
    change (wrote b (prepend ident b2)).
    transitivity b1; [ apply wrote_prepend; lia | ].
    transitivity b2; [ apply wrote_prepend; lia | apply wrote_prepend_bytes ]. }
  split; [ | reflexivity ].
  intros Hwf. specialize (Hw3 Hwf).
  destruct (PrependUOffsetTRelative_cases root b3) as [He | (b5 & He & Hw4)];
    rewrite He in Hroot; [ discriminate | injection Hroot as <- ].
  destruct (wrote_follows _ _ (transitivity Hw3 Hw4) Hwf) as (Hwf' & Hg & _ & Hn & Hd).
  split; [ exact Hwf' | ]. split; [ exact Hg | ]. split; [ reflexivity | ].
  split; [ exact Hn | exact Hd ].
Qed.

#[export] Instance Follows_Finish root (ident : bytes) :
  Follows (Builder.Finish root (Some ident)).
Proof. intros b start b' H. exact (proj1 (Finish_follows _ _ _ _ _ H)). Qed.

#[export] Instance Follows_Output : Follows Builder.Output.
Proof.
  intros b u b'. unfold Builder.Output. run_state.
  destruct (Builder.finished b); cbv [assert sret sfail]; [ | discriminate ].
  intros [= _ <-]. reflexivity.
Qed.

(** The operations are instances as a whole: the search for an instance
    does not look inside them. *)
#[global] Typeclasses Opaque Builder.StartObject Builder.PrependUOffsetTRelative
  Builder.Slot Builder.PrependUOffsetTRelativeSlot Builder.StartVector
  Builder.EndVector Builder.EndObject Builder.Finish Builder.Output.

(** ** The functions of [OpInfo.py], and the sequences of a client *)

#[export] Instance Follows_OpInfoStart : Follows OpInfoStart := Follows_StartObject 1.

#[export] Instance Follows_OpInfoAdd x : Follows (OpInfoAddOpKernelTypeStrArgs x) :=
  Follows_PrependUOffsetTRelativeSlot _ _ _.

#[export] Instance Follows_OpInfoStartVector n :
  Follows (OpInfoStartOpKernelTypeStrArgsVector n) := Follows_StartVector n.

#[export] Instance Follows_OpInfoEnd : Follows OpInfoEnd := Follows_EndObject.

#[global] Typeclasses Opaque OpInfoStart OpInfoAddOpKernelTypeStrArgs
  OpInfoStartOpKernelTypeStrArgsVector OpInfoEnd.

#[export] Instance Follows_prepend_offsets offs : Follows (prepend_offsets offs).
Proof. induction offs; cbn [prepend_offsets]; typeclasses eauto. Qed.

#[export] Instance Follows_CreateVector es : Follows (CreateOpKernelTypeStrArgsVector es).
Proof. unfold CreateOpKernelTypeStrArgsVector. typeclasses eauto. Qed.

#[export] Instance Follows_CreateOpInfo x : Follows (CreateOpInfo x).
Proof. unfold CreateOpInfo. typeclasses eauto. Qed.

#[export] Instance Follows_serialize v : Follows (serialize v).
Proof. unfold serialize. destruct v; typeclasses eauto. Qed.

(** ** One call *)

#[export] Instance Follows_call c : Follows (run c).
Proof. destruct c; cbn [run]; typeclasses eauto. Qed.

#[export] Instance Follows_run_calls cs : Follows (run_calls cs).
Proof. induction cs; cbn [run_calls]; typeclasses eauto. Qed.

Lemma step_follows b b' : step b b' -> follows b b'.
Proof. intros [c b0 b0' H]. exact (follows_run _ _ _ H). Qed.

Lemma run_drop {A : Type} (m : state Builder.t A) b a b' :
  m b = Ok (a, b') -> (m ;;; sret tt) b = Ok (tt, b').
Proof. intros H. rewrite (sbind_Ok _ _ _ _ _ H). reflexivity. Qed.

Lemma run_drop_inv {A : Type} (m : state Builder.t A) b b' :
  (m ;;; sret tt) b = Ok (tt, b') -> exists a, m b = Ok (a, b').
Proof.
  intros H. apply sbind_Ok_iff in H. destruct H as (a & b1 & H & [= <-]). eauto.
Qed.

(** Induction over the reachable states, with the invariant at hand. *)
Lemma reachable_invariant (P : Builder.t -> Prop) :
  P Builder.init ->
  (forall b b', wf b -> P b -> step b b' -> P b') ->
  forall b, reachable b -> wf b /\ P b.
Proof.
  intros Hinit Hstep b Hr. induction Hr as [ | b b' _ [Hwf HP] Hs].
  - split; [ apply wf_init | exact Hinit ].
  - split; [ exact (proj1 (step_follows _ _ Hs Hwf)) | exact (Hstep b b' Hwf HP Hs) ].
Qed.

Lemma run_calls_reachable cs : forall b b',
  reachable b -> run_calls cs b = Ok (tt, b') -> reachable b'.
Proof.
  induction cs as [ | c cs IH]; intros b b' Hr H; cbn [run_calls] in H.
  - injection H as <-. exact Hr.
  - apply sbind_Ok_iff in H. destruct H as ([] & b1 & Hc & H).
    exact (IH b1 b' (reachable_step b b1 Hr (step_call c b b1 Hc)) H).
Qed.

Lemma reachable_sample_builder : reachable sample_builder.
Proof.
  apply (run_calls_reachable calls_three_entries Builder.init); [ constructor | ].
  vm_compute. reflexivity.
Qed.

(** ** The nesting discipline *)

Lemma StartObject_toggles n b u b' :
  Builder.StartObject n b = Ok (u, b') ->
  Builder.nested b = false /\ Builder.nested b' = true.
Proof.
  rewrite run_StartObject. destruct (Builder.nested b); [ discriminate | ].
  intros [= _ <-]. split; reflexivity.
Qed.

Lemma StartVector_toggles n b vo b' :
  Builder.StartVector 4 n 4 b = Ok (vo, b') ->
  Builder.nested b = false /\ Builder.nested b' = true.
Proof.
  intros H. destruct (Builder.nested b) eqn:Hn;
    [ rewrite StartVector_nested in H by exact Hn; discriminate | ].
  destruct (post_inv _ _ _ _ _ (post_StartVector n b Hn) H) as (_ & _ & _ & Hn' & _).
  split; [ reflexivity | exact Hn' ].
Qed.

Lemma EndVector_toggles b vo b' :
  Builder.EndVector b = Ok (vo, b') ->
  Builder.nested b = true /\ Builder.nested b' = false.
Proof.
  intros H. destruct (Builder.nested b) eqn:Hn;
    [ | rewrite EndVector_not_nested in H by exact Hn; discriminate ].
  split; [ reflexivity | ]. revert H. unfold Builder.EndVector, Builder.Place. run_state.
  rewrite Hn. cbv [assert sret sfail]. cbn [Builder.vectorNumElems Builder.with_nested].
  destruct (Builder.vectorNumElems b); [ | discriminate ].
  destruct (packer.fits _ _); [ | discriminate ]. intros [= _ <-]. reflexivity.
Qed.

Lemma EndObject_toggles b o b' :
  Builder.EndObject b = Ok (o, b') ->
  Builder.nested b = true /\ Builder.nested b' = false.
Proof.
  intros H. destruct (Builder.nested b) eqn:Hn;
    [ | rewrite EndObject_not_nested in H by exact Hn; discriminate ].
  split; [ reflexivity | ].
  assert (Hw : Builder.WriteVtable (Builder.with_nested false b) = Ok (o, b')).
  { revert H. unfold Builder.EndObject. run_state. rewrite Hn. exact (fun H => H). }
  destruct (WriteVtable_Ok_inv _ _ _ Hw) as (vt & Hvt & Hoo & Hfits).
  exact (WriteVtable_nested _ vt Hvt Hoo Hfits _ _ Hw).
Qed.

(** C19: The stack discipline of the builder, one level deep: a call that begins
    a table or a vector succeeds only outside any, and leaves the builder
    inside one; a call that ends one succeeds only inside, and leaves the
    builder outside. *)
Theorem nesting_discipline c b b' :
  run c b = Ok (tt, b') ->
  (opens c = true -> Builder.nested b = false /\ Builder.nested b' = true) /\
  (closes c = true -> Builder.nested b = true /\ Builder.nested b' = false).
Proof.
  intros H. split; intros Hc; destruct c; try discriminate Hc; cbn [run] in H.
  - exact (StartObject_toggles _ _ _ _ H).
  - exact (StartObject_toggles _ _ _ _ H).
  - apply run_drop_inv in H. destruct H as [r H]. exact (StartVector_toggles _ _ _ _ H).
  - apply run_drop_inv in H. destruct H as [r H]. exact (EndVector_toggles _ _ _ H).
  - apply run_drop_inv in H. destruct H as [r H]. exact (EndObject_toggles _ _ _ H).
Qed.

(** ** Invariants of the reachable states *)

Lemma reachable_distinct b : reachable b -> distinct b.
Proof.
  intros Hr. apply (reachable_invariant distinct); [ apply distinct_init | | exact Hr ].
  intros b0 b' Hwf Hd Hs.
  exact (proj2 (proj2 (proj2 (proj2 (step_follows _ _ Hs Hwf)))) Hd).
Qed.

(** C16: The invariant of the builder holds in every state a writer can reach:
    the remembered vtables lie in the bytes written, and the alignment is
    between one and four bytes. *)
Theorem reachable_wf b : reachable b -> wf b.
Proof.
  intros Hr. exact (proj1 (reachable_invariant (fun _ => True) I (fun _ _ _ _ _ => I) b Hr)).
Qed.

(** C11: The registry holds no vtable twice: in every state a writer can reach,
    two remembered vtables at different offsets have different bytes.  A
    table whose vtable has the bytes of a remembered one is never given a
    vtable of its own. *)
Theorem remembered_vtables_differ b v1 v2 :
  reachable b ->
  In v1 (Builder.vtables b) -> In v2 (Builder.vtables b) -> v1 <> v2 ->
  Builder.vtable_at (Builder.Bytes b) v1 <> Builder.vtable_at (Builder.Bytes b) v2.
Proof.
  intros Hr H1 H2 Hne Heq. apply Hne.
  exact (NoDup_map_inj _ _ (proj1 (reachable_distinct b Hr)) v1 v2 H1 H2 Heq).
Qed.

(** C17: A call never changes a byte that was written: the buffer after the
    call is the buffer before it with bytes added in front. *)
Theorem step_appends b b' :
  wf b -> step b b' -> exists pre, Builder.Bytes b' = pre ++ Builder.Bytes b.
Proof. intros Hwf Hs. exact (proj1 (proj2 (step_follows _ _ Hs Hwf))). Qed.

(** C18: The phase of the buffer never goes back: an empty buffer stays empty or
    is being built, a buffer being built stays so or is finished, a finished
    buffer stays finished. *)
Theorem step_phase_monotone b b' :
  wf b -> step b b' -> phase_le (phase_of b) (phase_of b') = true.
Proof.
  intros Hwf Hs.
  destruct (step_follows _ _ Hs Hwf) as (_ & Hg & Hf & Hn & _).
  apply grows_Offset in Hg. pose proof (Offset_nonneg b). unfold phase_of.
  destruct (Builder.finished b); [ rewrite Hf by reflexivity; reflexivity | ].
  destruct (Builder.finished b'); [ destruct (_ || _); reflexivity | ].
  destruct (Builder.nested b).
  - destruct (Hn eq_refl) as [-> | Ho]; [ reflexivity | ].
    destruct (Z.eqb_spec (Builder.Offset b') 0); [ lia | rewrite orb_true_r; reflexivity ].
  - cbn [orb]. destruct (Z.eqb_spec (Builder.Offset b) 0); [ reflexivity | ].
    destruct (Z.eqb_spec (Builder.Offset b') 0); [ lia | rewrite orb_true_r; reflexivity ].
Qed.

(** C20: A writer can always finish: from a reachable state outside any table or
    vector, with room left, the calls that write an [OpInfo] without a
    vector succeed and lead to a reachable finished state, whose buffer
    reads back as absent. *)
Theorem can_finish b :
  reachable b -> Builder.nested b = false -> Builder.Offset b + 37 < 2 ^ 31 ->
  exists o b',
    run_calls (calls_absent o) b = Ok (tt, b') /\
    reachable b' /\ phase_of b' = Finished /\
    Builder.Output b' = Ok (Builder.Bytes b', b') /\
    deserialize (Builder.Bytes b') = Ok None.
Proof.
  intros Hr Hn Hroom.
  pose proof (proj1 (reachable_invariant (fun _ => True) I (fun _ _ _ _ _ => I) b Hr)) as Hwf.
  destruct (post_finish_output b Hwf Hn None Hroom) as (buf & b' & Hrun & Hpost);
    [ discriminate | ].
  destruct Hpost as (-> & _ & Hfin & _ & _ & _ & o & Hroot & Hao & Htab).
  apply sbind_Ok_iff in Hrun. destruct Hrun as (o' & b1 & Hc & Hrun).
  apply sbind_Ok_iff in Hrun. destruct Hrun as (st & b2 & Hf & Hout).
  assert (b2 = b') as -> by (revert Hout; unfold Builder.Output; run_state;
    destruct (Builder.finished b2); cbv [assert sret sfail]; congruence).
  assert (Hcalls : run_calls (calls_absent o') b = Ok (tt, b')).
  { revert Hc. unfold CreateOpInfo, calls_absent. cbn [run_calls run]. intros Hc.
    apply sbind_Ok_iff in Hc. destruct Hc as ([] & ba & Ha & Hc).
    apply sbind_Ok_iff in Hc. destruct Hc as ([] & bb & Hb & Hc).
    rewrite (sbind_Ok _ _ _ _ _ Ha), (sbind_Ok _ _ _ _ _ Hb).
    rewrite (sbind_Ok _ _ _ _ _ (run_drop _ _ _ _ Hc)).
    rewrite (sbind_Ok _ _ _ _ _ (run_drop _ _ _ _ Hf)). reflexivity. }
  exists o', b'. split; [ exact Hcalls | ].
  split; [ exact (run_calls_reachable _ _ _ Hr Hcalls) | ].
  split; [ unfold phase_of; rewrite Hfin; reflexivity | ].
  split; [ unfold Builder.Output; run_state; rewrite Hfin; reflexivity | ].
  apply (deserialize_serialized _ None). exists o. auto.
Qed.

(** Nothing seals a finished buffer: after [Finish] the builder still
    accepts calls, and they still add bytes. *)
Example finished_not_sealed :
  exists b b',
    run_calls (calls_absent 4) Builder.init = Ok (tt, b) /\
    reachable b /\ phase_of b = Finished /\
    step b b' /\ Builder.Offset b < Builder.Offset b'.
Proof.
  eexists. eexists. split; [ vm_compute; reflexivity | ].
  split; [ apply (run_calls_reachable (calls_absent 4) Builder.init);
           [ constructor | vm_compute; reflexivity ] | ].
  split; [ reflexivity | ].
  split; [ apply (step_call (CallPrependOffset 0)); vm_compute; reflexivity | by_compute ].
Qed.

(** ** Instances on the sample builders *)

Lemma step_sample_started : step sample_vector_builder sample_started_builder.
Proof. apply (step_call CallOpInfoStart). vm_compute. reflexivity. Qed.

Lemma reachable_sample_two_tables : reachable sample_two_tables.
Proof.
  apply (run_calls_reachable calls_two_tables Builder.init); [ constructor | ].
  vm_compute. reflexivity.
Qed.

Lemma remembered_vtables_differ_witness :
  Builder.vtable_at (Builder.Bytes sample_two_tables) 22
  <> Builder.vtable_at (Builder.Bytes sample_two_tables) 10.
Proof.
  apply (remembered_vtables_differ sample_two_tables 22 10 reachable_sample_two_tables);
    [ left; reflexivity | right; left; reflexivity | discriminate ].
Defined.

Lemma nesting_discipline_witness :
  (opens CallOpInfoStart = true ->
   Builder.nested sample_vector_builder = false /\
   Builder.nested sample_started_builder = true) /\
  (closes CallOpInfoStart = true ->
   Builder.nested sample_vector_builder = true /\
   Builder.nested sample_started_builder = false).
Proof.
  apply (nesting_discipline CallOpInfoStart sample_vector_builder sample_started_builder).
  vm_compute. reflexivity.
Defined.

Lemma reachable_wf_witness : wf sample_builder.
Proof. exact (reachable_wf sample_builder reachable_sample_builder). Defined.

Lemma step_appends_witness :
  exists pre, Builder.Bytes sample_started_builder = pre ++ Builder.Bytes sample_vector_builder.
Proof. exact (step_appends _ _ wf_sample_vector_builder step_sample_started). Defined.

Lemma step_phase_monotone_witness :
  phase_le (phase_of sample_vector_builder) (phase_of sample_started_builder) = true.
Proof. exact (step_phase_monotone _ _ wf_sample_vector_builder step_sample_started). Defined.

Lemma can_finish_witness :
  exists o b',
    run_calls (calls_absent o) sample_builder = Ok (tt, b') /\
    reachable b' /\ phase_of b' = Finished /\
    Builder.Output b' = Ok (Builder.Bytes b', b') /\
    deserialize (Builder.Bytes b') = Ok None.
Proof. apply can_finish; [ apply reachable_sample_builder | by_compute .. ]. Defined.
